(** * Adaptive batch task manager of the AI route (BatchTaskManager)

    Shallow embedding of the class [BatchTaskManager] of the AI router
    (task record, start / stop / getStatus, the [runTask] scheduler loop,
    [adjustConcurrency], [calculateDelay], [processCardWithRetry]) and the
    properties of its adaptive concurrency policy.

    Around the manager, the same router's [generateCardFields],
    [validateAIConfig], [buildPromptWithStrategy] and
    [autoGenerateForCards], the provider table and request URL of
    utils/aiProvider, and the debounced backup and backup cleaning of
    utils/autoBackup are embedded as far as their control flow goes; calls
    to the model, the database and the file system appear as outcomes given
    from outside.

    JavaScript numbers that the code only ever uses as integers are [Z];
    the one place where a half appears ([baseDelay / 2]) is a [Q].  A value
    that may be [undefined] or [null] is an [option]. *)

From Stdlib Require Import ZArith List String Ascii Bool Lia QArith Qminmax.
From Stdlib Require Import DecimalString Permutation Sorted.
From Equations Require Import Equations.
Import ListNotations.

Open Scope string_scope.
Open Scope list_scope.
Open Scope Z_scope.

(* ===================================================================== *)
(** ** JavaScript built-ins used by the manager *)
(* ===================================================================== *)

Module Js.

(** Truthiness of a string-or-undefined value: [undefined], [null] and the
    empty string are falsy. *)
Definition truthy (s : option string) : bool :=
  match s with
  | None => false
  | Some "" => false
  | Some _ => true
  end.

(** [a || b] on string-or-undefined values, with a string default. *)
Definition or_else (a : option string) (b : string) : string :=
  match a with
  | Some s => if truthy a then s else b
  | None => b
  end.

(** [String.prototype.includes]. *)
Fixpoint includes (s pat : string) : bool :=
  if String.prefix pat s then true
  else match s with
       | EmptyString => false
       | String _ s' => includes s' pat
       end.

(** [String.prototype.replace(pat, rep)] with a string pattern: only the
    first occurrence is replaced. *)
Fixpoint replace (s pat rep : string) : string :=
  if String.prefix pat s
  then (rep ++ String.substring (String.length pat)
                                (String.length s - String.length pat) s)%string
  else match s with
       | EmptyString => EmptyString
       | String c s' => String c (replace s' pat rep)
       end.

(** [Array.prototype.join]. *)
Definition join (sep : string) (l : list string) : string :=
  String.concat sep l.

(** [Array.prototype.slice(start, end)] with relative (possibly negative)
    indices. *)
Definition rel_index (len i : Z) : Z :=
  if i <? 0 then Z.max (len + i) 0 else Z.min i len.

Definition slice {A} (l : list A) (start end_ : Z) : list A :=
  let len := Z.of_nat (List.length l) in
  let k := rel_index len start in
  let final := rel_index len end_ in
  firstn (Z.to_nat (final - k)) (skipn (Z.to_nat k) l).

(** [arr.slice(start)]: the end defaults to the length. *)
Definition slice_from {A} (l : list A) (start : Z) : list A :=
  slice l start (Z.of_nat (List.length l)).

(** *** [parseInt]

    The values a configuration field can hold. *)
Inductive value :=
| VUndefined
| VNull
| VString (s : string)
| VNumber (n : Z).   (* an integral number, printed in decimal *)

Definition is_space (c : ascii) : bool :=
  let n := nat_of_ascii c in
  ((9 <=? n) && (n <=? 13))%nat || (n =? 32)%nat.

Fixpoint skip_spaces (s : string) : string :=
  match s with
  | String c s' => if is_space c then skip_spaces s' else s
  | EmptyString => s
  end.

(** Value of a digit in the given radix, if it is one. *)
Definition digit_val (radix : Z) (c : ascii) : option Z :=
  let n := Z.of_nat (nat_of_ascii c) in
  let d := if (48 <=? n) && (n <=? 57) then n - 48
           else if (97 <=? n) && (n <=? 122) then n - 87
           else if (65 <=? n) && (n <=? 90) then n - 55
           else 99 in
  if d <? radix then Some d else None.

(** Longest prefix of digits, accumulated most significant first; [None]
    when there is no digit at all. *)
Fixpoint digits (radix : Z) (acc : option Z) (s : string) : option Z :=
  match s with
  | EmptyString => acc
  | String c s' =>
      match digit_val radix c with
      | Some d =>
          digits radix
                 (Some (match acc with Some a => a * radix + d | None => d end))
                 s'
      | None => acc
      end
  end.

Definition strip_hex (s : string) : option string :=
  match s with
  | String "0" (String "x" r) => Some r
  | String "0" (String "X" r) => Some r
  | _ => None
  end.

(** [parseInt(s)] on a string, no radix argument; [None] is [NaN]. *)
Definition parseInt_string (s : string) : option Z :=
  let s1 := skip_spaces s in
  let '(neg, s2) :=
    match s1 with
    | String "-" r => (true, r)
    | String "+" r => (false, r)
    | _ => (false, s1)
    end in
  let r := match strip_hex s2 with
           | Some h => digits 16 None h
           | None => digits 10 None s2
           end in
  match r with
  | Some n => Some (if neg then - n else n)
  | None => None
  end.

(** [parseInt(v)]: the argument is first converted to a string; the
    strings "undefined" and "null" start with no digit.  A number stands
    for itself as long as its text is plain decimal, that is below 1e21 in
    magnitude and exactly representable; the white space skipped in front
    of a string is the ASCII one. *)
Definition parseInt (v : value) : option Z :=
  match v with
  | VUndefined => None
  | VNull => None
  | VString s => parseInt_string s
  | VNumber n => Some n
  end.

(** [x || d] on a number-or-NaN: [NaN] and [0] are falsy. *)
Definition num_or (x : option Z) (d : Z) : Z :=
  match x with
  | Some n => if n =? 0 then d else n
  | None => d
  end.

End Js.

(* ===================================================================== *)
(** ** Data model *)
(* ===================================================================== *)

(** A card as far as the scheduler reads it: [id], [title], [url]. *)
Record Card := mkCard {
  card_id : Z;
  card_title : option string;
  card_url : string
}.

(** An entry of [task.errors]. [isWarning] is only set on the entries for
    partially successful items. *)
Record ErrorEntry := mkErrorEntry {
  cardId : Z;
  cardTitle : string;
  error : option string;
  time : Z;
  isWarning : bool
}.

(** The [strategy] object handed to [start]. *)
Record Strategy := mkStrategy {
  mode : option string;
  style : option string;
  customPrompt : option string
}.

(** The object stored in [this.task]. *)
Record Task := mkTask {
  running : bool;
  types : list string;
  strategy : Strategy;
  current : Z;
  total : Z;
  successCount : Z;
  failCount : Z;
  currentCard : string;
  startTime : Z;
  errors : list ErrorEntry;
  concurrency : Z;
  isRateLimited : bool;
  consecutiveSuccesses : Z;
  rateLimitCount : Z
}.

(** The fields of a [BatchTaskManager] instance.  [abortController] holds
    [signal.aborted] of the current controller, [None] before the first
    [start]. *)
Record BatchTaskManager := mkManager {
  task : option Task;
  abortController : option bool;
  minConcurrency : Z;
  maxConcurrency : Z;
  initialConcurrency : Z
}.

(** What [getStatus] returns. *)
Inductive Status :=
| NotRunning   (* { running: false } *)
| Snapshot (s_running : bool) (s_types : list string)
           (s_current s_total s_successCount s_failCount : Z)
           (s_currentCard : string) (s_startTime : Z)
           (s_concurrency : Z) (s_isRateLimited : bool)
           (s_errors : list ErrorEntry).

(** What the manager sends out: an ['update'] event carrying a status, or a
    call of [notifyDataChange]. *)
Inductive Event :=
| Update (st : Status)
| DataChanged.

(** Field updates of the task record. *)
Definition set_running (b : bool) (t : Task) : Task :=
  mkTask b (types t) (strategy t) (current t) (total t) (successCount t)
         (failCount t) (currentCard t) (startTime t) (errors t)
         (concurrency t) (isRateLimited t) (consecutiveSuccesses t)
         (rateLimitCount t).

Definition set_current (n : Z) (t : Task) : Task :=
  mkTask (running t) (types t) (strategy t) n (total t) (successCount t)
         (failCount t) (currentCard t) (startTime t) (errors t)
         (concurrency t) (isRateLimited t) (consecutiveSuccesses t)
         (rateLimitCount t).

Definition set_successCount (n : Z) (t : Task) : Task :=
  mkTask (running t) (types t) (strategy t) (current t) (total t) n
         (failCount t) (currentCard t) (startTime t) (errors t)
         (concurrency t) (isRateLimited t) (consecutiveSuccesses t)
         (rateLimitCount t).

Definition set_failCount (n : Z) (t : Task) : Task :=
  mkTask (running t) (types t) (strategy t) (current t) (total t)
         (successCount t) n (currentCard t) (startTime t) (errors t)
         (concurrency t) (isRateLimited t) (consecutiveSuccesses t)
         (rateLimitCount t).

Definition set_currentCard (s : string) (t : Task) : Task :=
  mkTask (running t) (types t) (strategy t) (current t) (total t)
         (successCount t) (failCount t) s (startTime t) (errors t)
         (concurrency t) (isRateLimited t) (consecutiveSuccesses t)
         (rateLimitCount t).

(** [task.errors.push(e)] *)
Definition push_error (e : ErrorEntry) (t : Task) : Task :=
  mkTask (running t) (types t) (strategy t) (current t) (total t)
         (successCount t) (failCount t) (currentCard t) (startTime t)
         (errors t ++ [e])
         (concurrency t) (isRateLimited t) (consecutiveSuccesses t)
         (rateLimitCount t).

(** The four fields of the adaptive state, written together. *)
Definition set_adaptive (c : Z) (rl : bool) (streak n : Z) (t : Task) : Task :=
  mkTask (running t) (types t) (strategy t) (current t) (total t)
         (successCount t) (failCount t) (currentCard t) (startTime t)
         (errors t) c rl streak n.

Definition set_task (o : option Task) (m : BatchTaskManager) : BatchTaskManager :=
  mkManager o (abortController m) (minConcurrency m) (maxConcurrency m)
            (initialConcurrency m).

Definition set_abortController (a : option bool) (m : BatchTaskManager)
  : BatchTaskManager :=
  mkManager (task m) a (minConcurrency m) (maxConcurrency m)
            (initialConcurrency m).

(** [if (this.task) { ... }]: a block that mutates the task when there is
    one. *)
Definition with_task (f : Task -> Task) (m : BatchTaskManager)
  : BatchTaskManager :=
  match task m with
  | Some t => set_task (Some (f t)) m
  | None => m
  end.

(* ===================================================================== *)
(** ** The manager's synchronous methods *)
(* ===================================================================== *)

(** [constructor()] *)
Definition constructor : BatchTaskManager :=
  mkManager None None 1 5 3.

(** [getStatus()] *)
Definition getStatus (m : BatchTaskManager) : Status :=
  match task m with
  | None => NotRunning
  | Some t =>
      Snapshot (running t) (types t) (current t) (total t) (successCount t)
               (failCount t) (currentCard t) (startTime t) (concurrency t)
               (isRateLimited t) (Js.slice_from (errors t) (-100))
  end.

(** [isRunning()]: [this.task && this.task.running], as a truth value. *)
Definition isRunning (m : BatchTaskManager) : bool :=
  match task m with
  | Some t => running t
  | None => false
  end.

(** [emitUpdate()] *)
Definition emitUpdate (m : BatchTaskManager) : list Event :=
  [Update (getStatus m)].

(** The [types] argument of [start]: an array, or a single name that
    [start] wraps in one. *)
Inductive TypesArg :=
| TypesArray (l : list string)
| TypesSingle (s : string).

Definition types_of (a : TypesArg) : list string :=
  match a with
  | TypesArray l => l
  | TypesSingle s => [s]
  end.

(** Outcome of [start]: the promise is rejected with an [Error] or resolves
    to [{ total }]. *)
Inductive StartResult :=
| StartError (message : string)
| Started (total_ : Z).

Definition already_running_message : string := "已有任务在运行中".

(** [start(config, cards, types, strategy)] up to the call of [runTask]:
    the result, the manager afterwards, and the events sent.  [now] is what
    [Date.now()] returns.  The scheduler that a successful start launches
    is added by [sys_step] below. *)
Definition start (now : Z) (cards : list Card) (ty : TypesArg)
           (st : Strategy) (m : BatchTaskManager)
  : StartResult * BatchTaskManager * list Event :=
  if isRunning m then (StartError already_running_message, m, [])
  else
    let m1 := set_abortController (Some false) m in
    let t := mkTask true (types_of ty) st 0 (Z.of_nat (List.length cards))
                    0 0 "准备启动..." now [] (initialConcurrency m1)
                    false 0 0 in
    let m2 := set_task (Some t) m1 in
    (Started (Z.of_nat (List.length cards)), m2, emitUpdate m2).

(** The handler [start] attaches to the promise of [runTask] with [.catch]:
    it runs if that promise is rejected with [err]. *)
Definition on_runTask_rejected (msg : option string) (now : Z)
           (m : BatchTaskManager) : BatchTaskManager * list Event :=
  match task m with
  | Some t =>
      let m' := set_task
                  (Some (push_error
                           (mkErrorEntry 0 "系统任务"
                                         (Some (Js.or_else msg "任务异常中断"))
                                         now false)
                           (set_running false t))) m in
      (m', emitUpdate m')
  | None => (m, [])
  end.

(** [stop()] *)
Definition stop (m : BatchTaskManager) : BatchTaskManager * list Event :=
  let m1 := match abortController m with
            | Some _ => set_abortController (Some true) m
            | None => m
            end in
  match task m1 with
  | Some t =>
      let m2 := set_task (Some (set_currentCard "已停止" (set_running false t))) m1 in
      (m2, emitUpdate m2)
  | None => (m1, [])
  end.

(** [adjustConcurrency(successCount, failCount, hasRateLimit)] *)
Definition adjustConcurrency (successCount_ failCount_ : Z)
           (hasRateLimit : bool) (m : BatchTaskManager) : BatchTaskManager :=
  match task m with
  | None => m
  | Some t =>
      if hasRateLimit then
        set_task (Some (set_adaptive
                          (Z.max (minConcurrency m) (concurrency t / 2))
                          true 0 (rateLimitCount t + 1) t)) m
      else if (0 <? successCount_) && (failCount_ =? 0) then
        let streak := consecutiveSuccesses t + 1 in
        if (3 <=? streak) && (concurrency t <? maxConcurrency m) then
          set_task (Some (set_adaptive
                            (Z.min (maxConcurrency m) (concurrency t + 1))
                            false 0 (rateLimitCount t) t)) m
        else
          set_task (Some (set_adaptive (concurrency t) false streak
                                       (rateLimitCount t) t)) m
      else
        set_task (Some (set_adaptive (concurrency t) (isRateLimited t) 0
                                     (rateLimitCount t) t)) m
  end.

(** [calculateDelay(baseDelay, hasRateLimit)], in milliseconds.  The
    arithmetic is exact on the values involved, so the result is a
    rational. *)
Definition calculateDelay (baseDelay : Z) (hasRateLimit : bool)
           (m : BatchTaskManager) : Q :=
  match task m with
  | None => inject_Z baseDelay
  | Some t =>
      if hasRateLimit then
        let multiplier := Qpower (inject_Z 2) (Z.min (rateLimitCount t) 4) in
        Qmin (inject_Z baseDelay * multiplier)%Q (inject_Z 30000)
      else if concurrency t =? 1 then inject_Z baseDelay
      else Qmax (inject_Z 200) (inject_Z baseDelay / inject_Z 2)%Q
  end.

(** The base delay that [runTask] derives from the stored configuration:
    [Math.max(500, Math.min(10000, parseInt(rawConfig.requestDelay) || 1500))]. *)
Definition baseDelay_of (requestDelay : Js.value) : Z :=
  Z.max 500 (Z.min 10000 (Js.num_or (Js.parseInt requestDelay) 1500)).

(* ===================================================================== *)
(** ** The retrying item executor *)
(* ===================================================================== *)

(** An [Error] thrown by [generateCardFields]: its [message], and the
    numeric [status] / [statusCode] some providers attach. *)
Record JsError := mkJsError {
  message : option string;
  status : option Z;
  statusCode : option Z
}.

(** One call of [generateCardFields]: it returns [{ updated, data,
    partialError? }] or throws. *)
Inductive GenOutcome :=
| Returns (updated_ : bool) (partialError_ : option string)
| Throws (e : JsError).

(** The object [processCardWithRetry] resolves to. *)
Record ItemResult := mkItemResult {
  success : bool;
  updated : option bool;
  rateLimited : bool;
  partialError : option string;
  item_error : option string
}.

(** [error.status || error.statusCode], for numbers. *)
Definition status_of (e : JsError) : option Z :=
  match status e with
  | Some s => if s =? 0 then statusCode e else Some s
  | None => statusCode e
  end.

(** [isRateLimitError(error)], for an error object. *)
Definition isRateLimitError (e : JsError) : bool :=
  let msg := Js.or_else (message e) "" in
  match status_of e with Some s => s =? 429 | None => false end
  || Js.includes msg "429"
  || Js.includes msg "rate limit"
  || Js.includes msg "Rate limit"
  || Js.includes msg "too many requests"
  || Js.includes msg "Too Many Requests"
  || Js.includes msg "quota exceeded"
  || Js.includes msg "请求过于频繁".

Definition maxRetries : Z := 2.

(** [processCardWithRetry(..., retryCount)].  [gen k] is what the call of
    [generateCardFields] made with [retryCount = k] does.  The result comes
    with the durations (ms) of the [sleep]s requested on the way, in
    order. *)
Equations? processCardWithRetry (gen : Z -> GenOutcome) (retryCount : Z)
  : ItemResult * list Z
  by wf (Z.to_nat (maxRetries - retryCount)) lt :=
  processCardWithRetry gen retryCount with gen retryCount => {
    | Returns u pe => (mkItemResult true (Some u) false pe None, []);
    | Throws e with Sumbool.sumbool_of_bool
                      (isRateLimitError e && (retryCount <? maxRetries)) => {
        | left _ =>
            let retryDelay := 2 ^ (retryCount + 1) * 1000 in
            let '(r, sleeps) := processCardWithRetry gen (retryCount + 1) in
            (r, retryDelay :: sleeps);
        | right _ =>
            (mkItemResult false None (isRateLimitError e) None (message e), [])
      }
  }.
Proof.
  change (Z.to_nat (maxRetries - (retryCount + 1))
          < Z.to_nat (maxRetries - retryCount))%nat.
  match goal with
  | H : _ && _ = true |- _ => apply andb_prop in H as [_ Hlt]
  end.
  apply Z.ltb_lt in Hlt. lia.
Qed.

(** How a window member settles under [Promise.allSettled]. *)
Inductive Settled :=
| Fulfilled (v : ItemResult)
| Rejected (reason_message : option string).

Definition ok_result : ItemResult := mkItemResult true (Some true) false None None.

Definition rate_limit_error : JsError :=
  mkJsError (Some "Request failed with status code 429") (Some 429) None.

(** A processor that is throttled on its first two calls and then works. *)
Definition throttled_twice (k : Z) : GenOutcome :=
  if k <? 2 then Throws rate_limit_error else Returns true None.

(* ===================================================================== *)
(** ** The batch scheduler ([runTask])

    JavaScript runs [runTask] without interruption between two [await]s,
    so an invocation is modelled by the point where it is suspended and by
    one function per stretch of code between two suspensions.  Other calls
    ([start], [stop], another invocation of [runTask]) can only happen while
    it is suspended.  Cards are objects, as the database returns them, so
    the loop body itself does not throw; the [catch] block is reached from
    the two database reads at the top. *)
(* ===================================================================== *)

(** What one pass over a window's results accumulates in the locals
    [batchSuccess], [batchFail] and [hasRateLimit]. *)
Record Tally := mkTally {
  batchSuccess : Z;
  batchFail : Z;
  hasRateLimit : bool
}.

(** Where an invocation of [runTask] is suspended. *)
Inductive Phase :=
| Prologue                        (* awaiting the tag names and the config *)
| AwaitWindow (batch : list Card) (* awaiting Promise.allSettled *)
| Sleeping (delay : Q)            (* awaiting the inter-batch sleep *)
| Grace                           (* awaiting the 500 ms of the finally block *)
| Finished.

(** The locals of an invocation of [runTask] that survive an [await]. *)
Record Activation := mkActivation {
  act_cards : list Card;
  act_index : Z;
  act_baseDelay : Z;
  act_phase : Phase
}.

(** What resumes a suspended invocation. *)
Inductive Input :=
| ConfigLoaded (requestDelay : Js.value)
| ConfigFailed (msg : option string) (now : Z)
| WindowSettled (results : list (Settled * Z)) (* each with its Date.now() *)
| TimerFired.

Definition set_phase (p : Phase) (a : Activation) : Activation :=
  mkActivation (act_cards a) (act_index a) (act_baseDelay a) p.

Definition rate_limit_message : string :=
  "API 请求受限 (Rate Limit)，请稍后再试或降低并发数".

(** [card.title || card.url] *)
Definition title_or_url (c : Card) : string :=
  Js.or_else (card_title c) (card_url c).

(** The body of the [for] loop over [results], for one index.  The title
    put into an entry is the one the card had when the window was built;
    a title that [generateCardFields] assigned to the card in between is
    not tracked. *)
Definition apply_result (acc : BatchTaskManager * Tally * list Event)
           (rc : Settled * Z * Card) : BatchTaskManager * Tally * list Event :=
  let '(m, tl, evs) := acc in
  let '(r, now, card) := rc in
  let m := with_task (fun t => set_current (current t + 1) t) m in
  let entry msg warn := mkErrorEntry (card_id card) (title_or_url card) msg now warn in
  match r with
  | Fulfilled v =>
      if success v then
        (with_task (fun t =>
                      let t := set_successCount (successCount t + 1) t in
                      if Js.truthy (partialError v)
                      then push_error
                             (entry (Some ("部分成功: "
                                           ++ Js.or_else (partialError v) "")%string)
                                    true) t
                      else t) m,
         mkTally (batchSuccess tl + 1) (batchFail tl) (hasRateLimit tl),
         evs ++ [DataChanged])
      else if rateLimited v then
        (with_task (fun t =>
                      push_error (entry (Some rate_limit_message) false)
                                 (set_failCount (failCount t + 1) t)) m,
         mkTally (batchSuccess tl) (batchFail tl + 1) true,
         evs)
      else
        (with_task (fun t =>
                      let t := set_failCount (failCount t + 1) t in
                      if Js.truthy (item_error v)
                      then push_error (entry (item_error v) false) t
                      else t) m,
         mkTally (batchSuccess tl) (batchFail tl + 1) (hasRateLimit tl),
         evs)
  | Rejected reason =>
      (with_task (fun t =>
                    push_error (entry (Some (Js.or_else reason "未知错误")) false)
                               (set_failCount (failCount t + 1) t)) m,
       mkTally (batchSuccess tl) (batchFail tl + 1) (hasRateLimit tl),
       evs)
  end.

(** The whole [for] loop: results are applied in window order. *)
Definition apply_results (m : BatchTaskManager) (results : list (Settled * Z))
           (batch : list Card) : BatchTaskManager * Tally * list Event :=
  fold_left apply_result (combine results batch) (m, mkTally 0 0 false, []).

Section Scheduler.

(** [new URL(url).hostname]; [None] when the constructor throws. *)
Variable hostname : string -> option string.

(** [extractDomain(url)] *)
Definition extractDomain (url : string) : string :=
  match hostname url with
  | Some h => Js.replace h "www." ""
  | None => url
  end.

(** [c.title || extractDomain(c.url)] *)
Definition card_label (c : Card) : string :=
  Js.or_else (card_title c) (extractDomain (card_url c)).

(** The [finally] block up to its [await]. *)
Definition enter_finally (m : BatchTaskManager) (a : Activation)
  : BatchTaskManager * Activation * list Event :=
  match task m with
  | Some _ => (m, set_phase Grace a, [])
  | None => (m, set_phase Finished a, [])
  end.

(** The [finally] block after its [await]. *)
Definition finalize (m : BatchTaskManager) (a : Activation)
  : BatchTaskManager * Activation * list Event :=
  let m' := with_task (fun t =>
                         set_current (total t)
                                     (set_currentCard "" (set_running false t))) m in
  (m', set_phase Finished a, emitUpdate m' ++ [DataChanged]).

(** [this.abortController?.signal.aborted || !this.task?.running] *)
Definition should_break (m : BatchTaskManager) : bool :=
  match abortController m with Some b => b | None => false end
  || negb (isRunning m).

(** From the [while] test to the next [await]: either a window is launched
    or the loop is left for the [finally] block. *)
Definition loop_head (m : BatchTaskManager) (a : Activation)
  : BatchTaskManager * Activation * list Event :=
  let totalCards := Z.of_nat (List.length (act_cards a)) in
  if act_index a <? totalCards then
    if should_break m then enter_finally m a
    else
      match task m with
      | Some t =>
          let currentConcurrency := concurrency t in
          let batch := Js.slice (act_cards a) (act_index a)
                                (act_index a + currentConcurrency) in
          let m' := set_task
                      (Some (set_currentCard
                               (Js.join ", " (map card_label batch)) t)) m in
          (m', set_phase (AwaitWindow batch) a, emitUpdate m')
      | None => enter_finally m a   (* excluded by [should_break] *)
      end
  else enter_finally m a.

(** From the settlement of a window to the next [await]. *)
Definition settle_window (m : BatchTaskManager) (a : Activation)
           (batch : list Card) (results : list (Settled * Z))
  : BatchTaskManager * Activation * list Event :=
  let '(m1, tl, evs) := apply_results m results batch in
  let m2 := adjustConcurrency (batchSuccess tl) (batchFail tl)
                              (hasRateLimit tl) m1 in
  let evs2 := evs ++ emitUpdate m2 in
  let a' := mkActivation (act_cards a)
                         (act_index a + Z.of_nat (List.length batch))
                         (act_baseDelay a) (act_phase a) in
  let totalCards := Z.of_nat (List.length (act_cards a)) in
  if (act_index a' <? totalCards) && isRunning m2 then
    (m2,
     set_phase (Sleeping (calculateDelay (act_baseDelay a) (hasRateLimit tl) m2)) a',
     evs2)
  else
    let '(m3, a3, evs3) := loop_head m2 a' in
    (m3, a3, evs2 ++ evs3).

(** The [catch] block of [runTask]. *)
Definition catch_block (msg : option string) (now : Z) (m : BatchTaskManager)
  : BatchTaskManager :=
  with_task (push_error (mkErrorEntry 0 "系统" msg now false)) m.

(** One resumption of a suspended [runTask]: [None] when the input is not
    what the invocation is waiting for. *)
Definition act_step (inp : Input) (m : BatchTaskManager) (a : Activation)
  : option (BatchTaskManager * Activation * list Event) :=
  match act_phase a, inp with
  | Prologue, ConfigLoaded rd =>
      Some (loop_head m (mkActivation (act_cards a) 0 (baseDelay_of rd) Prologue))
  | Prologue, ConfigFailed msg now =>
      Some (enter_finally (catch_block msg now m) a)
  | AwaitWindow batch, WindowSettled results =>
      if (List.length results =? List.length batch)%nat
      then Some (settle_window m a batch results)
      else None
  | Sleeping _, TimerFired => Some (loop_head m a)
  | Grace, TimerFired => Some (finalize m a)
  | _, _ => None
  end.

(** *** The manager together with its suspended schedulers *)

Record System := mkSystem {
  mgr : BatchTaskManager;
  acts : list Activation
}.

Inductive Action :=
| CallStart (now : Z) (cards : list Card) (ty : TypesArg) (st : Strategy)
| CallStop
| Resume (i : nat) (inp : Input)
| RunTaskRejected (msg : option string) (now : Z).

Fixpoint update_nth {A} (i : nat) (x : A) (l : list A) : list A :=
  match i, l with
  | O, _ :: l' => x :: l'
  | S i', y :: l' => y :: update_nth i' x l'
  | _, [] => []
  end.

Definition sys_step (s : System) (act : Action) : System * list Event :=
  match act with
  | CallStart now cards ty st =>
      match start now cards ty st (mgr s) with
      | (Started _, m', evs) =>
          (mkSystem m' (acts s ++ [mkActivation cards 0 0 Prologue]), evs)
      | (StartError _, m', evs) => (mkSystem m' (acts s), evs)
      end
  | CallStop =>
      let '(m', evs) := stop (mgr s) in (mkSystem m' (acts s), evs)
  | Resume i inp =>
      match nth_error (acts s) i with
      | Some a =>
          match act_step inp (mgr s) a with
          | Some (m', a', evs) => (mkSystem m' (update_nth i a' (acts s)), evs)
          | None => (s, [])
          end
      | None => (s, [])
      end
  | RunTaskRejected msg now =>
      let '(m', evs) := on_runTask_rejected msg now (mgr s) in
      (mkSystem m' (acts s), evs)
  end.

(** A run: the system after a list of actions, and everything sent out. *)
Fixpoint sys_run (s : System) (l : list Action) : System * list Event :=
  match l with
  | [] => (s, [])
  | act :: l' =>
      let '(s1, evs1) := sys_step s act in
      let '(s2, evs2) := sys_run s1 l' in
      (s2, evs1 ++ evs2)
  end.

Definition initial : System := mkSystem constructor [].

Definition reachable (s : System) : Prop :=
  exists l, fst (sys_run initial l) = s.

(** *** An uninterrupted task

    [drive] runs one invocation of [runTask] until it finishes, with no
    other call in between.  Each window member [c] settles as [exec c];
    the configuration is read at the start.  It returns the windows that
    were launched, in order, next to the final state and the events. *)
Fixpoint drive (fuel : nat) (exec : Card -> Settled * Z) (cfg : Input)
         (m : BatchTaskManager) (a : Activation)
  : option (BatchTaskManager * Activation * list Event * list (list Card)) :=
  match fuel with
  | O => None
  | S fuel' =>
      let inp := match act_phase a with
                 | Prologue => cfg
                 | AwaitWindow batch => WindowSettled (map exec batch)
                 | _ => TimerFired
                 end in
      match act_phase a with
      | Finished => Some (m, a, [], [])
      | _ =>
          match act_step inp m a with
          | Some (m', a', evs) =>
              match drive fuel' exec cfg m' a' with
              | Some (m'', a'', evs', ws) =>
                  Some (m'', a'', evs ++ evs',
                        match act_phase a' with
                        | AwaitWindow b => b :: ws
                        | _ => ws
                        end)
              | None => None
              end
          | None => None
          end
      end
  end.

(** [start] followed by the uninterrupted run of the scheduler it
    launched. *)
Definition run_task (fuel : nat) (exec : Card -> Settled * Z)
           (requestDelay : Js.value) (now : Z) (cards : list Card)
           (ty : TypesArg) (st : Strategy) (m : BatchTaskManager)
  : option (BatchTaskManager * Activation * list Event * list (list Card)) :=
  match start now cards ty st m with
  | (Started _, m1, evs1) =>
      match drive fuel exec (ConfigLoaded requestDelay) m1
                  (mkActivation cards 0 0 Prologue) with
      | Some (m2, a2, evs2, ws) => Some (m2, a2, evs1 ++ evs2, ws)
      | None => None
      end
  | (StartError _, _, _) => None
  end.

End Scheduler.

(* ===================================================================== *)
(** ** The adaptive state and what touches it *)
(* ===================================================================== *)

(** The part of a task the concurrency policy reads and writes. *)
Definition adaptive (t : Task) : Z * bool * Z * Z :=
  (concurrency t, isRateLimited t, consecutiveSuccesses t, rateLimitCount t).

(** The same for a manager, with its three policy constants. *)
Definition policy_view (m : BatchTaskManager)
  : Z * Z * Z * option (Z * bool * Z * Z) :=
  (minConcurrency m, maxConcurrency m, initialConcurrency m,
   option_map adaptive (task m)).

(** Bookkeeping of a task: everything the policy does not own. *)
Definition same_bookkeeping (t t' : Task) : Prop :=
  running t' = running t /\ types t' = types t /\ strategy t' = strategy t
  /\ current t' = current t /\ total t' = total t
  /\ successCount t' = successCount t /\ failCount t' = failCount t
  /\ currentCard t' = currentCard t /\ startTime t' = startTime t
  /\ errors t' = errors t.

(** The window was classified as rate-limited: some member settled as a
    failure flagged [rateLimited]. *)
Definition window_rate_limited (results : list (Settled * Z)) : bool :=
  existsb (fun r => match fst r with
                    | Fulfilled v => negb (success v) && rateLimited v
                    | Rejected _ => false
                    end) results.

(** The member counts as a success in the loop over the results. *)
Definition is_success (r : Settled * Z) : bool :=
  match fst r with
  | Fulfilled v => success v
  | Rejected _ => false
  end.

(** Every member of the window settled as a success. *)
Definition window_all_succeeded (results : list (Settled * Z)) : bool :=
  forallb is_success results.

(** The bounds of the constructor hold for this manager. *)
Definition bounded (m : BatchTaskManager) : Prop :=
  minConcurrency m = 1 /\ maxConcurrency m = 5 /\ initialConcurrency m = 3
  /\ match task m with
     | Some t => 1 <= concurrency t <= 5
     | None => True
     end.

(** How many members of the window count as successes. *)
Definition count_success (results : list (Settled * Z)) : Z :=
  Z.of_nat (List.length (filter is_success results)).


(* ===================================================================== *)
(** ** Reference notions the properties are stated against *)
(* ===================================================================== *)

(** A buffer of capacity [cap] with first-in-first-out eviction, as the
    data model describes the error log: pushing onto a full buffer drops
    its oldest entry. *)
Definition ring_push {A} (cap : nat) (buf : list A) (x : A) : list A :=
  if (List.length buf <? cap)%nat then buf ++ [x] else tl (buf ++ [x]).

Definition ring_of {A} (cap : nat) (l : list A) : list A :=
  fold_left (ring_push cap) l [].

(** The [errors] field of a status, empty for [{ running: false }]. *)
Definition status_errors (st : Status) : list ErrorEntry :=
  match st with
  | NotRunning => []
  | Snapshot _ _ _ _ _ _ _ _ _ _ es => es
  end.

Definition status_running (st : Status) : bool :=
  match st with
  | NotRunning => false
  | Snapshot r _ _ _ _ _ _ _ _ _ _ => r
  end.

Definition status_current (st : Status) : option Z :=
  match st with
  | NotRunning => None
  | Snapshot _ _ c _ _ _ _ _ _ _ _ => Some c
  end.

Definition status_total (st : Status) : option Z :=
  match st with
  | NotRunning => None
  | Snapshot _ _ _ t _ _ _ _ _ _ _ => Some t
  end.

Definition status_concurrency (st : Status) : option Z :=
  match st with
  | NotRunning => None
  | Snapshot _ _ _ _ _ _ _ _ c _ _ => Some c
  end.

Definition status_isRateLimited (st : Status) : option bool :=
  match st with
  | NotRunning => None
  | Snapshot _ _ _ _ _ _ _ _ _ rl _ => Some rl
  end.

Definition status_counts (st : Status) : option (Z * Z) :=
  match st with
  | NotRunning => None
  | Snapshot _ _ _ _ sc fc _ _ _ _ _ => Some (sc, fc)
  end.

(** The statuses among the events, in the order they were sent. *)
Fixpoint updates (evs : list Event) : list Status :=
  match evs with
  | [] => []
  | Update st :: evs' => st :: updates evs'
  | DataChanged :: evs' => updates evs'
  end.

(** The three task states of the design: a task is Running while its
    [running] flag is set, Stopping when the flag is cleared but a scheduler
    has not finished yet, Idle otherwise. *)
Inductive TaskState := Idle | Running | Stopping.

Definition unfinished (a : Activation) : bool :=
  match act_phase a with
  | Finished => false
  | _ => true
  end.

Definition task_state (s : System) : TaskState :=
  if isRunning (mgr s) then Running
  else if existsb unfinished (acts s) then Stopping
  else Idle.

(** The three classes of window the policy tells apart, from the arguments
    of [adjustConcurrency]. *)
Inductive WindowClass := RateLimitedWindow | CleanWindow | MixedWindow.

Definition classify (w : Z * Z * bool) : WindowClass :=
  let '(sc, fc, rl) := w in
  if rl then RateLimitedWindow
  else if (0 <? sc) && (fc =? 0) then CleanWindow
  else MixedWindow.

(** A sequence of adjustments, one per window. *)
Definition adjust_all (ws : list (Z * Z * bool)) (m : BatchTaskManager)
  : BatchTaskManager :=
  fold_left (fun m w => adjustConcurrency (fst (fst w)) (snd (fst w)) (snd w) m)
            ws m.

(** Whether the latest window that was not mixed was rate-limited;
    [flag] when every window was mixed. *)
Fixpoint last_signal (flag : bool) (ws : list (Z * Z * bool)) : bool :=
  match ws with
  | [] => flag
  | w :: ws' =>
      last_signal (match classify w with
                   | RateLimitedWindow => true
                   | CleanWindow => false
                   | MixedWindow => flag
                   end) ws'
  end.

(** The base delay as a plain clamp of [parseInt(requestDelay)] with 1500
    for [NaN]. *)
Definition clamped_requestDelay (requestDelay : Js.value) : Z :=
  match Js.parseInt requestDelay with
  | Some n => Z.max 500 (Z.min 10000 n)
  | None => 1500
  end.

(** *** Sample data *)

Definition no_hostname (url : string) : option string := None.

Definition sample_card (i : Z) : Card :=
  mkCard i (Some "card") "https://example.com".

Definition ten_cards : list Card :=
  map sample_card [1; 2; 3; 4; 5; 6; 7; 8; 9; 10].

Definition fill_strategy : Strategy := mkStrategy (Some "fill") None None.

(** Every item succeeds at once. *)
Definition all_succeed (c : Card) : Settled * Z := (Fulfilled ok_result, 0).

(** Item 4 is throttled twice and succeeds on its third attempt; the others
    succeed at once. *)
Definition fourth_throttled_twice (c : Card) : Settled * Z :=
  if card_id c =? 4
  then (Fulfilled (fst (processCardWithRetry throttled_twice 0)), 0)
  else all_succeed c.

(** A failure that is not a rate limit, and one that is. *)
Definition plain_failure : Settled * Z :=
  (Fulfilled (mkItemResult false None false None (Some "timeout")), 0).

Definition throttled_failure : Settled * Z :=
  (Fulfilled (mkItemResult false None true None (Some "429")), 0).

Definition start_ten : Action :=
  CallStart 0 ten_cards (TypesSingle "name") fill_strategy.

(** A task whose first window hit the rate limit. *)
Definition throttled_actions : list Action :=
  [start_ten;
   Resume 0 (ConfigLoaded (Js.VString "1500"));
   Resume 0 (WindowSettled
               [all_succeed (sample_card 1); throttled_failure;
                all_succeed (sample_card 3)])].

Definition throttled_system : System :=
  fst (sys_run no_hostname initial throttled_actions).

(** A task whose first window is in flight. *)
Definition in_flight_system : System :=
  fst (sys_run no_hostname initial
               [start_ten; Resume 0 (ConfigLoaded (Js.VString "1500"))]).

(** A task stopped while its first window is in flight. *)
Definition stopping_actions : list Action :=
  [start_ten; Resume 0 (ConfigLoaded (Js.VString "1500")); CallStop].

Definition stopping_system : System :=
  fst (sys_run no_hostname initial stopping_actions).

(** *** Notions for whole runs *)

(** How many times [notifyDataChange] was called. *)
Fixpoint data_changes (evs : list Event) : nat :=
  match evs with
  | [] => 0
  | DataChanged :: evs' => S (data_changes evs')
  | Update _ :: evs' => data_changes evs'
  end.

(** The window an invocation is waiting for, if any. *)
Definition launched (a : Activation) : list (list Card) :=
  match act_phase a with
  | AwaitWindow b => [b]
  | _ => []
  end.

(** The state of an uninterrupted task about to test its loop condition
    with [i] cards done: the task is running and not aborted, its counters
    account for exactly the first [i] cards, each settled as [exec] says. *)
Definition run_inv (exec : Card -> Settled * Z) (cards : list Card) (i : nat)
           (m : BatchTaskManager) (a : Activation) : Prop :=
  act_cards a = cards /\ act_index a = Z.of_nat i
  /\ (i <= List.length cards)%nat
  /\ bounded m /\ abortController m <> Some true
  /\ exists t,
      task m = Some t /\ running t = true
      /\ total t = Z.of_nat (List.length cards)
      /\ current t = Z.of_nat i
      /\ successCount t = count_success (map exec (firstn i cards))
      /\ failCount t
         = Z.of_nat i - count_success (map exec (firstn i cards)).

(** The state of a task that ran to its natural end. *)
Definition run_done (exec : Card -> Settled * Z) (cards : list Card)
           (m : BatchTaskManager) (a : Activation) : Prop :=
  act_phase a = Finished
  /\ exists t,
      task m = Some t /\ running t = false /\ currentCard t = ""
      /\ total t = Z.of_nat (List.length cards)
      /\ current t = Z.of_nat (List.length cards)
      /\ successCount t = count_success (map exec cards)
      /\ failCount t
         = Z.of_nat (List.length cards) - count_success (map exec cards).

(** The potential the additive increase works against: three units per
    level of concurrency, plus the clean streak while below the maximum. *)
Definition recovery_potential (m : BatchTaskManager) : Z :=
  match task m with
  | Some t =>
      3 * concurrency t
      + (if concurrency t <? maxConcurrency m then consecutiveSuccesses t else 0)
  | None => 0
  end.

(** The policy counters are sane: bounds as in [bounded], counters not
    negative, and a streak below 3 while the concurrency can still grow. *)
Definition counters_sane (m : BatchTaskManager) : Prop :=
  bounded m
  /\ match task m with
     | Some t =>
         0 <= consecutiveSuccesses t /\ 0 <= rateLimitCount t
         /\ (concurrency t < 5 -> consecutiveSuccesses t <= 2)
     | None => True
     end.

(** How many of the windows were rate-limited. *)
Definition count_rate_limited (ws : list (Z * Z * bool)) : Z :=
  Z.of_nat (List.length (filter (fun w => snd w) ws)).

(* ===================================================================== *)
(** ** Providers and the configuration check *)
(* ===================================================================== *)

(** An entry of [AI_PROVIDERS]. *)
Record ProviderConfig := mkProvider {
  provider_name : string;
  provider_baseUrl : string;
  provider_defaultModel : string;
  needsApiKey : bool;
  needsBaseUrl : bool
}.

(** The table [AI_PROVIDERS] of the provider adapter. *)
Definition AI_PROVIDERS : list (string * ProviderConfig) :=
  [("openai", mkProvider "OpenAI" "https://api.openai.com" "gpt-3.5-turbo" true false);
   ("anthropic", mkProvider "Anthropic Claude" "https://api.anthropic.com" "claude-3-haiku-20240307" true false);
   ("gemini", mkProvider "Google Gemini" "https://generativelanguage.googleapis.com" "gemini-1.5-flash" true false);
   ("groq", mkProvider "Groq" "https://api.groq.com/openai" "llama-3.1-8b-instant" true false);
   ("deepseek", mkProvider "DeepSeek" "https://api.deepseek.com" "deepseek-chat" true false);
   ("zhipu", mkProvider "智谱 GLM" "https://open.bigmodel.cn/api/paas" "glm-4-flash" true false);
   ("qwen", mkProvider "通义千问" "https://dashscope.aliyuncs.com/compatible-mode" "qwen-turbo" true false);
   ("doubao", mkProvider "豆包" "https://ark.cn-beijing.volces.com/api" "doubao-lite-4k" true false);
   ("moonshot", mkProvider "Moonshot (Kimi)" "https://api.moonshot.cn" "moonshot-v1-8k" true false);
   ("minimax", mkProvider "MiniMax (海螺)" "https://api.minimax.chat/v1" "abab6.5s-chat" true false);
   ("stepfun", mkProvider "阶跃星辰" "https://api.stepfun.com" "step-1-flash" true false);
   ("yi", mkProvider "零一万物 (Yi)" "https://api.lingyiwanwu.com" "yi-lightning" true false);
   ("baidu", mkProvider "百度千帆 (OpenAI 兼容)" "https://qianfan.baidubce.com/v2" "ernie-4.0-8k-latest" true false);
   ("siliconflow", mkProvider "SiliconFlow (硅基流动)" "https://api.siliconflow.cn/v1" "deepseek-ai/DeepSeek-V3" true false);
   ("spark", mkProvider "讯飞星火" "https://spark-api-open.xfyun.cn/v1" "generalv3.5" true false);
   ("perplexity", mkProvider "Perplexity" "https://api.perplexity.ai" "llama-3.1-sonar-small-128k-online" true false);
   ("ollama", mkProvider "Ollama (本地)" "http://localhost:11434" "llama3.2" false true);
   ("custom", mkProvider "自定义 OpenAI 兼容" "" "" true true)].

(** The member names every object literal inherits from
    [Object.prototype]: indexing the table with one of them gives a
    function or an object, which is truthy and has no [needsApiKey],
    [needsBaseUrl], [baseUrl] or [defaultModel]. *)
Definition inherited_keys : list string :=
  ["constructor"; "__defineGetter__"; "__defineSetter__"; "hasOwnProperty";
   "__lookupGetter__"; "__lookupSetter__"; "isPrototypeOf";
   "propertyIsEnumerable"; "toString"; "valueOf"; "__proto__";
   "toLocaleString"].

(** [AI_PROVIDERS[key]] *)
Inductive Lookup :=
| Own (pc : ProviderConfig)
| Inherited
| Missing.

Definition lookup_provider (key : string) : Lookup :=
  match find (fun kv => String.eqb (fst kv) key) AI_PROVIDERS with
  | Some kv => Own (snd kv)
  | None => if existsb (String.eqb key) inherited_keys then Inherited
            else Missing
  end.

(** The fields of the stored configuration that the checks read. *)
Record AIConfig := mkAIConfig {
  cfg_provider : option string;
  cfg_apiKey : option string;
  cfg_baseUrl : option string;
  cfg_model : option string
}.

(** A value inside a template literal: [undefined] prints as such. *)
Definition template (s : option string) : string :=
  match s with
  | Some x => x
  | None => "undefined"
  end.

(** What [validateAIConfig] returns: [{ valid: true }] or
    [{ valid: false, message }]. *)
Inductive Validation :=
| Valid
| Invalid (msg : string).

(** [validateAIConfig(config)] *)
Definition validateAIConfig (c : AIConfig) : Validation :=
  if negb (Js.truthy (cfg_provider c)) then Invalid "请先配置 AI 服务"
  else
    match lookup_provider (template (cfg_provider c)) with
    | Missing => Invalid ("不支持的提供商: " ++ template (cfg_provider c))%string
    | Inherited => Valid
    | Own pc =>
        if needsApiKey pc && negb (Js.truthy (cfg_apiKey c))
        then Invalid "请先配置 API Key"
        else if needsBaseUrl pc && negb (Js.truthy (cfg_baseUrl c))
        then Invalid "请先配置 Base URL"
        else Valid
    end.

(** The four request functions [callAI] chooses between. *)
Inductive Backend := Gemini | Anthropic | Ollama | OpenAICompatible.

(** [callAI] up to the point where the request URL is built: either it
    has thrown, or it is about to call [backend] with this base URL and
    model name. *)
Inductive Preflight :=
| Request (backend : Backend) (baseUrl model : string)
| PreflightError (msg : string).

(** [a || b] where both may be missing; the empty string stands for a falsy
    result. *)
Definition first_truthy (a : option string) (b : string) : string :=
  Js.or_else a b.

Definition table_entry (key : string) : ProviderConfig :=
  match lookup_provider key with
  | Own pc => pc
  | _ => mkProvider "" "" "" false false
  end.

Definition callAI_preflight (c : AIConfig) : Preflight :=
  let provider := template (cfg_provider c) in
  match lookup_provider provider with
  | Missing => PreflightError ("不支持的 AI 提供商: " ++ provider)%string
  | found =>
      if (provider =? "gemini")%string then
        Request Gemini
                (first_truthy (cfg_baseUrl c) (provider_baseUrl (table_entry "gemini")))
                (first_truthy (cfg_model c) (provider_defaultModel (table_entry "gemini")))
      else if (provider =? "anthropic")%string then
        Request Anthropic
                (first_truthy (cfg_baseUrl c) (provider_baseUrl (table_entry "anthropic")))
                (first_truthy (cfg_model c) (provider_defaultModel (table_entry "anthropic")))
      else if (provider =? "ollama")%string then
        Request Ollama
                (first_truthy (cfg_baseUrl c) (provider_baseUrl (table_entry "ollama")))
                (first_truthy (cfg_model c) (provider_defaultModel (table_entry "ollama")))
      else
        (* callOpenAICompatible: an inherited member has neither field *)
        let pc := match found with
                  | Own pc => pc
                  | _ => mkProvider "" "" "" false false
                  end in
        let actualBaseUrl := first_truthy (cfg_baseUrl c) (provider_baseUrl pc) in
        let actualModel := first_truthy (cfg_model c) (provider_defaultModel pc) in
        if (actualBaseUrl =? "")%string then PreflightError "请配置 Base URL"
        else if (actualModel =? "")%string then PreflightError "请配置模型名称"
        else Request OpenAICompatible actualBaseUrl actualModel
  end.

(** A number inside a template literal. *)
Definition decimal (n : Z) : string :=
  NilZero.string_of_int (Z.to_int n).

(** The error the request functions throw on a response that is not [ok]:
    [label] is the backend's wording, [detail] what it appends after the
    colon; the HTTP status is also attached as [error.status]. *)
Definition http_error (label : string) (status : Z) (detail : string)
  : JsError :=
  mkJsError (Some (label ++ " (" ++ decimal status ++ "): " ++ detail)%string)
            (Some status) None.

(** The part of [isRateLimitError] that reads the message. *)
Definition message_signals_rate_limit (msg : string) : bool :=
  Js.includes msg "429"
  || Js.includes msg "rate limit"
  || Js.includes msg "Rate limit"
  || Js.includes msg "too many requests"
  || Js.includes msg "Too Many Requests"
  || Js.includes msg "quota exceeded"
  || Js.includes msg "请求过于频繁".

(* ===================================================================== *)
(** ** The field generator ([generateCardFields])

    The calls to the model, the parsing of its answers and the database
    writes are outside the model; what they amount to for the control flow
    is given by an outcome per attempt. *)
(* ===================================================================== *)

(** One pass of the per-field loop body: the answer was usable (and the
    card was changed or not), or something in the [try] block threw. *)
Inductive FieldOutcome :=
| FieldDone (changed : bool)
| FieldThrew (e : JsError).

(** The attempt with the unified prompt: it returned (with this value of
    [updated]), or it threw after [updated] had reached this value. *)
Inductive UnifiedOutcome :=
| UnifiedDone (updated_ : bool)
| UnifiedThrew (updated_ : bool).

(** The attempts made, in order; each sends at most one request to the
    model. *)
Inductive AICall :=
| UnifiedCall
| FieldCall (type : string).

(** The [filter] that computes [neededTypes]; [dirtyName] and [dirtyDesc]
    are what [checkIsDirtyName] and [checkIsDirtyDesc] say of the card. *)
Definition neededTypes (mode_ : option string) (dirtyName dirtyDesc : bool)
           (types_ : list string) : list string :=
  let isFillMode := negb (match mode_ with
                          | Some x => (x =? "overwrite")%string
                          | None => false
                          end) in
  filter (fun type =>
            if (type =? "name")%string
            then negb (isFillMode && negb dirtyName)
            else if (type =? "description")%string
            then negb (isFillMode && negb dirtyDesc)
            else true) types_.

(** The three types the loop body has a branch for. *)
Definition known_type (type : string) : bool :=
  (type =? "name")%string || (type =? "description")%string
  || (type =? "tags")%string.

(** The [for] loop over [neededTypes]: [Some (updated, fieldErrors, calls)]
    when it runs to its end, or the error it rethrows. *)
Fixpoint field_loop (single : bool) (field : nat -> string -> FieldOutcome)
         (pos : nat) (tys : list string) (updated_ : bool)
         (fieldErrors : list (string * JsError)) (calls : list AICall)
  : (bool * list (string * JsError) * list AICall) + (JsError * list AICall) :=
  match tys with
  | [] => inl (updated_, fieldErrors, calls)
  | type :: rest =>
      if known_type type then
        match field pos type with
        | FieldDone changed =>
            field_loop single field (S pos) rest (updated_ || changed)
                       fieldErrors (calls ++ [FieldCall type])
        | FieldThrew e =>
            if single then inr (e, calls ++ [FieldCall type])
            else field_loop single field (S pos) rest updated_
                            (fieldErrors ++ [(type, e)])
                            (calls ++ [FieldCall type])
        end
      else field_loop single field (S pos) rest updated_ fieldErrors calls
  end.

(** [fieldErrors.map(e => `${e.field}: ${e.error}`).join('; ')] *)
Definition all_failed_message (fieldErrors : list (string * JsError)) : string :=
  Js.join "; " (map (fun fe => (fst fe ++ ": " ++ template (message (snd fe)))%string)
                    fieldErrors).

(** [fieldErrors.map(e => `${e.field}失败`).join(', ')] *)
Definition partial_message (fieldErrors : list (string * JsError)) : string :=
  Js.join ", " (map (fun fe => (fst fe ++ "失败")%string) fieldErrors).

(** [generateCardFields(config, card, types, existingTags, strategy)]:
    what it returns or throws, and the attempts it made. *)
Definition generateCardFields (mode_ : option string)
           (dirtyName dirtyDesc : bool) (types_ : list string)
           (unified : UnifiedOutcome) (field : nat -> string -> FieldOutcome)
  : GenOutcome * list AICall :=
  let needed := neededTypes mode_ dirtyName dirtyDesc types_ in
  match needed with
  | [] => (Returns false None, [])
  | _ =>
      let several := (1 <? List.length needed)%nat in
      let after_unified :=
        if several then
          match unified with
          | UnifiedDone u => inl u
          | UnifiedThrew u => inr (u, [UnifiedCall])
          end
        else inr (false, []) in
      match after_unified with
      | inl u => (Returns u None, [UnifiedCall])
      | inr (u0, calls0) =>
          match field_loop (List.length needed =? 1)%nat field 0 needed u0 []
                           calls0 with
          | inr (e, calls) => (Throws e, calls)
          | inl (u, errs, calls) =>
              match errs with
              | [] => (Returns u None, calls)
              | _ =>
                  if u then (Returns u (Some (partial_message errs)), calls)
                  else (Throws (mkJsError (Some (all_failed_message errs))
                                          None None), calls)
              end
          end
      end
  end.

(* ===================================================================== *)
(** ** Prompt styling ([buildPromptWithStrategy]) *)
(* ===================================================================== *)

(** A chat message. *)
Record Message := mkMessage {
  role : string;
  content : string
}.

Definition newline : string := String "010"%char EmptyString.

(** The object [styleHints]. *)
Definition styleHints : list (string * string) :=
  [("concise", "简洁"); ("professional", "专业"); ("friendly", "友好");
   ("seo", "SEO 优化")].

Section PromptStyle.

(** What JavaScript prints for the member of [Object.prototype] with this
    name inside a template literal. *)
Variable inherited_text : string -> string.

(** [styleHints[style]], when it is truthy. *)
Definition style_hint (style_ : string) : option string :=
  match find (fun kv => String.eqb (fst kv) style_) styleHints with
  | Some kv => Some (snd kv)
  | None => if existsb (String.eqb style_) inherited_keys
            then Some (inherited_text style_)
            else None
  end.

(** [basePrompt[0].content += text] when the first message is a system
    message. *)
Definition append_to_system (text : string) (prompt : list Message)
  : list Message :=
  match prompt with
  | first :: rest =>
      if (role first =? "system")%string
      then mkMessage (role first) (content first ++ text)%string :: rest
      else prompt
  | [] => prompt
  end.

(** [buildPromptWithStrategy(basePrompt, strategy)] *)
Definition buildPromptWithStrategy (basePrompt : list Message) (st : Strategy)
  : list Message :=
  if negb (Js.truthy (style st))
     || (Js.or_else (style st) "" =? "default")%string
  then basePrompt
  else
    let p1 := match style_hint (Js.or_else (style st) "") with
              | Some hint =>
                  append_to_system (newline ++ "风格要求：" ++ hint)%string
                                   basePrompt
              | None => basePrompt
              end in
    if Js.truthy (customPrompt st)
    then append_to_system
           (newline ++ "额外要求：" ++ Js.or_else (customPrompt st) "")%string p1
    else p1.

End PromptStyle.

(** The [requestDelay] that [POST /config] stores, for a number or a
    missing value in the request body:
    [Math.max(500, Math.min(10000, requestDelay || 1500))]. *)
Definition saved_requestDelay (requestDelay : option Z) : Z :=
  Z.max 500 (Z.min 10000 (Js.num_or requestDelay 1500)).

(* ===================================================================== *)
(** ** Generation for newly added cards ([autoGenerateForCards])

    The database reads and the calls of [generateCardFields] are outside
    the model: a card id comes with what [getCardsByIds] finds for it and
    what the two dirty checks say of the card, and [gen i k] is what the
    [k]-th call made for the [i]-th id does. *)
(* ===================================================================== *)

(** What the function does, in order.  A call of [generateCardFields] is
    recorded with the position of the card id, the number of the call for
    that card, and the [types] and [strategy.mode] it is given. *)
Inductive AutoEvent :=
| GenCall (card : nat) (attempt : nat) (types_ : list string) (mode_ : string)
| SleepFor (ms : Q)
| TriggerBackup.

(** [Math.max(500, parseInt(rawConfig.requestDelay) || 1500)] *)
Definition autoDelay (requestDelay : Js.value) : Z :=
  Z.max 500 (Js.num_or (Js.parseInt requestDelay) 1500).

(** The body of the loop for a card that was found: [cardUpdated] and the
    events. *)
Definition auto_card (delay : Z) (i : nat) (needsName needsDesc : bool)
           (gen : nat -> GenOutcome) : bool * list AutoEvent :=
  let half := SleepFor (inject_Z delay / inject_Z 2)%Q in
  if needsName && needsDesc then
    let first := GenCall i 0 ["name"; "description"; "tags"] "fill" in
    match gen 0%nat with
    | Returns updated_ _ => (updated_, [first])
    | Throws _ =>
        let second := GenCall i 1 ["name"; "description"] "fill" in
        match gen 1%nat with
        | Returns updated1 _ =>
            let third := GenCall i 2 ["tags"] "fill" in
            match gen 2%nat with
            | Returns updated2 _ =>
                (updated1 || updated2, [first; second; half; third])
            | Throws _ => (updated1, [first; second; half; third])
            end
        | Throws _ => (false, [first; second])
        end
    end
  else if needsName || needsDesc then
    let fieldType := if needsName then "name" else "description" in
    let first := GenCall i 0 [fieldType] "overwrite" in
    let '(updated1, events1) :=
      match gen 0%nat with
      | Returns updated_ _ => (updated_, [first; half])
      | Throws _ => (false, [first])
      end in
    let updated2 :=
      match gen 1%nat with
      | Returns updated_ _ => updated_
      | Throws _ => false
      end in
    (updated1 || updated2, events1 ++ [GenCall i 1 ["tags"] "fill"])
  else
    match gen 0%nat with
    | Returns updated_ _ => (updated_, [GenCall i 0 ["tags"] "fill"])
    | Throws _ => (false, [GenCall i 0 ["tags"] "fill"])
    end.

(** The [for] loop from position [i] on: [hasUpdates] and the events.  A
    card that is not found is skipped by [continue], the delay between
    cards included. *)
Fixpoint auto_loop (delay : Z) (i : nat) (cards : list (option (bool * bool)))
         (gen : nat -> nat -> GenOutcome) : bool * list AutoEvent :=
  match cards with
  | [] => (false, [])
  | c :: rest =>
      let '(hasUpdates, later) := auto_loop delay (S i) rest gen in
      match c with
      | None => (hasUpdates, later)
      | Some (needsName, needsDesc) =>
          let '(cardUpdated, events) :=
            auto_card delay i needsName needsDesc (gen i) in
          (cardUpdated || hasUpdates,
           events
           ++ match rest with
              | [] => []
              | _ => [SleepFor (inject_Z delay)]
              end
           ++ later)
      end
  end.

(** [autoGenerateForCards(cardIds)]; [autoGenerate] says whether the stored
    flag is the string ['true']. *)
Definition autoGenerateForCards (autoGenerate : bool) (config : AIConfig)
           (requestDelay : Js.value) (cards : list (option (bool * bool)))
           (gen : nat -> nat -> GenOutcome) : list AutoEvent :=
  if negb autoGenerate then []
  else match validateAIConfig config with
       | Invalid _ => []
       | Valid =>
           let '(hasUpdates, events) :=
             auto_loop (autoDelay requestDelay) 0 cards gen in
           events ++ (if hasUpdates then [TriggerBackup] else [])
       end.

(** Whether [getCardsByIds] found the card. *)
Definition found (c : option (bool * bool)) : bool :=
  match c with
  | Some _ => true
  | None => false
  end.

(** The calls of [generateCardFields] among the events. *)
Definition is_gen_call (e : AutoEvent) : bool :=
  match e with
  | GenCall _ _ _ _ => true
  | _ => false
  end.

(* ===================================================================== *)
(** ** The debounced backup ([triggerDebouncedBackup] in utils/autoBackup)

    The module variable [debounceTimer] and the timers the runtime holds
    for it.  [setTimeout] hands out a fresh handle and records when the
    callback is due; [clearTimeout] drops the handle if it is still
    pending and does nothing otherwise. *)
(* ===================================================================== *)

Record BackupState := mkBackupState {
  debounceTimer : option nat;    (* the handle kept in the module variable *)
  timers : list (nat * Z);       (* pending timers: handle, due time in ms *)
  next_handle : nat
}.

Inductive BackupAction :=
| Trigger (now : Z) (enabled : bool) (delay : Z)
| Fire (handle : nat).

Definition clearTimeout (h : nat) (pending : list (nat * Z))
  : list (nat * Z) :=
  filter (fun t => negb (fst t =? h)%nat) pending.

(** The part of [triggerDebouncedBackup] after [await notifyDataChange];
    [enabled] and [delay] are [config.debounce.enabled] and
    [config.debounce.delay] (minutes) as read at that moment. *)
Definition triggerDebouncedBackup (now : Z) (enabled : bool) (delay : Z)
           (s : BackupState) : BackupState :=
  if negb enabled then s
  else
    let pending := match debounceTimer s with
                   | Some h => clearTimeout h (timers s)
                   | None => timers s
                   end in
    let h := next_handle s in
    mkBackupState (Some h) (pending ++ [(h, now + delay * 60 * 1000)]) (S h).

(** One step: a trigger, or the runtime running the callback of a pending
    timer, which starts an incremental backup.  The number returned is the
    number of backups started. *)
Definition backup_step (s : BackupState) (act : BackupAction)
  : BackupState * nat :=
  match act with
  | Trigger now enabled delay =>
      (triggerDebouncedBackup now enabled delay s, 0%nat)
  | Fire h =>
      if existsb (fun t => (fst t =? h)%nat) (timers s)
      then (mkBackupState (debounceTimer s) (clearTimeout h (timers s))
                          (next_handle s), 1%nat)
      else (s, 0%nat)
  end.

Fixpoint backup_run (s : BackupState) (acts_ : list BackupAction)
  : BackupState * nat :=
  match acts_ with
  | [] => (s, 0%nat)
  | act :: rest =>
      let '(s1, n1) := backup_step s act in
      let '(s2, n2) := backup_run s1 rest in
      (s2, (n1 + n2)%nat)
  end.

Definition backup_initial : BackupState := mkBackupState None [] 0.

(** The triggers that found debouncing enabled. *)
Definition enabled_triggers (acts_ : list BackupAction) : nat :=
  List.length (filter (fun act => match act with
                                  | Trigger _ enabled _ => enabled
                                  | Fire _ => false
                                  end) acts_).

(** At most one timer is pending, and it is the one [debounceTimer]
    names. *)
Definition single_pending (s : BackupState) : Prop :=
  timers s = []
  \/ exists h due, timers s = [(h, due)] /\ debounceTimer s = Some h.

(* ===================================================================== *)
(** ** Cleaning old backups ([cleanOldBackups] in utils/autoBackup)

    The backup directory is the list of its entries, each with its name
    and modification time; names are unique in a directory.  Failures of
    the file system calls are outside the model. *)
(* ===================================================================== *)

Definition BackupFile : Type := string * Z.

(** [String.prototype.startsWith] and [endsWith]. *)
Definition startsWith (s p : string) : bool := String.prefix p s.

Definition endsWith (s suffix : string) : bool :=
  let n := String.length s in
  let k := String.length suffix in
  (k <=? n)%nat && (substring (n - k) k s =? suffix)%string.

(** [file.startsWith(prefix) && file.endsWith('.zip')] *)
Definition is_backup_of (prefix : string) (f : BackupFile) : bool :=
  startsWith (fst f) prefix && endsWith (fst f) ".zip".

(** [.sort((a, b) => b.time - a.time)]: newest first, entries of equal
    time in their original order (the sort is stable). *)
Fixpoint insert_newest_first (x : BackupFile) (l : list BackupFile)
  : list BackupFile :=
  match l with
  | [] => [x]
  | y :: ys => if snd y <=? snd x then x :: l
               else y :: insert_newest_first x ys
  end.

Definition sort_newest_first (l : list BackupFile) : list BackupFile :=
  fold_right insert_newest_first [] l.

(** The files the loop unlinks.  With a negative [keepCount] the first
    [files[i]] is [undefined] and the loop throws before unlinking
    anything. *)
Definition doomed (prefix : string) (keepCount : Z) (dir : list BackupFile)
  : list BackupFile :=
  if keepCount <? 0 then []
  else skipn (Z.to_nat keepCount)
             (sort_newest_first (filter (is_backup_of prefix) dir)).

(** The file was not unlinked: no unlinked path is its path. *)
Definition spared (gone : list BackupFile) (f : BackupFile) : bool :=
  negb (existsb (fun d : BackupFile => (fst d =? fst f)%string) gone).

(** [cleanOldBackups(prefix, keepCount)]: the directory afterwards. *)
Definition cleanOldBackups (prefix : string) (keepCount : Z)
           (dir : list BackupFile) : list BackupFile :=
  filter (spared (doomed prefix keepCount dir)) dir.

(* ===================================================================== *)
(** ** The request URL of the OpenAI-compatible backend
       ([callOpenAICompatible] in utils/aiProvider)

    For a base URL of ASCII characters: [trim] and [toLowerCase] are
    modelled on those. *)
(* ===================================================================== *)

(** Removes the longest suffix made of characters that satisfy [p]. *)
Fixpoint drop_trailing (p : ascii -> bool) (s : string) : string :=
  match s with
  | EmptyString => EmptyString
  | String c s' =>
      let r := drop_trailing p s' in
      if p c && (r =? "")%string then EmptyString else String c r
  end.

(** [String.prototype.trim] *)
Definition trim (s : string) : string :=
  drop_trailing Js.is_space (Js.skip_spaces s).

(** [url.replace(/\/+$/, '')] *)
Definition strip_slashes (s : string) : string :=
  drop_trailing (fun c => (c =? "/")%char) s.

Definition lower_char (c : ascii) : ascii :=
  let n := nat_of_ascii c in
  if ((65 <=? n) && (n <=? 90))%nat then ascii_of_nat (n + 32) else c.

(** [String.prototype.toLowerCase] *)
Fixpoint toLowerCase (s : string) : string :=
  match s with
  | EmptyString => EmptyString
  | String c s' => String (lower_char c) (toLowerCase s')
  end.

Definition pathKeywords : list string :=
  ["/v1"; "/chat"; "/completions"; "/generate"; "/api"].

(** [pathKeywords.some(keyword => url.toLowerCase().includes(keyword))] *)
Definition hasPath (url : string) : bool :=
  existsb (fun keyword => Js.includes (toLowerCase url) keyword) pathKeywords.

(** The [https://] put in front of a URL that does not start with
    [http]. *)
Definition with_scheme (url : string) : string :=
  if startsWith url "http" then url else ("https://" ++ url)%string.

(** The URL the request is sent to, from [actualBaseUrl]. *)
Definition request_url (actualBaseUrl : string) : string :=
  let url := with_scheme (trim actualBaseUrl) in
  if negb (hasPath url)
  then (strip_slashes url ++ "/v1/chat/completions")%string
  else if endsWith url "/v1" || endsWith url "/v1/"
       then (strip_slashes url ++ "/chat/completions")%string
       else url.

(* ===================================================================== *)
(** ** Sanity checks of the embedding *)
(* ===================================================================== *)

Example request_url_bare_host :
  request_url " llm.example.com/ " = "https://llm.example.com/v1/chat/completions".
Proof. reflexivity. Qed.

Example request_url_api_host :
  request_url "https://api.example.com" = "https://api.example.com".
Proof. reflexivity. Qed.

Example request_url_versioned :
  request_url "http://localhost:8080/v1/" = "http://localhost:8080/v1/chat/completions".
Proof. reflexivity. Qed.

Example request_url_full :
  request_url "https://example.com/API/generate" = "https://example.com/API/generate".
Proof. reflexivity. Qed.

Example cleanOldBackups_sample :
  cleanOldBackups "incremental" 1
    [("incremental-a.zip", 10); ("incremental-b.zip", 30); ("incremental-b.txt", 1)]
  = [("incremental-b.zip", 30); ("incremental-b.txt", 1)].
Proof. reflexivity. Qed.

Example parseInt_plain : Js.parseInt (Js.VString "1500") = Some 1500.
Proof. reflexivity. Qed.

Example parseInt_suffix : Js.parseInt (Js.VString "  -42ms") = Some (-42).
Proof. reflexivity. Qed.

Example parseInt_hex : Js.parseInt (Js.VString "0x1F") = Some 31.
Proof. reflexivity. Qed.

Example parseInt_nan : Js.parseInt (Js.VString "fast") = None.
Proof. reflexivity. Qed.

Example slice_last_two : Js.slice_from [1; 2; 3; 4; 5] (-2) = [4; 5].
Proof. reflexivity. Qed.

Example slice_window : Js.slice [1; 2; 3; 4; 5] 3 6 = [4; 5].
Proof. reflexivity. Qed.

Example includes_429 : Js.includes "HTTP 429 Too Many" "429" = true.
Proof. reflexivity. Qed.

Example replace_www : Js.replace "www.a.www.b" "www." "" = "a.www.b".
Proof. reflexivity. Qed.

Example retry_twice_then_ok :
  processCardWithRetry throttled_twice 0 = (ok_result, [2000; 4000]).
Proof. reflexivity. Qed.

Example retry_exhausted :
  processCardWithRetry (fun _ => Throws rate_limit_error) 0
  = (mkItemResult false None true None
                  (Some "Request failed with status code 429"),
     [2000; 4000]).
Proof. reflexivity. Qed.

Example delay_after_first_throttle :
  (calculateDelay 1500 true (mgr throttled_system) == 3000)%Q.
Proof. reflexivity. Qed.

Example delay_serial :
  (calculateDelay 1500 false (mgr throttled_system) == 1500)%Q.
Proof. reflexivity. Qed.

Example delay_parallel_half :
  (calculateDelay 501 false (mgr in_flight_system) == 501 # 2)%Q.
Proof. reflexivity. Qed.

Example delay_capped :
  (calculateDelay 10000 true (mgr throttled_system) == 20000)%Q
  /\ (calculateDelay 10000 true
        (adjustConcurrency 0 1 true (mgr throttled_system)) == 30000)%Q.
Proof. split; reflexivity. Qed.

Example rate_limit_phrases :
  isRateLimitError (mkJsError (Some "Too Many Requests") None None) = true
  /\ isRateLimitError (mkJsError (Some "请求过于频繁，请稍后") None None) = true
  /\ isRateLimitError (mkJsError (Some "ECONNRESET") (Some 500) None) = false
  /\ isRateLimitError (mkJsError None None (Some 429)) = true.
Proof. repeat split. Qed.

(* ===================================================================== *)
(** ** The adaptive state is touched by the policy only *)
(* ===================================================================== *)

(** Case analysis on every [if] of the goal. *)
Ltac case_ifs :=
  repeat match goal with
         | |- context [if ?b then _ else _] => destruct b
         end.

Lemma with_task_view f m :
  (forall t, adaptive (f t) = adaptive t) ->
  policy_view (with_task f m) = policy_view m.
Proof.
  intros Hf. unfold with_task, policy_view.
  destruct (task m) as [t|] eqn:Ht; simpl; [rewrite Hf|rewrite Ht]; reflexivity.
Qed.

Lemma apply_result_view acc rc :
  policy_view (fst (fst (apply_result acc rc))) = policy_view (fst (fst acc)).
Proof.
  destruct acc as [[m tl] evs], rc as [[r now] card]. unfold apply_result.
  destruct r as [v|reason]; [destruct (success v); [|destruct (rateLimited v)]|];
    simpl; rewrite with_task_view;
    try (rewrite with_task_view; [reflexivity|intros; reflexivity]);
    intros t; case_ifs; reflexivity.
Qed.

Lemma fold_apply_result_view l acc :
  policy_view (fst (fst (fold_left apply_result l acc)))
  = policy_view (fst (fst acc)).
Proof.
  revert acc. induction l as [|rc l IH]; intros acc; simpl; [reflexivity|].
  rewrite IH. apply apply_result_view.
Qed.

Lemma apply_results_view m results batch :
  policy_view (fst (fst (apply_results m results batch))) = policy_view m.
Proof. unfold apply_results. apply fold_apply_result_view. Qed.

Lemma stop_view m : policy_view (fst (stop m)) = policy_view m.
Proof.
  unfold stop. destruct (abortController m); simpl;
    destruct (task m) eqn:Ht; simpl; unfold policy_view; simpl;
    rewrite ?Ht; reflexivity.
Qed.

Lemma on_runTask_rejected_view msg now m :
  policy_view (fst (on_runTask_rejected msg now m)) = policy_view m.
Proof.
  unfold on_runTask_rejected, policy_view.
  destruct (task m) as [t|] eqn:Ht; cbn; rewrite ?Ht; reflexivity.
Qed.

Lemma catch_block_view msg now m :
  policy_view (catch_block msg now m) = policy_view m.
Proof. apply with_task_view. reflexivity. Qed.

Lemma adjustConcurrency_view sc fc rl m m' :
  policy_view m = policy_view m' ->
  policy_view (adjustConcurrency sc fc rl m)
  = policy_view (adjustConcurrency sc fc rl m').
Proof.
  unfold adjustConcurrency. intros H. pose proof H as H0.
  unfold policy_view in H.
  destruct (task m) as [t|] eqn:Ht, (task m') as [t'|] eqn:Ht';
    simpl in H; try discriminate; [|exact H0].
  injection H as Hmin Hmax Hini Hc Hr Hs Hn.
  rewrite Hmin, Hmax, Hc, Hs, Hn, Hr.
  case_ifs;
    unfold policy_view; simpl; unfold adaptive; simpl; congruence.
Qed.

Lemma bounded_view m m' :
  policy_view m = policy_view m' -> bounded m -> bounded m'.
Proof.
  unfold policy_view, bounded. intros H (Hmin & Hmax & Hini & Hc).
  destruct (task m) as [t|] eqn:Ht, (task m') as [t'|] eqn:Ht';
    simpl in H; try discriminate.
  - injection H as H1 H2 H3 H4 _ _ _.
    rewrite <- H1, <- H2, <- H3, <- H4. auto.
  - injection H as H1 H2 H3. rewrite <- H1, <- H2, <- H3. auto.
Qed.

Lemma adjustConcurrency_bounded sc fc rl m :
  bounded m -> bounded (adjustConcurrency sc fc rl m).
Proof.
  unfold bounded, adjustConcurrency. intros (Hmin & Hmax & Hini & Hc).
  destruct (task m) as [t|] eqn:Ht; [|rewrite Ht; auto].
  rewrite Hmin, Hmax.
  destruct rl; [|destruct (_ && (fc =? 0)); [destruct (_ && _) eqn:Hup|]];
    simpl; repeat split; auto; try lia.
  - assert (0 <= concurrency t / 2) by (apply Z.div_pos; lia).
    assert (concurrency t / 2 <= concurrency t) by (apply Z.div_le_upper_bound; lia).
    lia.
Qed.

Lemma start_bounded now cards ty st m :
  bounded m -> bounded (snd (fst (start now cards ty st m))).
Proof.
  unfold start. intros Hb. destruct (isRunning m); simpl; [exact Hb|].
  destruct Hb as (Hmin & Hmax & Hini & _). unfold bounded; simpl.
  rewrite Hini. repeat split; auto; lia.
Qed.

(** *** What a pass over the results leaves in the tally *)

Lemma count_success_cons r l :
  count_success (r :: l) = (if is_success r then 1 else 0) + count_success l.
Proof.
  unfold count_success. simpl. destruct (is_success r); simpl List.length; lia.
Qed.

Lemma fold_apply_result_tally l m tl evs :
  let tl' := snd (fst (fold_left apply_result l (m, tl, evs))) in
  hasRateLimit tl' = hasRateLimit tl || window_rate_limited (map fst l)
  /\ batchSuccess tl' = batchSuccess tl + count_success (map fst l)
  /\ batchFail tl'
     = batchFail tl + (Z.of_nat (List.length l) - count_success (map fst l)).
Proof.
  revert m tl evs. induction l as [|[[r now] card] l IH]; intros m tl evs.
  - simpl. rewrite orb_false_r. unfold count_success. simpl.
    split; [reflexivity|lia].
  - cbn [fold_left map fst].
    destruct (apply_result (m, tl, evs) (r, now, card)) as [[m1 tl1] evs1] eqn:E.
    specialize (IH m1 tl1 evs1). cbv zeta in IH |- *.
    destruct IH as (Hrl & Hs & Hf). rewrite Hrl, Hs, Hf, count_success_cons.
    unfold window_rate_limited. cbn [existsb].
    unfold is_success. cbn [fst]. cbn [List.length]. rewrite Nat2Z.inj_succ.
    unfold apply_result in E.
    destruct r as [v|reason]; [destruct (success v); [|destruct (rateLimited v)]|];
      injection E as _ <- _; cbn [hasRateLimit batchSuccess batchFail negb andb orb];
      rewrite ?orb_true_r, ?orb_false_r;
      (split; [reflexivity|lia]).
Qed.

Lemma map_fst_combine {A B} (l : list A) (l' : list B) :
  List.length l = List.length l' -> map fst (combine l l') = l.
Proof.
  revert l'. induction l as [|x l IH]; intros [|y l'] H; simpl in *;
    try discriminate; [reflexivity|]. f_equal. apply IH. congruence.
Qed.

Lemma length_combine_same {A B} (l : list A) (l' : list B) :
  List.length l = List.length l' -> List.length (combine l l') = List.length l.
Proof. intros H. rewrite length_combine, <- H. apply Nat.min_id. Qed.

(** The three locals after the loop, for a window whose results match its
    batch. *)
Lemma apply_results_tally m results batch :
  List.length results = List.length batch ->
  let tl := snd (fst (apply_results m results batch)) in
  hasRateLimit tl = window_rate_limited results
  /\ batchSuccess tl = count_success results
  /\ batchFail tl = Z.of_nat (List.length results) - count_success results.
Proof.
  intros Hlen. unfold apply_results.
  pose proof (fold_apply_result_tally (combine results batch) m
                                      (mkTally 0 0 false) []) as H.
  cbv zeta in H |- *. rewrite map_fst_combine in H by exact Hlen.
  rewrite length_combine_same in H by exact Hlen. simpl in H. exact H.
Qed.

Lemma count_success_bounds results :
  0 <= count_success results <= Z.of_nat (List.length results).
Proof.
  unfold count_success. pose proof (filter_length_le is_success results). lia.
Qed.

Lemma count_success_all results :
  window_all_succeeded results = true ->
  count_success results = Z.of_nat (List.length results).
Proof.
  unfold window_all_succeeded.
  induction results as [|r l IH]; [reflexivity|].
  cbn [forallb]. intros H. apply andb_prop in H as [Hr Hl].
  rewrite count_success_cons, Hr, (IH Hl). cbn [List.length]. lia.
Qed.

Lemma count_success_not_all results :
  window_all_succeeded results = false ->
  count_success results < Z.of_nat (List.length results).
Proof.
  unfold window_all_succeeded.
  induction results as [|r l IH]; [discriminate|].
  cbn [forallb]. intros H. rewrite count_success_cons.
  pose proof (count_success_bounds l). cbn [List.length].
  destruct (is_success r); simpl in H; [specialize (IH H)|]; lia.
Qed.

Lemma all_succeeded_not_rate_limited results :
  window_all_succeeded results = true -> window_rate_limited results = false.
Proof.
  unfold window_all_succeeded, window_rate_limited.
  induction results as [|r l IH]; simpl; [reflexivity|].
  intros H. apply andb_prop in H as [Hr Hl]. rewrite (IH Hl), orb_false_r.
  unfold is_success in Hr.
  destruct (fst r) as [v|]; [rewrite Hr; reflexivity|discriminate].
Qed.

(** *** What a pass over the results leaves in the task *)

Lemma apply_result_task acc rc t :
  task (fst (fst acc)) = Some t ->
  exists t',
    task (fst (fst (apply_result acc rc))) = Some t'
    /\ abortController (fst (fst (apply_result acc rc)))
       = abortController (fst (fst acc))
    /\ running t' = running t /\ total t' = total t
    /\ currentCard t' = currentCard t
    /\ current t' = current t + 1
    /\ successCount t' = successCount t + (if is_success (fst rc) then 1 else 0)
    /\ failCount t' = failCount t + (if is_success (fst rc) then 0 else 1).
Proof.
  destruct acc as [[m tl] evs], rc as [[r now] card]. cbn [fst]. intros Ht.
  unfold apply_result, is_success. cbn [fst].
  destruct r as [v|reason]; [destruct (success v); [|destruct (rateLimited v)]|];
    cbn [fst snd]; unfold with_task; rewrite Ht; cbn [task set_task];
    eexists; (split; [reflexivity|]);
    case_ifs;
    cbn; repeat split; lia.
Qed.

Lemma fold_apply_result_task l acc t :
  task (fst (fst acc)) = Some t ->
  exists t',
    task (fst (fst (fold_left apply_result l acc))) = Some t'
    /\ abortController (fst (fst (fold_left apply_result l acc)))
       = abortController (fst (fst acc))
    /\ running t' = running t /\ total t' = total t
    /\ currentCard t' = currentCard t
    /\ current t' = current t + Z.of_nat (List.length l)
    /\ successCount t' = successCount t + count_success (map fst l)
    /\ failCount t'
       = failCount t + (Z.of_nat (List.length l) - count_success (map fst l)).
Proof.
  revert acc t. induction l as [|rc l IH]; intros acc t Ht.
  - exists t. unfold count_success. simpl. repeat split; auto; lia.
  - cbn [fold_left].
    destruct (apply_result_task acc rc t Ht)
      as (t1 & Ht1 & Hab & Hr & Htot & Hcc & Hcur & Hs & Hf).
    destruct (IH _ t1 Ht1)
      as (t2 & Ht2 & Hab2 & Hr2 & Htot2 & Hcc2 & Hcur2 & Hs2 & Hf2).
    exists t2. cbn [map]. rewrite count_success_cons. cbn [List.length].
    rewrite Nat2Z.inj_succ.
    repeat split; try congruence; destruct (is_success (fst rc)); lia.
Qed.

Lemma apply_results_task m results batch t :
  List.length results = List.length batch ->
  task m = Some t ->
  exists t',
    task (fst (fst (apply_results m results batch))) = Some t'
    /\ abortController (fst (fst (apply_results m results batch)))
       = abortController m
    /\ running t' = running t /\ total t' = total t
    /\ currentCard t' = currentCard t
    /\ current t' = current t + Z.of_nat (List.length batch)
    /\ successCount t' = successCount t + count_success results
    /\ failCount t'
       = failCount t + (Z.of_nat (List.length batch) - count_success results).
Proof.
  intros Hlen Ht. unfold apply_results.
  destruct (fold_apply_result_task (combine results batch)
                                   (m, mkTally 0 0 false, []) t Ht)
    as (t' & H). exists t'.
  rewrite map_fst_combine, length_combine_same in H by exact Hlen.
  rewrite <- Hlen. exact H.
Qed.

(** The policy leaves the bookkeeping alone. *)
Lemma adjustConcurrency_task sc fc rl m t :
  task m = Some t ->
  exists t',
    task (adjustConcurrency sc fc rl m) = Some t'
    /\ abortController (adjustConcurrency sc fc rl m) = abortController m
    /\ same_bookkeeping t t'.
Proof.
  intros Ht. unfold adjustConcurrency. rewrite Ht.
  case_ifs;
    eexists; (split; [reflexivity|]); (split; [reflexivity|]);
    unfold same_bookkeeping; cbn; repeat split.
Qed.

(* ===================================================================== *)
(** ** Facts about the scheduler steps *)
(* ===================================================================== *)

Section SchedulerFacts.

Variable hostname : string -> option string.

Lemma enter_finally_mgr m a : fst (fst (enter_finally m a)) = m.
Proof. unfold enter_finally. destruct (task m); reflexivity. Qed.

Lemma finalize_view m a :
  policy_view (fst (fst (finalize m a))) = policy_view m.
Proof. unfold finalize. cbn [fst]. apply with_task_view. reflexivity. Qed.

Lemma loop_head_view m a :
  policy_view (fst (fst (loop_head hostname m a))) = policy_view m.
Proof.
  unfold loop_head.
  destruct (_ <? _); [destruct (should_break m)|];
    rewrite ?enter_finally_mgr; try reflexivity.
  destruct (task m) as [t|] eqn:Ht; rewrite ?enter_finally_mgr; [|reflexivity].
  cbn [fst]. unfold policy_view. cbn. rewrite Ht. reflexivity.
Qed.

(** After a settlement the policy state is what [adjustConcurrency] made of
    it: nothing later in the step touches it. *)
Lemma settle_window_view m a batch results :
  let tl := snd (fst (apply_results m results batch)) in
  policy_view (fst (fst (settle_window hostname m a batch results)))
  = policy_view (adjustConcurrency (batchSuccess tl) (batchFail tl)
                                   (hasRateLimit tl) m).
Proof.
  cbv zeta. unfold settle_window.
  pose proof (apply_results_view m results batch) as Hv.
  destruct (apply_results m results batch) as [[m1 tl] evs]. cbn [fst snd] in *.
  match goal with |- context [if ?b then _ else _] => destruct b end.
  - cbn [fst]. apply adjustConcurrency_view, Hv.
  - match goal with |- context [loop_head ?h ?x ?y] =>
      pose proof (loop_head_view x y) as Hl;
      destruct (loop_head h x y) as [[m3 a3] evs3] end.
    cbn [fst] in *. rewrite Hl. apply adjustConcurrency_view, Hv.
Qed.

Lemma act_step_bounded inp m a m' a' evs :
  act_step hostname inp m a = Some (m', a', evs) -> bounded m -> bounded m'.
Proof.
  unfold act_step. intros H Hb.
  destruct (act_phase a) as [|batch|d| |], inp as [rd|msg now|results|];
    try discriminate;
    try (destruct (_ =? _)%nat; [|discriminate]);
    apply (f_equal (option_map (fun x => fst (fst x)))) in H;
    cbn [option_map fst] in H; injection H as <-.
  - eapply bounded_view; [symmetry; apply loop_head_view|exact Hb].
  - rewrite enter_finally_mgr.
    eapply bounded_view; [symmetry; apply catch_block_view|exact Hb].
  - eapply bounded_view; [symmetry; apply settle_window_view|].
    apply adjustConcurrency_bounded, Hb.
  - eapply bounded_view; [symmetry; apply loop_head_view|exact Hb].
  - eapply bounded_view; [symmetry; apply (finalize_view m a)|exact Hb].
Qed.

Lemma sys_step_bounded s act :
  bounded (mgr s) -> bounded (mgr (fst (sys_step hostname s act))).
Proof.
  intros Hb. destruct act as [now cards ty st| |i inp|msg now]; cbn [sys_step].
  - pose proof (start_bounded now cards ty st (mgr s) Hb) as H.
    destruct (start now cards ty st (mgr s)) as [[[msg|n] m'] evs]; exact H.
  - pose proof (stop_view (mgr s)) as H.
    destruct (stop (mgr s)) as [m' evs]. cbn [fst mgr] in *.
    eapply bounded_view; [symmetry; exact H|exact Hb].
  - destruct (nth_error (acts s) i) as [a|]; [|exact Hb].
    destruct (act_step hostname inp (mgr s) a) as [[[m' a'] evs]|] eqn:E;
      [|exact Hb].
    cbn [fst mgr]. eapply act_step_bounded; eauto.
  - pose proof (on_runTask_rejected_view msg now (mgr s)) as H.
    destruct (on_runTask_rejected msg now (mgr s)) as [m' evs].
    cbn [fst mgr] in *.
    eapply bounded_view; [symmetry; exact H|exact Hb].
Qed.

Lemma sys_run_bounded l s :
  bounded (mgr s) -> bounded (mgr (fst (sys_run hostname s l))).
Proof.
  revert s. induction l as [|act l IH]; intros s Hb; [exact Hb|].
  cbn [sys_run]. pose proof (sys_step_bounded s act Hb) as H1.
  destruct (sys_step hostname s act) as [s1 evs1]. cbn [fst] in H1.
  specialize (IH s1 H1). destruct (sys_run hostname s1 l) as [s2 evs2].
  exact IH.
Qed.

Lemma reachable_bounded s : reachable hostname s -> bounded (mgr s).
Proof.
  intros [l <-]. apply sys_run_bounded. unfold bounded. cbn.
  repeat split; reflexivity.
Qed.

End SchedulerFacts.

(* ===================================================================== *)
(** ** Concurrency bounds *)
(* ===================================================================== *)

Lemma start_fresh_task now cards ty st m n m' evs :
  start now cards ty st m = (Started n, m', evs) ->
  exists t, task m' = Some t
            /\ concurrency t = initialConcurrency m
            /\ isRateLimited t = false
            /\ consecutiveSuccesses t = 0 /\ rateLimitCount t = 0
            /\ errors t = [] /\ running t = true.
Proof.
  unfold start. destruct (isRunning m); [discriminate|].
  intros H. injection H as _ <- _. eexists. split; [reflexivity|].
  cbn. repeat split.
Qed.

(** C1. In every state the system can reach, the manager's bounds are
    min = 1 and max = 5 and the task's concurrency lies between them; a
    task that [start] creates begins at 3; and whatever the arguments of
    [adjustConcurrency], the concurrency it leaves (after a halving, after
    an increment, or untouched) is again within the bounds. *)
Theorem concurrency_within_bounds (hostname : string -> option string)
        (s : System) :
  reachable hostname s ->
  minConcurrency (mgr s) = 1 /\ maxConcurrency (mgr s) = 5
  /\ (forall t, task (mgr s) = Some t -> 1 <= concurrency t <= 5)
  /\ (forall now cards ty st n m' evs,
         start now cards ty st (mgr s) = (Started n, m', evs) ->
         exists t, task m' = Some t /\ concurrency t = 3)
  /\ (forall sc fc rl t',
         task (adjustConcurrency sc fc rl (mgr s)) = Some t' ->
         1 <= concurrency t' <= 5).
Proof.
  intros Hr. pose proof (reachable_bounded hostname s Hr) as Hb.
  destruct Hb as (Hmin & Hmax & Hini & Hc).
  split; [exact Hmin|]. split; [exact Hmax|]. split; [|split].
  - intros t Ht. rewrite Ht in Hc. exact Hc.
  - intros now cards ty st n m' evs Hs.
    destruct (start_fresh_task _ _ _ _ _ _ _ _ Hs) as (t & Ht & Hct & _).
    exists t. split; [exact Ht|]. congruence.
  - intros sc fc rl t' Ht'.
    assert (Hb : bounded (mgr s)) by (unfold bounded; repeat split; assumption).
    apply (adjustConcurrency_bounded sc fc rl) in Hb.
    destruct Hb as (_ & _ & _ & Hc'). rewrite Ht' in Hc'. exact Hc'.
Qed.

Lemma concurrency_within_bounds_witness :
  reachable no_hostname throttled_system
  /\ minConcurrency (mgr throttled_system) = 1
  /\ maxConcurrency (mgr throttled_system) = 5
  /\ exists t, task (mgr throttled_system) = Some t
               /\ concurrency t = 1 /\ 1 <= concurrency t <= 5.
Proof.
  assert (Hr : reachable no_hostname throttled_system)
    by (exists throttled_actions; unfold throttled_system; reflexivity).
  destruct (concurrency_within_bounds no_hostname throttled_system Hr)
    as (Hmin & Hmax & Hc & _).
  split; [exact Hr|]. split; [exact Hmin|]. split; [exact Hmax|].
  assert (Ht : exists t, task (mgr throttled_system) = Some t
                         /\ concurrency t = 1)
    by (eexists; vm_compute; split; reflexivity).
  destruct Ht as (t & Ht & Hone).
  exists t. split; [exact Ht|]. split; [exact Hone|]. exact (Hc t Ht).
Defined.

(* ===================================================================== *)
(** ** The three rules of the policy *)
(* ===================================================================== *)

(** C2. When a window is classified as rate-limited (one of its members
    settled as a failure flagged [rateLimited]), the settlement leaves the
    task with concurrency [max(min, floor(previous / 2))], a clean streak of
    0, [rateLimitCount] one higher and [isRateLimited] set; the same holds
    for [adjustConcurrency] called with [hasRateLimit] on any counts. *)
Theorem rate_limited_window_halves (hostname : string -> option string)
        (m : BatchTaskManager) (a : Activation) (batch : list Card)
        (results : list (Settled * Z)) (t : Task) :
  task m = Some t ->
  List.length results = List.length batch ->
  window_rate_limited results = true ->
  option_map adaptive
             (task (fst (fst (settle_window hostname m a batch results))))
  = Some (Z.max (minConcurrency m) (concurrency t / 2), true, 0,
          rateLimitCount t + 1)
  /\ forall sc fc,
      option_map adaptive (task (adjustConcurrency sc fc true m))
      = Some (Z.max (minConcurrency m) (concurrency t / 2), true, 0,
              rateLimitCount t + 1).
Proof.
  intros Ht Hlen Hrl.
  assert (Hadj : forall sc fc,
             option_map adaptive (task (adjustConcurrency sc fc true m))
             = Some (Z.max (minConcurrency m) (concurrency t / 2), true, 0,
                     rateLimitCount t + 1)).
  { intros sc fc. unfold adjustConcurrency. rewrite Ht. reflexivity. }
  split; [|exact Hadj].
  pose proof (settle_window_view hostname m a batch results) as Hv.
  pose proof (apply_results_tally m results batch Hlen) as (Htl & _).
  cbv zeta in Hv, Htl. rewrite Htl, Hrl in Hv.
  apply (f_equal snd) in Hv. cbn [policy_view snd] in Hv.
  rewrite Hv. apply Hadj.
Qed.

Lemma rate_limited_window_halves_witness :
  option_map adaptive
    (task (fst (fst (settle_window no_hostname
                       (mgr stopping_system)
                       (mkActivation ten_cards 0 1500
                                     (AwaitWindow (firstn 3 ten_cards)))
                       (firstn 3 ten_cards)
                       [throttled_failure; plain_failure;
                        all_succeed (sample_card 3)]))))
  = Some (1, true, 0, 1).
Proof.
  assert (Ht : exists t, task (mgr stopping_system) = Some t
                         /\ concurrency t = 3 /\ rateLimitCount t = 0
                         /\ minConcurrency (mgr stopping_system) = 1)
    by (eexists; vm_compute; repeat split).
  destruct Ht as (t & Ht & Hc & Hn & Hmin).
  rewrite (proj1 (rate_limited_window_halves
                    no_hostname (mgr stopping_system)
                    (mkActivation ten_cards 0 1500
                                  (AwaitWindow (firstn 3 ten_cards)))
                    (firstn 3 ten_cards)
                    [throttled_failure; plain_failure;
                     all_succeed (sample_card 3)]
                    t Ht eq_refl eq_refl)).
  rewrite Hc, Hn, Hmin. reflexivity.
Defined.

Lemma adjust_all_flag ws m t :
  task m = Some t ->
  option_map isRateLimited (task (adjust_all ws m))
  = Some (last_signal (isRateLimited t) ws).
Proof.
  revert m t. induction ws as [|[[sc fc] rl] ws IH]; intros m t Ht.
  - cbn. rewrite Ht. reflexivity.
  - unfold adjust_all. cbn [fold_left fst snd last_signal classify].
    fold (adjust_all ws (adjustConcurrency sc fc rl m)).
    unfold adjustConcurrency. rewrite Ht.
    destruct rl; [|destruct ((0 <? sc) && (fc =? 0));
                    [destruct ((3 <=? _) && _)|]];
      erewrite IH by reflexivity; reflexivity.
Qed.

Lemma mixed_counts results :
  window_all_succeeded results = false ->
  (0 <? count_success results)
  && (Z.of_nat (List.length results) - count_success results =? 0) = false.
Proof.
  intros H. apply count_success_not_all in H.
  apply andb_false_iff. right. apply Z.eqb_neq. lia.
Qed.

(** C3 (amended). When a window is mixed (no rate-limit signal and at least
    one member that did not succeed), the settlement resets the clean streak
    to 0 and leaves the concurrency, [rateLimitCount] and [isRateLimited] as
    they were.  Consequently, over any sequence of adjustments,
    [isRateLimited] tells whether the latest window that was not mixed was
    rate-limited: the flag stays set from a throttled window until the
    next fully clean one. *)
Theorem mixed_window_keeps_flag (hostname : string -> option string)
        (m : BatchTaskManager) (a : Activation) (batch : list Card)
        (results : list (Settled * Z)) (t : Task) :
  task m = Some t ->
  List.length results = List.length batch ->
  window_rate_limited results = false ->
  window_all_succeeded results = false ->
  option_map adaptive
             (task (fst (fst (settle_window hostname m a batch results))))
  = Some (concurrency t, isRateLimited t, 0, rateLimitCount t)
  /\ forall ws,
      option_map isRateLimited (task (adjust_all ws m))
      = Some (last_signal (isRateLimited t) ws).
Proof.
  intros Ht Hlen Hrl Hall.
  split; [|intros ws; apply adjust_all_flag, Ht].
  pose proof (settle_window_view hostname m a batch results) as Hv.
  pose proof (apply_results_tally m results batch Hlen) as (Htl & Hs & Hf).
  cbv zeta in Hv, Htl, Hs, Hf. rewrite Htl, Hs, Hf, Hrl in Hv.
  apply (f_equal snd) in Hv. cbn [policy_view snd] in Hv. rewrite Hv.
  unfold adjustConcurrency. rewrite Ht, (mixed_counts results Hall).
  reflexivity.
Qed.

Lemma mixed_window_keeps_flag_witness :
  option_map adaptive
    (task (fst (fst (settle_window no_hostname
                       (mgr throttled_system)
                       (mkActivation ten_cards 3 1500
                                     (AwaitWindow [sample_card 4]))
                       [sample_card 4] [plain_failure]))))
  = Some (1, true, 0, 1).
Proof.
  assert (Ht : exists t, task (mgr throttled_system) = Some t
                         /\ adaptive t = (1, true, 0, 1))
    by (eexists; vm_compute; split; reflexivity).
  destruct Ht as (t & Ht & Ha).
  rewrite (proj1 (mixed_window_keeps_flag
                    no_hostname (mgr throttled_system)
                    (mkActivation ten_cards 3 1500
                                  (AwaitWindow [sample_card 4]))
                    [sample_card 4] [plain_failure]
                    t Ht eq_refl eq_refl eq_refl)).
  unfold adaptive in Ha. injection Ha as -> -> _ ->. reflexivity.
Defined.

(** C3 as stated fails: after a throttled first window, a second window
    with one plain failure and no rate-limit signal is applied (four items
    are accounted for) and [isRateLimited] is not reset. *)
Lemma mixed_window_flag_counterexample :
  window_rate_limited [plain_failure] = false
  /\ window_all_succeeded [plain_failure] = false
  /\ option_map (fun t => (current t, isRateLimited t))
       (task (mgr (fst (sys_run no_hostname initial
                          (throttled_actions
                           ++ [Resume 0 TimerFired;
                               Resume 0 (WindowSettled [plain_failure])])))))
     = Some (4, true).
Proof. vm_compute. repeat split. Qed.

Lemma clean_counts results :
  results <> [] ->
  window_all_succeeded results = true ->
  (0 <? count_success results)
  && (Z.of_nat (List.length results) - count_success results =? 0) = true.
Proof.
  intros Hne H. rewrite (count_success_all results H).
  apply andb_true_iff. split; [apply Z.ltb_lt|apply Z.eqb_eq; lia].
  destruct results; [congruence|]. cbn [List.length]. lia.
Qed.

(** C4. When every member of a (non-empty) window succeeded, the settlement
    clears [isRateLimited] and extends the clean streak by one; if the
    streak thereby reaches 3 while the concurrency is below the maximum,
    the concurrency grows by exactly 1 and the streak restarts at 0.  In
    particular a task of 10 items that all succeed, started on a fresh
    manager (initial 3, maximum 5), runs to completion in windows of sizes
    3, 3, 3 and 1, and the statuses it publishes show the concurrency at 3
    until the third window has settled (9 items done) and at 4 from that
    status on. *)
Theorem clean_window_grows (hostname : string -> option string)
        (m : BatchTaskManager) (a : Activation) (batch : list Card)
        (results : list (Settled * Z)) (t : Task) :
  task m = Some t ->
  List.length results = List.length batch ->
  results <> [] ->
  window_all_succeeded results = true ->
  option_map adaptive
             (task (fst (fst (settle_window hostname m a batch results))))
  = Some (if (3 <=? consecutiveSuccesses t + 1)
             && (concurrency t <? maxConcurrency m)
          then (concurrency t + 1, false, 0, rateLimitCount t)
          else (concurrency t, false, consecutiveSuccesses t + 1,
                rateLimitCount t))
  /\ forall cards requestDelay now ty st,
      List.length cards = 10%nat ->
      exists m' a' evs ws,
        run_task hostname 20 all_succeed requestDelay now cards ty st
                 constructor = Some (m', a', evs, ws)
        /\ act_phase a' = Finished
        /\ map (@List.length Card) ws = [3; 3; 3; 1]%nat
        /\ map (fun s => (status_current s, status_concurrency s))
               (updates evs)
           = [(Some 0, Some 3); (Some 0, Some 3);
              (Some 3, Some 3); (Some 3, Some 3);
              (Some 6, Some 3); (Some 6, Some 3);
              (Some 9, Some 4); (Some 9, Some 4);
              (Some 10, Some 4); (Some 10, Some 4)].
Proof.
  intros Ht Hlen Hne Hall. split.
  - pose proof (settle_window_view hostname m a batch results) as Hv.
    pose proof (apply_results_tally m results batch Hlen) as (Htl & Hs & Hf).
    cbv zeta in Hv, Htl, Hs, Hf.
    rewrite Htl, Hs, Hf, (all_succeeded_not_rate_limited results Hall) in Hv.
    apply (f_equal snd) in Hv. cbn [policy_view snd] in Hv. rewrite Hv.
    unfold adjustConcurrency. rewrite Ht, (clean_counts results Hne Hall).
    destruct ((3 <=? consecutiveSuccesses t + 1)
              && (concurrency t <? maxConcurrency m)) eqn:Hup;
      [|reflexivity].
    apply andb_prop in Hup as [_ Hlt]. apply Z.ltb_lt in Hlt.
    cbn. unfold adaptive. cbn. rewrite Z.min_r by lia. reflexivity.
  - intros cards requestDelay now ty st Hcards.
    do 11 (destruct cards as [|? cards]; try discriminate).
    cbv -[calculateDelay baseDelay_of card_label Js.join title_or_url].
    do 4 eexists. repeat split.
Qed.

Lemma clean_window_grows_witness :
  option_map adaptive
    (task (fst (fst (settle_window no_hostname
                       (mgr stopping_system)
                       (mkActivation ten_cards 0 1500
                                     (AwaitWindow (firstn 3 ten_cards)))
                       (firstn 3 ten_cards)
                       (map all_succeed (firstn 3 ten_cards))))))
  = Some (3, false, 1, 0).
Proof.
  assert (Ht : exists t, task (mgr stopping_system) = Some t
                         /\ adaptive t = (3, false, 0, 0)
                         /\ maxConcurrency (mgr stopping_system) = 5)
    by (eexists; vm_compute; repeat split).
  destruct Ht as (t & Ht & Ha & Hmax).
  assert (Hne : map all_succeed (firstn 3 ten_cards) <> []) by discriminate.
  rewrite (proj1 (clean_window_grows
                    no_hostname (mgr stopping_system)
                    (mkActivation ten_cards 0 1500
                                  (AwaitWindow (firstn 3 ten_cards)))
                    (firstn 3 ten_cards)
                    (map all_succeed (firstn 3 ten_cards))
                    t Ht eq_refl Hne eq_refl)).
  unfold adaptive in Ha. injection Ha as -> _ -> ->. rewrite Hmax.
  reflexivity.
Defined.

(* ===================================================================== *)
(** ** The delay between windows *)
(* ===================================================================== *)

Lemma loop_head_not_sleeping hostname m a d :
  act_phase (snd (fst (loop_head hostname m a))) <> Sleeping d.
Proof.
  unfold loop_head, enter_finally.
  repeat match goal with
         | |- context [if ?b then _ else _] => destruct b
         | |- context [match task ?x with _ => _ end] => destruct (task x)
         end; cbn; discriminate.
Qed.

(** C5. With a task in place, the delay computed for base delay [base] is
    [min(base * 2^min(rateLimitCount, 4), 30000)] when the window was
    rate-limited, [base] when it was not and the concurrency is 1, and
    [max(200, base / 2)] otherwise; and the sleep the scheduler starts after
    a window is this delay, taken on the state the adjustment left. *)
Theorem delay_formula (hostname : string -> option string)
        (m : BatchTaskManager) (t : Task) (base : Z) :
  task m = Some t ->
  calculateDelay base true m
  = Qmin (inject_Z base * inject_Z 2 ^ Z.min (rateLimitCount t) 4)%Q
         (inject_Z 30000)
  /\ (concurrency t = 1 -> calculateDelay base false m = inject_Z base)
  /\ (concurrency t <> 1 ->
      calculateDelay base false m
      = Qmax (inject_Z 200) (inject_Z base / inject_Z 2)%Q)
  /\ forall a batch results d,
      List.length results = List.length batch ->
      act_phase (snd (fst (settle_window hostname m a batch results)))
      = Sleeping d ->
      d = calculateDelay (act_baseDelay a) (window_rate_limited results)
                         (fst (fst (settle_window hostname m a batch results))).
Proof.
  intros Ht. unfold calculateDelay at 1 2 3. rewrite Ht.
  split; [reflexivity|]. split; [|split].
  - intros ->. reflexivity.
  - intros Hc. apply Z.eqb_neq in Hc. rewrite Hc. reflexivity.
  - intros a batch results d Hlen.
    pose proof (apply_results_tally m results batch Hlen) as (Htl & _).
    cbv zeta in Htl. unfold settle_window.
    destruct (apply_results m results batch) as [[m1 tl] evs].
    cbn [fst snd] in Htl. rewrite Htl.
    match goal with |- context [if ?b then _ else _] => destruct b end.
    + cbn. intros H. injection H as <-. reflexivity.
    + match goal with |- context [loop_head ?h ?x ?y] =>
        pose proof (loop_head_not_sleeping h x y d) as Hn;
        destruct (loop_head h x y) as [[m3 a3] evs3] end.
      cbn in *. intros H. contradiction.
Qed.

Lemma delay_formula_witness :
  (calculateDelay 1500 true (mgr throttled_system) == 3000)%Q
  /\ (calculateDelay 1500 false (mgr throttled_system) == 1500)%Q.
Proof.
  assert (Ht : exists t, task (mgr throttled_system) = Some t
                         /\ rateLimitCount t = 1 /\ concurrency t = 1)
    by (eexists; vm_compute; repeat split).
  destruct Ht as (t & Ht & Hn & Hc).
  destruct (delay_formula no_hostname (mgr throttled_system) t 1500 Ht)
    as (Hrl & Hone & _).
  rewrite Hrl, (Hone Hc), Hn. split; reflexivity.
Defined.

(* ===================================================================== *)
(** ** Retries *)
(* ===================================================================== *)

(** The three ways one call of [processCardWithRetry] can go. *)
Lemma processCardWithRetry_returns gen k u pe :
  gen k = Returns u pe ->
  processCardWithRetry gen k = (mkItemResult true (Some u) false pe None, []).
Proof.
  intros Hg. rewrite processCardWithRetry_equation_1, Hg. reflexivity.
Qed.

Lemma processCardWithRetry_retry gen k e :
  gen k = Throws e -> isRateLimitError e = true -> k < maxRetries ->
  processCardWithRetry gen k
  = (fst (processCardWithRetry gen (k + 1)),
     2 ^ (k + 1) * 1000 :: snd (processCardWithRetry gen (k + 1))).
Proof.
  intros Hg He Hk. rewrite processCardWithRetry_equation_1, Hg.
  cbn [processCardWithRetry_unfold_clause_1].
  destruct (Sumbool.sumbool_of_bool _) as [Hb|Hb].
  - cbn [processCardWithRetry_unfold_clause_1_clause_2].
    destruct (processCardWithRetry gen (k + 1)). reflexivity.
  - exfalso. apply Z.ltb_lt in Hk. rewrite He, Hk in Hb. discriminate.
Qed.

Lemma processCardWithRetry_gives_up gen k e :
  gen k = Throws e ->
  isRateLimitError e && (k <? maxRetries) = false ->
  processCardWithRetry gen k
  = (mkItemResult false None (isRateLimitError e) None (message e), []).
Proof.
  intros Hg He. rewrite processCardWithRetry_equation_1, Hg.
  cbn [processCardWithRetry_unfold_clause_1].
  destruct (Sumbool.sumbool_of_bool _) as [Hb|Hb];
    [exfalso; congruence|reflexivity].
Qed.

Lemma window_rate_limited_app l1 l2 :
  window_rate_limited (l1 ++ l2)
  = window_rate_limited l1 || window_rate_limited l2.
Proof. unfold window_rate_limited. apply existsb_app. Qed.

(** C6 (amended). An item whose processing throws a rate-limit error twice
    and then returns is retried after sleeps of 2000 ms and 4000 ms and
    resolves to a success with [rateLimited: false].  Applying it adds one
    to [successCount], leaves [failCount] alone, adds no entry to [errors]
    (when the third attempt reports no partial error) and does not set
    [hasRateLimit]: the item does not make its window rate-limited. *)
Theorem retried_item_is_plain_success (gen : Z -> GenOutcome)
        (e1 e2 : JsError) (u : bool) (pe : option string) :
  gen 0 = Throws e1 -> isRateLimitError e1 = true ->
  gen 1 = Throws e2 -> isRateLimitError e2 = true ->
  gen 2 = Returns u pe ->
  processCardWithRetry gen 0
  = (mkItemResult true (Some u) false pe None, [2000; 4000])
  /\ (forall m tl evs now card t,
         task m = Some t -> Js.truthy pe = false ->
         exists t',
           apply_result (m, tl, evs)
                        (Fulfilled (fst (processCardWithRetry gen 0)), now, card)
           = (set_task (Some t') m,
              mkTally (batchSuccess tl + 1) (batchFail tl) (hasRateLimit tl),
              evs ++ [DataChanged])
           /\ successCount t' = successCount t + 1
           /\ failCount t' = failCount t
           /\ errors t' = errors t
           /\ adaptive t' = adaptive t)
  /\ forall before after now,
      window_rate_limited
        (before ++ (Fulfilled (fst (processCardWithRetry gen 0)), now) :: after)
      = window_rate_limited (before ++ after).
Proof.
  intros H0 Hr0 H1 Hr1 H2.
  assert (Hres : processCardWithRetry gen 0
                 = (mkItemResult true (Some u) false pe None, [2000; 4000])).
  { rewrite (processCardWithRetry_retry gen 0 e1 H0 Hr0) by reflexivity.
    change (0 + 1) with 1.
    rewrite (processCardWithRetry_retry gen 1 e2 H1 Hr1) by reflexivity.
    change (1 + 1) with 2.
    rewrite (processCardWithRetry_returns gen 2 u pe H2). reflexivity. }
  split; [exact Hres|]. rewrite Hres. cbn [fst]. split.
  - intros m tl evs now card t Ht Hpe.
    unfold apply_result. cbn [success partialError]. rewrite Hpe.
    unfold with_task. rewrite Ht. cbn.
    eexists. split; [unfold set_task; reflexivity|cbn; repeat split].
  - intros before after now. rewrite !window_rate_limited_app.
    reflexivity.
Qed.

Lemma retried_item_is_plain_success_witness :
  processCardWithRetry throttled_twice 0 = (ok_result, [2000; 4000]).
Proof.
  exact (proj1 (retried_item_is_plain_success
                  throttled_twice rate_limit_error rate_limit_error true None
                  eq_refl eq_refl eq_refl eq_refl eq_refl)).
Defined.

(** C6 as stated fails: when item 4 of 10 is throttled twice and then
    succeeds (the other items succeed at once), its window, the second one,
    settles with 6 items done, [isRateLimited] false and the concurrency
    still 3 (not halved to 1); the task ends with 10 successes, no failure
    and an empty error log, after windows of sizes 3, 3, 3, 1. *)
Lemma retried_item_counterexample :
  option_map
    (fun r : BatchTaskManager * Activation * list Event * list (list Card) =>
       let '(m, a, evs, ws) := r in
       (map (fun s => (status_current s, status_concurrency s,
                       status_isRateLimited s)) (updates evs),
        map (@List.length Card) ws,
        option_map (fun t => (successCount t, failCount t, errors t)) (task m)))
    (run_task no_hostname 20 fourth_throttled_twice (Js.VString "1500") 0
              ten_cards (TypesSingle "name") fill_strategy constructor)
  = Some ([(Some 0, Some 3, Some false); (Some 0, Some 3, Some false);
           (Some 3, Some 3, Some false); (Some 3, Some 3, Some false);
           (Some 6, Some 3, Some false); (Some 6, Some 3, Some false);
           (Some 9, Some 4, Some false); (Some 9, Some 4, Some false);
           (Some 10, Some 4, Some false); (Some 10, Some 4, Some false)],
          [3; 3; 3; 1]%nat,
          Some (10, 0, [])).
Proof. vm_compute. reflexivity. Qed.

(* ===================================================================== *)
(** ** start while a task is active *)
(* ===================================================================== *)

(** C7 (amended). Whenever the task's [running] flag is set, [start] fails
    with the already-running error, sends nothing, launches no scheduler
    and leaves the manager, hence every field of the task record, exactly
    as it was. *)
Theorem start_while_running_rejected (hostname : string -> option string)
        (s : System) (t : Task) (now : Z) (cards : list Card)
        (ty : TypesArg) (st : Strategy) :
  task (mgr s) = Some t ->
  running t = true ->
  start now cards ty st (mgr s)
  = (StartError already_running_message, mgr s, [])
  /\ sys_step hostname s (CallStart now cards ty st) = (s, [])
  /\ task (mgr (fst (sys_step hostname s (CallStart now cards ty st))))
     = Some t.
Proof.
  intros Ht Hr.
  assert (Hs : start now cards ty st (mgr s)
               = (StartError already_running_message, mgr s, [])).
  { unfold start, isRunning. rewrite Ht, Hr. reflexivity. }
  split; [exact Hs|]. cbn [sys_step]. rewrite Hs.
  destruct s as [m acts0]. cbn [mgr acts fst]. cbn [mgr] in Ht.
  split; [reflexivity|exact Ht].
Qed.

Lemma start_while_running_rejected_witness :
  start 7 ten_cards (TypesSingle "tags") fill_strategy (mgr throttled_system)
  = (StartError already_running_message, mgr throttled_system, []).
Proof.
  assert (Ht : exists t, task (mgr throttled_system) = Some t
                         /\ running t = true)
    by (eexists; vm_compute; split; reflexivity).
  destruct Ht as (t & Ht & Hr).
  exact (proj1 (start_while_running_rejected
                  no_hostname throttled_system t 7 ten_cards
                  (TypesSingle "tags") fill_strategy Ht Hr)).
Defined.

(** C7 as stated fails in the Stopping state: once [stop] has cleared the
    flag, with the first window still in flight, [start] succeeds and
    replaces the task record. *)
Lemma start_while_stopping_counterexample :
  task_state stopping_system = Stopping
  /\ fst (fst (start 7 (firstn 2 ten_cards) (TypesSingle "tags")
                    fill_strategy (mgr stopping_system)))
     = Started 2
  /\ option_map (fun t => (running t, total t, startTime t, types t))
       (task (mgr stopping_system))
     = Some (false, 10, 0, ["name"])
  /\ option_map (fun t => (running t, total t, startTime t, types t))
       (task (snd (fst (start 7 (firstn 2 ten_cards) (TypesSingle "tags")
                              fill_strategy (mgr stopping_system)))))
     = Some (true, 2, 7, ["tags"]).
Proof. vm_compute. repeat split. Qed.

(* ===================================================================== *)
(** ** The error log *)
(* ===================================================================== *)

Lemma slice_from_last {A} (n : nat) (l : list A) :
  (0 < n)%nat ->
  Js.slice_from l (- Z.of_nat n) = skipn (List.length l - n) l.
Proof.
  intros Hn. unfold Js.slice_from, Js.slice, Js.rel_index.
  set (len := List.length l).
  replace (- Z.of_nat n <? 0) with true by (symmetry; apply Z.ltb_lt; lia).
  replace (Z.of_nat len <? 0) with false by (symmetry; apply Z.ltb_ge; lia).
  rewrite Z.min_id.
  replace (Z.to_nat (Z.max (Z.of_nat len + - Z.of_nat n) 0))
    with (len - n)%nat by lia.
  apply firstn_all2. rewrite length_skipn. subst len. lia.
Qed.

Lemma ring_of_snoc {A} cap (l : list A) x :
  ring_of cap (l ++ [x]) = ring_push cap (ring_of cap l) x.
Proof. unfold ring_of. rewrite fold_left_app. reflexivity. Qed.

Lemma tl_skipn {A} n (l : list A) : tl (skipn n l) = skipn (S n) l.
Proof.
  revert l. induction n as [|n IH]; intros l.
  - destruct l; reflexivity.
  - destruct l; [reflexivity|]. cbn [skipn]. apply IH.
Qed.

(** The ring buffer holds the last [cap] entries pushed. *)
Lemma ring_of_last {A} (cap : nat) (l : list A) :
  (0 < cap)%nat -> ring_of cap l = skipn (List.length l - cap) l.
Proof.
  intros Hcap. induction l as [|x l IH] using rev_ind; [reflexivity|].
  rewrite ring_of_snoc, IH. unfold ring_push.
  rewrite length_skipn, length_app. cbn [List.length].
  assert (Happ : skipn (List.length l - cap) l ++ [x]
                 = skipn (List.length l - cap) (l ++ [x])).
  { rewrite skipn_app.
    replace (List.length l - cap - List.length l)%nat with 0%nat by lia.
    reflexivity. }
  rewrite Happ.
  destruct (Nat.ltb_spec (List.length l - (List.length l - cap)) cap) as [Hlt|Hge].
  - replace (List.length l - cap)%nat with 0%nat by lia.
    replace (List.length l + 1 - cap)%nat with 0%nat by lia. reflexivity.
  - rewrite tl_skipn. f_equal. lia.
Qed.

(** C8. What [getStatus] shows of the error log is what a ring buffer of
    capacity 100 with FIFO eviction would hold after the same pushes: it
    never has more than 100 entries, it is the log minus a prefix of oldest
    entries, nothing is dropped while the log has at most 100 entries, and
    once more than 100 were recorded exactly the latest 100 remain. *)
Theorem errors_shown_as_ring_buffer (m : BatchTaskManager) (t : Task) :
  task m = Some t ->
  let shown := status_errors (getStatus m) in
  shown = ring_of 100 (errors t)
  /\ (List.length shown <= 100)%nat
  /\ (exists dropped,
         errors t = dropped ++ shown
         /\ List.length dropped = (List.length (errors t) - 100)%nat)
  /\ forall e,
      status_errors (getStatus (with_task (push_error e) m))
      = ring_push 100 shown e.
Proof.
  intros Ht. cbv zeta.
  assert (Hshown : forall l : list ErrorEntry,
             Js.slice_from l (-100) = skipn (List.length l - 100) l).
  { intros l. apply (slice_from_last 100 l). lia. }
  unfold getStatus, with_task. rewrite Ht. cbn [status_errors task set_task].
  rewrite !Hshown.
  split; [symmetry; apply ring_of_last; lia|].
  split; [rewrite length_skipn; lia|]. split.
  - exists (firstn (List.length (errors t) - 100) (errors t)).
    split; [symmetry; apply firstn_skipn|]. rewrite length_firstn. lia.
  - intros e. cbn [push_error errors]. rewrite Hshown.
    rewrite <- !ring_of_last by lia. apply ring_of_snoc.
Qed.

Lemma errors_shown_as_ring_buffer_witness :
  status_errors (getStatus (mgr throttled_system))
  = ring_of 100 [mkErrorEntry 2 "card" (Some rate_limit_message) 0 false].
Proof.
  assert (Ht : exists t, task (mgr throttled_system) = Some t
                         /\ errors t = [mkErrorEntry 2 "card"
                                          (Some rate_limit_message) 0 false])
    by (eexists; vm_compute; split; reflexivity).
  destruct Ht as (t & Ht & He).
  rewrite <- He.
  exact (proj1 (errors_shown_as_ring_buffer (mgr throttled_system) t Ht)).
Defined.

(* ===================================================================== *)
(** ** stop while a window is in flight *)
(* ===================================================================== *)

Lemma stop_task m t :
  task m = Some t ->
  task (fst (stop m)) = Some (set_currentCard "已停止" (set_running false t)).
Proof.
  intros Ht. unfold stop.
  destruct (abortController m); cbn [task set_abortController]; rewrite Ht;
    reflexivity.
Qed.

Lemma updates_app evs evs' : updates (evs ++ evs') = updates evs ++ updates evs'.
Proof.
  induction evs as [|[st|] evs IH]; cbn; [reflexivity| |exact IH].
  rewrite IH. reflexivity.
Qed.

(** Applying results sends no status: only [notifyDataChange] is called. *)
Lemma apply_results_no_update m results batch :
  updates (snd (apply_results m results batch)) = [].
Proof.
  unfold apply_results.
  assert (G : forall l acc, updates (snd acc) = [] ->
                            updates (snd (fold_left apply_result l acc)) = []).
  { induction l as [|rc l IH]; intros acc Hacc; [exact Hacc|].
    cbn [fold_left]. apply IH.
    destruct acc as [[ma tla] evsa], rc as [[r now] card].
    cbn [snd] in Hacc. unfold apply_result.
    destruct r as [v|]; [destruct (success v); [|destruct (rateLimited v)]|];
      cbn [snd]; rewrite ?updates_app, ?Hacc; reflexivity. }
  apply G. reflexivity.
Qed.

(** C9 (amended). If [stop] is called while a window is in flight and items
    remain beyond it, and nothing else acts on the manager from that [stop]
    until the scheduler has ended (the window settles on the manager as
    [stop] left it, the final step runs on the manager as the settlement
    left it; in particular no [start] is accepted in between), then the
    window's settlement is applied in full ([current] and the two counters
    advance by the window's size) and the status sent at that point shows
    [running: false] with [current] advanced by the window's size; no
    further window is launched and no sleep is started (the scheduler goes
    straight to its final wait); and the final status shows
    [running: false] with [current] set to [total], while its two counters
    still only cover the windows that settled. *)
Theorem stop_mid_window (hostname : string -> option string)
        (m : BatchTaskManager) (a : Activation) (batch : list Card)
        (results : list (Settled * Z)) (t : Task) :
  task m = Some t ->
  act_phase a = AwaitWindow batch ->
  List.length results = List.length batch ->
  act_index a + Z.of_nat (List.length batch)
  < Z.of_nat (List.length (act_cards a)) ->
  exists m2 a2 evs2 t2 m3 a3 evs3 final,
    act_step hostname (WindowSettled results) (fst (stop m)) a
    = Some (m2, a2, evs2)
    /\ act_phase a2 = Grace
    /\ act_index a2 = act_index a + Z.of_nat (List.length batch)
    /\ task m2 = Some t2
    /\ current t2 = current t + Z.of_nat (List.length batch)
    /\ successCount t2 + failCount t2
       = successCount t + failCount t + Z.of_nat (List.length batch)
    /\ updates evs2 = [getStatus m2]
    /\ status_running (getStatus m2) = false
    /\ status_current (getStatus m2)
       = Some (current t + Z.of_nat (List.length batch))
    /\ act_step hostname TimerFired m2 a2 = Some (m3, a3, evs3)
    /\ act_phase a3 = Finished
    /\ updates evs3 = [final]
    /\ status_running final = false
    /\ status_current final = Some (total t)
    /\ status_total final = Some (total t)
    /\ status_counts final = Some (successCount t2, failCount t2).
Proof.
  intros Ht Hph Hlen Hrem.
  pose proof (stop_task m t Ht) as Hst.
  set (m1 := fst (stop m)) in *.
  destruct (apply_results_task m1 results batch _ Hlen Hst)
    as (t1 & Ht1 & _ & Hr1 & Htot1 & _ & Hcur1 & Hs1 & Hf1).
  unfold act_step. rewrite Hph, Hlen, Nat.eqb_refl.
  unfold settle_window.
  destruct (apply_results m1 results batch) as [[m1' tl] evs] eqn:Eap.
  cbn [fst snd] in Ht1.
  destruct (adjustConcurrency_task (batchSuccess tl) (batchFail tl)
                                   (hasRateLimit tl) m1' t1 Ht1)
    as (t2 & Ht2 & _ & Hbk).
  destruct Hbk as (Hr2 & _ & _ & Hcur2 & Htot2 & Hs2 & Hf2 & _).
  set (m2 := adjustConcurrency (batchSuccess tl) (batchFail tl)
                               (hasRateLimit tl) m1') in *.
  assert (Hrun : isRunning m2 = false).
  { unfold isRunning. rewrite Ht2, Hr2, Hr1. reflexivity. }
  rewrite Hrun, andb_false_r.
  unfold loop_head. cbn [act_index act_cards].
  replace (_ <? _) with true by (symmetry; apply Z.ltb_lt; exact Hrem).
  unfold should_break. rewrite Hrun, orb_true_r.
  unfold enter_finally. rewrite Ht2. cbn [set_phase act_cards act_index act_baseDelay].
  assert (Hev : updates (evs ++ emitUpdate m2) = [getStatus m2]).
  { rewrite updates_app.
    assert (Hn : updates evs = []).
    { pose proof (apply_results_no_update m1 results batch) as H.
      rewrite Eap in H. exact H. }
    rewrite Hn. reflexivity. }
  eexists m2, _, _, t2, _, _, _, _.
  split; [reflexivity|]. cbn [act_phase act_index].
  split; [reflexivity|]. split; [reflexivity|]. split; [exact Ht2|].
  split; [cbn in Hcur1; lia|].
  split; [cbn in Hs1, Hf1; lia|].
  split; [rewrite app_nil_r; exact Hev|].
  unfold getStatus at 1 2. rewrite Ht2. cbn [status_running status_current].
  split; [rewrite Hr2, Hr1; reflexivity|].
  split; [cbn in Hcur1; rewrite Hcur2, Hcur1; reflexivity|].
  unfold finalize, with_task. rewrite Ht2.
  split; [reflexivity|]. cbn.
  repeat split; cbn in Htot1 |- *; congruence.
Qed.

Lemma stop_mid_window_witness :
  exists m2 a2 evs2,
    act_step no_hostname
             (WindowSettled (map all_succeed (firstn 3 ten_cards)))
             (fst (stop (mgr in_flight_system)))
             (mkActivation ten_cards 0 1500 (AwaitWindow (firstn 3 ten_cards)))
    = Some (m2, a2, evs2)
    /\ act_phase a2 = Grace
    /\ option_map current (task m2) = Some 3.
Proof.
  assert (Ht : exists t, task (mgr in_flight_system) = Some t /\ current t = 0)
    by (eexists; vm_compute; split; reflexivity).
  destruct Ht as (t & Ht & Hc).
  destruct (stop_mid_window
              no_hostname (mgr in_flight_system)
              (mkActivation ten_cards 0 1500 (AwaitWindow (firstn 3 ten_cards)))
              (firstn 3 ten_cards)
              (map all_succeed (firstn 3 ten_cards)) t Ht eq_refl eq_refl eq_refl)
    as (m2 & a2 & evs2 & t2 & _ & _ & _ & _ & Hstep & Hph & _ & Ht2 & Hcur & _).
  exists m2, a2, evs2. split; [exact Hstep|]. split; [exact Hph|].
  rewrite Ht2. cbn [option_map]. rewrite Hcur, Hc. reflexivity.
Defined.

(** C9 as stated fails on the final status: with 10 items, [stop] during the
    first window of 3, the last status sent has [running: false] and
    [current] = 10 = [total], with 3 successes counted. *)
Lemma stop_mid_window_counterexample :
  (fun st => (status_running st, status_current st, status_total st,
              status_counts st))
    (last (updates
             (snd (sys_run no_hostname initial
                           (stopping_actions
                            ++ [Resume 0 (WindowSettled
                                            (map all_succeed
                                                 (firstn 3 ten_cards)));
                                Resume 0 TimerFired]))))
          NotRunning)
  = (false, Some 10, Some 10, Some (3, 0)).
Proof. vm_compute. reflexivity. Qed.

(** Why the manager must be left alone: [start] is accepted after [stop]
    (the task is no longer marked running), and the stopped scheduler
    reads the task afresh at every step.  With 10 items, [stop] during the
    first window and a new [start] before that window settles, the old
    scheduler finds a running task at the settlement, sleeps, and then
    launches its cards 4 to 6, next to the scheduler of the new task. *)
Lemma restart_revives_stopped_scheduler :
  let s := fst (sys_run no_hostname initial
                        (stopping_actions
                         ++ [start_ten;
                             Resume 0 (WindowSettled
                                         (map all_succeed
                                              (firstn 3 ten_cards)));
                             Resume 0 TimerFired])) in
  isRunning (mgr s) = true
  /\ map act_phase (acts s)
     = [AwaitWindow (firstn 3 (skipn 3 ten_cards)); Prologue].
Proof. vm_compute. split; reflexivity. Qed.

(* ===================================================================== *)
(** ** The base delay *)
(* ===================================================================== *)

(** C10 (amended). For every configured [requestDelay], the base delay the
    scheduler uses is [parseInt(requestDelay)] clamped into [500, 10000],
    with 1500 used when the value is missing, does not parse, or parses to
    0; it always lies in [500, 10000], and it is what the scheduler keeps
    for its delay computations once the configuration is loaded. *)
Theorem baseDelay_clamped (hostname : string -> option string)
        (requestDelay : Js.value) :
  baseDelay_of requestDelay
  = match Js.parseInt requestDelay with
    | Some n => if n =? 0 then 1500 else Z.max 500 (Z.min 10000 n)
    | None => 1500
    end
  /\ 500 <= baseDelay_of requestDelay <= 10000
  /\ (Js.parseInt requestDelay <> Some 0 ->
      baseDelay_of requestDelay = clamped_requestDelay requestDelay)
  /\ forall m a m' a' evs,
      act_step hostname (ConfigLoaded requestDelay) m a = Some (m', a', evs) ->
      act_baseDelay a' = baseDelay_of requestDelay.
Proof.
  unfold baseDelay_of, clamped_requestDelay, Js.num_or.
  split; [|split; [|split]].
  - destruct (Js.parseInt requestDelay) as [n|]; [|reflexivity].
    destruct (n =? 0); reflexivity.
  - lia.
  - intros Hn. destruct (Js.parseInt requestDelay) as [n|]; [|reflexivity].
    destruct (Z.eqb_spec n 0) as [->|_]; [congruence|reflexivity].
  - intros m a m' a' evs. unfold act_step.
    destruct (act_phase a); try discriminate.
    unfold loop_head, enter_finally. cbn [act_index act_cards act_baseDelay].
    repeat match goal with
           | |- context [if ?b then _ else _] => destruct b
           | |- context [match task ?x with _ => _ end] => destruct (task x)
           end; intros H; injection H as _ <- _; reflexivity.
Qed.

Lemma baseDelay_clamped_witness :
  baseDelay_of (Js.VString "250") = clamped_requestDelay (Js.VString "250")
  /\ baseDelay_of (Js.VString "250") = 500.
Proof.
  split; [|reflexivity].
  apply (proj1 (proj2 (proj2 (baseDelay_clamped no_hostname (Js.VString "250"))))).
  discriminate.
Defined.

(** C10 as stated fails for a stored delay of 0: it parses, the clamp of
    its value is 500, and the scheduler uses 1500. *)
Lemma baseDelay_zero_counterexample :
  Js.parseInt (Js.VString "0") = Some 0
  /\ clamped_requestDelay (Js.VString "0") = 500
  /\ baseDelay_of (Js.VString "0") = 1500
  /\ baseDelay_of (Js.VNumber 0) = 1500.
Proof. repeat split. Qed.

(* ===================================================================== *)
(** ** Whole runs of a task *)
(* ===================================================================== *)

Lemma firstn_min_length {A} (c : nat) (l : list A) :
  firstn (Nat.min c (List.length l)) l = firstn c l.
Proof.
  destruct (Nat.le_gt_cases c (List.length l)) as [H|H].
  - rewrite Nat.min_l by exact H. reflexivity.
  - rewrite Nat.min_r by lia. rewrite firstn_all.
    symmetry. apply firstn_all2. lia.
Qed.

(** The window the scheduler cuts: up to [c] cards from position [i]. *)
Lemma slice_window_firstn {A} (l : list A) (i c : nat) :
  (i <= List.length l)%nat ->
  Js.slice l (Z.of_nat i) (Z.of_nat i + Z.of_nat c) = firstn c (skipn i l).
Proof.
  intros Hi. unfold Js.slice, Js.rel_index.
  replace (Z.of_nat i <? 0) with false by (symmetry; apply Z.ltb_ge; lia).
  replace (Z.of_nat i + Z.of_nat c <? 0) with false
    by (symmetry; apply Z.ltb_ge; lia).
  replace (Z.to_nat (Z.min (Z.of_nat i) (Z.of_nat (List.length l)))) with i by lia.
  set (k := Z.to_nat (Z.min (Z.of_nat i + Z.of_nat c) (Z.of_nat (List.length l))
                      - Z.min (Z.of_nat i) (Z.of_nat (List.length l)))).
  assert (Hk : k = Nat.min c (List.length (skipn i l)))
    by (subst k; rewrite length_skipn; lia).
  rewrite Hk. apply firstn_min_length.
Qed.

Lemma firstn_skipn_length {A} (c : nat) (l : list A) :
  firstn c l ++ skipn (List.length (firstn c l)) l = l.
Proof.
  rewrite length_firstn.
  destruct (Nat.le_gt_cases c (List.length l)) as [H|H].
  - rewrite Nat.min_l by exact H. apply firstn_skipn.
  - rewrite Nat.min_r by lia. rewrite skipn_all, app_nil_r.
    apply firstn_all2. lia.
Qed.

Lemma count_success_app l1 l2 :
  count_success (l1 ++ l2) = count_success l1 + count_success l2.
Proof.
  unfold count_success. rewrite filter_app, length_app. lia.
Qed.

Lemma data_changes_app evs evs' :
  data_changes (evs ++ evs') = (data_changes evs + data_changes evs')%nat.
Proof.
  induction evs as [|[st|] evs IH]; cbn; [reflexivity|exact IH|].
  rewrite IH. reflexivity.
Qed.

(** One call of [notifyDataChange] per success while results are applied. *)
Lemma fold_apply_result_data_changes l m tl evs :
  Z.of_nat (data_changes (snd (fold_left apply_result l (m, tl, evs))))
  = Z.of_nat (data_changes evs) + count_success (map fst l).
Proof.
  revert m tl evs. induction l as [|[[r now] card] l IH]; intros m tl evs.
  - cbn. unfold count_success. cbn. lia.
  - cbn [fold_left map fst].
    destruct (apply_result (m, tl, evs) (r, now, card)) as [[m1 tl1] evs1] eqn:E.
    rewrite IH, count_success_cons. unfold is_success. cbn [fst].
    unfold apply_result in E.
    destruct r as [v|reason]; [destruct (success v); [|destruct (rateLimited v)]|];
      injection E as _ _ <-; rewrite ?data_changes_app; cbn [data_changes]; lia.
Qed.

Lemma apply_results_data_changes m results batch :
  List.length results = List.length batch ->
  Z.of_nat (data_changes (snd (apply_results m results batch)))
  = count_success results.
Proof.
  intros Hlen. unfold apply_results.
  rewrite fold_apply_result_data_changes, map_fst_combine by exact Hlen.
  reflexivity.
Qed.

Section RunFacts.

Variable hostname : string -> option string.
Variable exec : Card -> Settled * Z.
Variable cards : list Card.

Lemma loop_head_exit m a t :
  task m = Some t ->
  Z.of_nat (List.length (act_cards a)) <= act_index a ->
  loop_head hostname m a = (m, set_phase Grace a, []).
Proof.
  intros Ht Hi. unfold loop_head.
  replace (_ <? _) with false by (symmetry; apply Z.ltb_ge; exact Hi).
  unfold enter_finally. rewrite Ht. reflexivity.
Qed.

Lemma loop_head_launch m a t i :
  task m = Some t -> running t = true -> abortController m <> Some true ->
  act_index a = Z.of_nat i -> (i < List.length (act_cards a))%nat ->
  0 <= concurrency t ->
  let b := firstn (Z.to_nat (concurrency t)) (skipn i (act_cards a)) in
  let m' := set_task (Some (set_currentCard
                              (Js.join ", " (map (card_label hostname) b)) t)) m in
  loop_head hostname m a = (m', set_phase (AwaitWindow b) a, emitUpdate m').
Proof.
  intros Ht Hr Hab Hi Hlt Hc. cbv zeta. unfold loop_head.
  replace (_ <? _) with true by (symmetry; apply Z.ltb_lt; lia).
  assert (Hb : should_break m = false).
  { unfold should_break, isRunning. rewrite Ht, Hr.
    destruct (abortController m) as [[|]|]; [congruence|reflexivity|reflexivity]. }
  rewrite Hb, Ht, Hi.
  assert (Hs : Js.slice (act_cards a) (Z.of_nat i) (Z.of_nat i + concurrency t)
               = firstn (Z.to_nat (concurrency t)) (skipn i (act_cards a))).
  { rewrite <- (slice_window_firstn (act_cards a) i) by lia.
    rewrite Z2Nat.id by exact Hc. reflexivity. }
  rewrite Hs. reflexivity.
Qed.

(** What the settlement of a window leaves, for a running task. *)
Lemma settle_window_running m a batch results t :
  task m = Some t -> running t = true -> bounded m ->
  List.length results = List.length batch ->
  let a' := mkActivation (act_cards a)
                         (act_index a + Z.of_nat (List.length batch))
                         (act_baseDelay a) (act_phase a) in
  exists m3 t3 evs d,
    task m3 = Some t3 /\ running t3 = true /\ bounded m3
    /\ abortController m3 = abortController m
    /\ total t3 = total t
    /\ current t3 = current t + Z.of_nat (List.length batch)
    /\ successCount t3 = successCount t + count_success results
    /\ failCount t3
       = failCount t + (Z.of_nat (List.length batch) - count_success results)
    /\ Z.of_nat (data_changes evs) = count_success results
    /\ settle_window hostname m a batch results
       = if act_index a' <? Z.of_nat (List.length (act_cards a))
         then (m3, set_phase (Sleeping d) a', evs)
         else let '(m4, a4, evs4) := loop_head hostname m3 a' in
              (m4, a4, evs ++ evs4).
Proof.
  intros Ht Hr Hb Hlen. cbv zeta.
  destruct (apply_results_task m results batch t Hlen Ht)
    as (t2 & Ht2 & Hab2 & Hr2 & Htot2 & _ & Hcur2 & Hs2 & Hf2).
  pose proof (apply_results_view m results batch) as Hv2.
  pose proof (apply_results_data_changes m results batch Hlen) as Hd2.
  unfold settle_window.
  destruct (apply_results m results batch) as [[m2 tl] evs2].
  cbn [fst snd] in *.
  destruct (adjustConcurrency_task (batchSuccess tl) (batchFail tl)
                                   (hasRateLimit tl) m2 t2 Ht2)
    as (t3 & Ht3 & Hab3 & Hbk).
  destruct Hbk as (Hr3 & _ & _ & Hcur3 & Htot3 & Hs3 & Hf3 & _).
  set (m3 := adjustConcurrency (batchSuccess tl) (batchFail tl)
                               (hasRateLimit tl) m2) in *.
  assert (Hb3 : bounded m3).
  { apply adjustConcurrency_bounded.
    eapply bounded_view; [symmetry; exact Hv2|exact Hb]. }
  assert (Hrun : isRunning m3 = true).
  { unfold isRunning. rewrite Ht3. congruence. }
  rewrite Hrun, andb_true_r.
  exists m3, t3, (evs2 ++ emitUpdate m3),
         (calculateDelay (act_baseDelay a) (hasRateLimit tl) m3).
  repeat (split; [first [exact Ht3|exact Hb3|congruence|idtac]|]).
  - rewrite data_changes_app. cbn. lia.
  - cbn [act_index act_cards]. destruct (_ <? _); reflexivity.
Qed.

Lemma drive_finished fuel cfg m a :
  act_phase a = Finished ->
  drive hostname (S fuel) exec cfg m a = Some (m, a, [], []).
Proof. intros H. cbn [drive]. rewrite H. reflexivity. Qed.

Lemma drive_step fuel cfg inp m a m1 a1 evs1 m2 a2 evs2 ws :
  act_phase a <> Finished ->
  inp = match act_phase a with
        | Prologue => cfg
        | AwaitWindow batch => WindowSettled (map exec batch)
        | _ => TimerFired
        end ->
  act_step hostname inp m a = Some (m1, a1, evs1) ->
  drive hostname fuel exec cfg m1 a1 = Some (m2, a2, evs2, ws) ->
  drive hostname (S fuel) exec cfg m a
  = Some (m2, a2, evs1 ++ evs2, launched a1 ++ ws).
Proof.
  intros Hph -> Hstep Hdrive. cbn [drive]. rewrite Hstep, Hdrive.
  unfold launched.
  destruct (act_phase a); try congruence; destruct (act_phase a1); reflexivity.
Qed.

Lemma drive_at_end cfg m a m1 a1 evs1 fuel :
  run_inv exec cards (List.length cards) m a ->
  loop_head hostname m a = (m1, a1, evs1) ->
  (2 <= fuel)%nat ->
  exists m' a' evs ws,
    drive hostname fuel exec cfg m1 a1 = Some (m', a', evs, ws)
    /\ run_done exec cards m' a'
    /\ launched a1 ++ ws = []
    /\ data_changes (evs1 ++ evs) = 1%nat.
Proof.
  intros (Hcards & Hidx & _ & _ & _ & t & Ht & Hr & Htot & Hcur & Hs & Hf)
         Hloop Hfuel.
  rewrite (loop_head_exit m a t Ht) in Hloop by (rewrite Hcards, Hidx; lia).
  injection Hloop as <- <- <-.
  destruct fuel as [|[|fuel]]; try lia.
  eexists _, _, _, _. split.
  - eapply drive_step; [discriminate|reflexivity|reflexivity|].
    apply drive_finished. reflexivity.
  - split; [|split; reflexivity].
    split; [reflexivity|]. unfold with_task. rewrite Ht. cbn [task set_task].
    eexists. split; [reflexivity|]. cbn.
    rewrite firstn_all in Hs, Hf. repeat split; congruence.
Qed.

(** From any loop test of an uninterrupted task the scheduler reaches its
    end: the windows it launches are the remaining cards in order, each of
    1 to 5 cards, and the data-change notifier is called once per success
    and once at the end. *)
Lemma drive_from_loop_head cfg k :
  forall i m a m1 a1 evs1 fuel,
    (List.length cards - i <= k)%nat ->
    run_inv exec cards i m a ->
    loop_head hostname m a = (m1, a1, evs1) ->
    (2 * k + 2 <= fuel)%nat ->
    exists m' a' evs ws,
      drive hostname fuel exec cfg m1 a1 = Some (m', a', evs, ws)
      /\ run_done exec cards m' a'
      /\ List.concat (launched a1 ++ ws) = skipn i cards
      /\ Forall (fun w => (1 <= List.length w <= 5)%nat) (launched a1 ++ ws)
      /\ Z.of_nat (data_changes (evs1 ++ evs))
         = count_success (map exec (skipn i cards)) + 1.
Proof.
  induction k as [|k IH]; intros i m a m1 a1 evs1 fuel Hk Hinv Hloop Hfuel.
  all: destruct (Nat.eq_dec i (List.length cards)) as [->|Hne].
  all: try (destruct (drive_at_end cfg m a m1 a1 evs1 fuel Hinv Hloop
                                   ltac:(lia))
             as (m' & a' & evs & ws & Hd & Hdone & Hws & Hdc);
            exists m', a', evs, ws; rewrite Hws, Hdc, skipn_all;
            repeat split; [exact Hd|apply Hdone|apply Hdone|constructor]).
  - destruct Hinv as (_ & _ & Hi & _). lia.
  - pose proof Hinv as Hinv0.
    destruct Hinv as (Hcards & Hidx & Hi & Hb & Hab & t & Ht & Hr & Htot
                      & Hcur & Hs & Hf).
    assert (Hc : 1 <= concurrency t <= 5).
    { destruct Hb as (_ & _ & _ & Hc). rewrite Ht in Hc. exact Hc. }
    pose proof (loop_head_launch m a t i Ht Hr Hab Hidx
                                 ltac:(rewrite Hcards; lia) ltac:(lia)) as Hl.
    cbv zeta in Hl. rewrite Hl in Hloop. clear Hl.
    set (b := firstn (Z.to_nat (concurrency t)) (skipn i cards)) in *.
    rewrite Hcards in Hloop. fold b in Hloop.
    injection Hloop as <- <- <-.
    set (m1 := set_task _ m).
    set (a1 := set_phase (AwaitWindow b) a).
    assert (Hblen : List.length b
                    = Nat.min (Z.to_nat (concurrency t)) (List.length cards - i)).
    { subst b. rewrite length_firstn, length_skipn. reflexivity. }
    assert (Hb1 : bounded m1).
    { eapply bounded_view; [|exact Hb]. unfold policy_view, m1. cbn.
      rewrite Ht. reflexivity. }
    destruct (settle_window_running m1 a1 b (map exec b)
                (set_currentCard
                   (Js.join ", " (map (card_label hostname) b)) t)
                eq_refl Hr Hb1 (length_map exec b))
      as (m3 & t3 & evs_s & d & Ht3 & Hr3 & Hb3 & Hab3 & Htot3 & Hcur3
          & Hs3 & Hf3 & Hdc3 & Hsettle).
    cbv zeta in Hsettle. cbn [act_index act_cards act_baseDelay a1 set_phase]
      in Hsettle.
    rewrite Hcards, Hidx in Hsettle.
    set (i' := (i + List.length b)%nat).
    assert (Hsplit : skipn i cards = b ++ skipn i' cards).
    { subst i' b. rewrite Nat.add_comm, <- skipn_skipn.
      symmetry. apply firstn_skipn_length. }
    assert (Hfirst : firstn i' cards = firstn i cards ++ b).
    { rewrite <- (firstn_skipn i cards) at 1.
      rewrite Hsplit. rewrite firstn_app, length_firstn.
      replace (Nat.min i (List.length cards)) with i by lia.
      replace (i' - i)%nat with (List.length b) by (subst i'; lia).
      rewrite firstn_all2 by (rewrite length_firstn; lia).
      rewrite firstn_app, firstn_all, Nat.sub_diag, firstn_O, app_nil_r.
      reflexivity. }
    set (a' := mkActivation cards (Z.of_nat i + Z.of_nat (List.length b))
                            (act_baseDelay a) (AwaitWindow b)) in *.
    assert (Hinv' : forall p,
               run_inv exec cards i' m3 (set_phase p a')).
    { intros p. unfold run_inv. cbn [set_phase act_cards act_index a'].
      split; [reflexivity|]. split; [subst i'; lia|].
      split; [subst i'; lia|]. split; [exact Hb3|].
      split; [rewrite Hab3; exact Hab|].
      exists t3. split; [exact Ht3|]. split; [exact Hr3|].
      rewrite Hfirst, map_app, count_success_app.
      cbn in Htot3, Hcur3, Hs3, Hf3. subst i'.
      repeat split; lia. }
    assert (Hwin : (1 <= List.length b <= 5)%nat) by lia.
    assert (Hcount : count_success (map exec (skipn i cards))
                     = count_success (map exec b)
                       + count_success (map exec (skipn i' cards))).
    { rewrite Hsplit, map_app, count_success_app. reflexivity. }
    destruct fuel as [|fuel]; [lia|].
    destruct (Z.ltb_spec (Z.of_nat i + Z.of_nat (List.length b))
                         (Z.of_nat (List.length cards))) as [Hlt|Hge].
    + (* a sleep, then the next loop test *)
      destruct fuel as [|fuel]; [lia|].
      destruct (loop_head hostname m3 (set_phase (Sleeping d) a'))
        as [[m4 a4] evs4] eqn:Hloop4.
      destruct (IH i' m3 (set_phase (Sleeping d) a') m4 a4 evs4 fuel
                   ltac:(subst i'; lia) (Hinv' _) Hloop4 ltac:(lia))
        as (m' & a'' & evs & ws & Hd & Hdone & Hws & Hall & Hdc).
      exists m', a'', (evs_s ++ evs4 ++ evs), (launched a4 ++ ws).
      split.
      { eapply (drive_step _ _ _ _ _ m3 (set_phase (Sleeping d) a') evs_s
                           _ _ (evs4 ++ evs) (launched a4 ++ ws));
          [discriminate|reflexivity| |].
        - cbn [act_step a1 set_phase act_phase]. rewrite length_map.
          rewrite Nat.eqb_refl. rewrite Hsettle. reflexivity.
        - eapply drive_step; [discriminate|reflexivity| |exact Hd].
          cbn [act_step set_phase act_phase]. rewrite Hloop4. reflexivity. }
      split; [exact Hdone|]. cbn [launched a1 set_phase act_phase app].
      split; [cbn [List.concat]; rewrite Hws, Hsplit; reflexivity|].
      split; [constructor; assumption|].
      rewrite !data_changes_app in Hdc. rewrite !data_changes_app.
      cbn [emitUpdate data_changes]. rewrite ?data_changes_app. lia.
    + (* the loop test follows at once *)
      destruct (loop_head hostname m3 a') as [[m4 a4] evs4] eqn:Hloop4.
      destruct (IH i' m3 a' m4 a4 evs4 fuel
                   ltac:(subst i'; lia) (Hinv' (AwaitWindow b)) Hloop4
                   ltac:(lia))
        as (m' & a'' & evs & ws & Hd & Hdone & Hws & Hall & Hdc).
      exists m', a'', ((evs_s ++ evs4) ++ evs), (launched a4 ++ ws).
      split.
      { eapply drive_step; [discriminate|reflexivity| |exact Hd].
        cbn [act_step a1 set_phase act_phase]. rewrite length_map.
        rewrite Nat.eqb_refl. rewrite Hsettle.
        change (act_phase a1) with (AwaitWindow b). fold a'.
        rewrite Hloop4. reflexivity. }
      split; [exact Hdone|]. cbn [launched a1 set_phase act_phase app].
      split; [cbn [List.concat]; rewrite Hws, Hsplit; reflexivity|].
      split; [constructor; assumption|].
      rewrite !data_changes_app in Hdc. rewrite !data_changes_app.
      cbn [emitUpdate data_changes]. rewrite ?data_changes_app. lia.
Qed.

End RunFacts.

Lemma run_task_complete hostname exec cards requestDelay now ty st m fuel :
  bounded m -> isRunning m = false ->
  (2 * List.length cards + 3 <= fuel)%nat ->
  exists m' a' evs ws,
    run_task hostname fuel exec requestDelay now cards ty st m
    = Some (m', a', evs, ws)
    /\ run_done exec cards m' a'
    /\ List.concat ws = cards
    /\ Forall (fun w => (1 <= List.length w <= 5)%nat) ws
    /\ Z.of_nat (data_changes evs) = count_success (map exec cards) + 1.
Proof.
  intros Hb Hrun Hfuel. unfold run_task, start. rewrite Hrun.
  set (t0 := mkTask true (types_of ty) st 0 (Z.of_nat (List.length cards)) 0 0
                    "准备启动..." now [] _ false 0 0).
  set (m1 := set_task (Some t0) (set_abortController (Some false) m)).
  set (a0 := mkActivation cards 0 (baseDelay_of requestDelay) Prologue).
  assert (Hb1 : bounded m1).
  { pose proof (start_bounded now cards ty st m Hb) as H.
    unfold start in H. rewrite Hrun in H. exact H. }
  assert (Hinv : run_inv exec cards 0 m1 a0).
  { unfold run_inv. split; [reflexivity|]. split; [reflexivity|].
    split; [lia|]. split; [exact Hb1|]. split; [discriminate|].
    exists t0. cbn. repeat split. }
  destruct fuel as [|fuel]; [lia|].
  destruct (loop_head hostname m1 a0) as [[m2 a2] evs2] eqn:Hloop.
  destruct (drive_from_loop_head hostname exec cards
              (ConfigLoaded requestDelay) (List.length cards)
              0 m1 a0 m2 a2 evs2 fuel ltac:(lia) Hinv Hloop ltac:(lia))
    as (m' & a' & evs & ws & Hd & Hdone & Hws & Hall & Hdc).
  rewrite (drive_step hostname exec fuel (ConfigLoaded requestDelay)
                      (ConfigLoaded requestDelay) m1
                      (mkActivation cards 0 0 Prologue) m2 a2 evs2 m' a' evs ws);
    [|discriminate|reflexivity| |exact Hd].
  - exists m', a', (emitUpdate m1 ++ evs2 ++ evs), (launched a2 ++ ws).
    split; [reflexivity|]. split; [exact Hdone|]. split; [exact Hws|].
    split; [exact Hall|]. rewrite data_changes_app. cbn [emitUpdate data_changes].
    cbn [Nat.add]. exact Hdc.
  - cbn [act_step act_phase act_cards]. fold a0. rewrite Hloop. reflexivity.
Qed.

(** A scheduler that has ended never acts again: resuming it changes
    nothing.  So on a system where every earlier scheduler has ended, the
    steps of a new task's scheduler are the only ones that touch the
    manager, unless [stop] or [start] is called. *)
Lemma finished_scheduler_is_inert (hostname : string -> option string)
      (s : System) (j : nat) (inp : Input) (a : Activation) :
  nth_error (acts s) j = Some a ->
  act_phase a = Finished ->
  sys_step hostname s (Resume j inp) = (s, []).
Proof.
  intros Hn Hp. cbn [sys_step]. rewrite Hn. unfold act_step. rewrite Hp.
  destruct inp; reflexivity.
Qed.



(** X2. Over such a run the data-change notifier is called once for every
    card that succeeded and exactly once more when the task ends. *)
Theorem notifier_called_per_success_and_once (hostname : string -> option string)
        (exec : Card -> Settled * Z) (cards : list Card)
        (requestDelay : Js.value) (now : Z) (ty : TypesArg) (st : Strategy)
        (m : BatchTaskManager) (fuel : nat) :
  bounded m -> isRunning m = false ->
  (2 * List.length cards + 3 <= fuel)%nat ->
  exists m' a' evs ws,
    run_task hostname fuel exec requestDelay now cards ty st m
    = Some (m', a', evs, ws)
    /\ Z.of_nat (data_changes evs) = count_success (map exec cards) + 1.
Proof.
  intros Hb Hrun Hfuel.
  destruct (run_task_complete hostname exec cards requestDelay now ty st m
                              fuel Hb Hrun Hfuel)
    as (m' & a' & evs & ws & Hr & _ & _ & _ & Hdc).
  exists m', a', evs, ws. split; assumption.
Qed.

Lemma notifier_called_per_success_and_once_witness :
  exists m' a' evs ws,
    run_task no_hostname 9 (fun _ => plain_failure) Js.VUndefined 0
             (firstn 3 ten_cards) (TypesSingle "name") fill_strategy constructor
    = Some (m', a', evs, ws)
    /\ data_changes evs = 1%nat.
Proof.
  assert (Hb : bounded constructor) by (cbv; repeat split; discriminate).
  destruct (notifier_called_per_success_and_once
              no_hostname (fun _ => plain_failure) (firstn 3 ten_cards)
              Js.VUndefined 0 (TypesSingle "name") fill_strategy constructor 9
              Hb eq_refl ltac:(cbn; lia))
    as (m' & a' & evs & ws & Hr & Hdc).
  exists m', a', evs, ws. split; [exact Hr|].
  change (count_success (map (fun _ => plain_failure) (firstn 3 ten_cards)))
    with 0 in Hdc. lia.
Defined.

(* ===================================================================== *)
(** ** stop, and the error log over time *)
(* ===================================================================== *)

(** X3. [stop] is idempotent on the manager's state and always leaves no
    task running; on a manager that never had a task it changes nothing,
    creates no task and publishes nothing. *)
Theorem stop_idempotent (m : BatchTaskManager) :
  fst (stop (fst (stop m))) = fst (stop m)
  /\ isRunning (fst (stop m)) = false
  /\ (task m = None -> task (fst (stop m)) = None /\ snd (stop m) = [])
  /\ (task m = None -> abortController m = None -> stop m = (m, [])).
Proof.
  unfold stop, isRunning.
  destruct m as [[t|] [ab|] mn mx ini]; cbn; repeat split; try reflexivity;
    discriminate.
Qed.

Lemma stop_idempotent_witness :
  stop constructor = (constructor, [])
  /\ task (fst (stop constructor)) = None.
Proof.
  destruct (stop_idempotent constructor) as (_ & _ & Hnone & Hidle).
  split; [exact (Hidle eq_refl eq_refl)|exact (proj1 (Hnone eq_refl))].
Defined.

Lemma apply_result_errors acc rc t :
  task (fst (fst acc)) = Some t ->
  exists t' added,
    task (fst (fst (apply_result acc rc))) = Some t'
    /\ errors t' = errors t ++ added
    /\ (List.length added <= 1)%nat.
Proof.
  destruct acc as [[m tl] evs], rc as [[r now] card]. cbn [fst]. intros Ht.
  unfold apply_result.
  destruct r as [v|reason]; [destruct (success v); [|destruct (rateLimited v)]|];
    cbn [fst snd]; unfold with_task; rewrite Ht; cbn [task set_task];
    case_ifs; eexists _, _; (split; [reflexivity|]); cbn [errors push_error
      set_successCount set_failCount set_current];
    (split; [first [reflexivity | symmetry; apply app_nil_r]|]);
    cbn; lia.
Qed.

Lemma fold_apply_result_errors l acc t :
  task (fst (fst acc)) = Some t ->
  exists t' added,
    task (fst (fst (fold_left apply_result l acc))) = Some t'
    /\ errors t' = errors t ++ added
    /\ (List.length added <= List.length l)%nat.
Proof.
  revert acc t. induction l as [|rc l IH]; intros acc t Ht.
  - exists t, []. cbn. rewrite app_nil_r. repeat split; [exact Ht|lia].
  - cbn [fold_left].
    destruct (apply_result_errors acc rc t Ht) as (t1 & add1 & Ht1 & He1 & Hl1).
    destruct (IH _ t1 Ht1) as (t2 & add2 & Ht2 & He2 & Hl2).
    exists t2, (add1 ++ add2). split; [exact Ht2|].
    split; [rewrite He2, He1, app_assoc; reflexivity|].
    rewrite length_app. cbn [List.length]. lia.
Qed.

(** X4. The error log only grows while a task lives: every resumption of a
    scheduler and every [stop] leaves the task's earlier entries in place,
    in order, and adds at most one entry per member of the window that
    settled (none at all for [stop], a sleep that ends, or the final
    step). *)
Theorem errors_only_grow (hostname : string -> option string)
        (inp : Input) (m : BatchTaskManager) (a : Activation) (t : Task)
        (m' : BatchTaskManager) (a' : Activation) (evs : list Event) :
  task m = Some t ->
  act_step hostname inp m a = Some (m', a', evs) ->
  (exists t' added,
      task m' = Some t' /\ errors t' = errors t ++ added
      /\ (List.length added
          <= match act_phase a with
             | AwaitWindow batch => List.length batch
             | Prologue => 1
             | _ => 0
             end)%nat)
  /\ exists t'', task (fst (stop m)) = Some t'' /\ errors t'' = errors t.
Proof.
  intros Ht Hstep. split.
  2:{ rewrite (stop_task m t Ht). eexists. split; reflexivity. }
  assert (Hloop : forall m0 a0 t0,
             task m0 = Some t0 ->
             exists t1, task (fst (fst (loop_head hostname m0 a0))) = Some t1
                        /\ errors t1 = errors t0).
  { intros m0 a0 t0 Ht0. unfold loop_head, enter_finally.
    rewrite Ht0. case_ifs; cbn; eexists; split; eauto. }
  unfold act_step in Hstep.
  destruct (act_phase a) as [|batch|d| |], inp as [rd|msg now|results|];
    try discriminate.
  - injection Hstep as Hstep.
    destruct (Hloop m (mkActivation (act_cards a) 0 (baseDelay_of rd) Prologue)
                    t Ht) as (t1 & Ht1 & He1).
    rewrite Hstep in Ht1. cbn [fst] in Ht1.
    exists t1, []. rewrite app_nil_r. repeat split; [exact Ht1|exact He1|cbn; lia].
  - injection Hstep as Hstep.
    apply (f_equal (fun x => fst (fst x))) in Hstep.
    rewrite enter_finally_mgr in Hstep. cbn [fst] in Hstep. subst m'.
    unfold catch_block, with_task. rewrite Ht. cbn.
    eexists _, [_]. repeat split. cbn. lia.
  - destruct (Nat.eqb_spec (List.length results) (List.length batch)) as [Hlen|];
      [|discriminate].
    injection Hstep as Hstep. unfold settle_window in Hstep.
    destruct (fold_apply_result_errors (combine results batch)
                                       (m, mkTally 0 0 false, []) t Ht)
      as (t1 & added & Ht1 & He1 & Hl1).
    fold (apply_results m results batch) in Ht1.
    destruct (apply_results m results batch) as [[m1 tl] evs1].
    cbn [fst] in Ht1.
    destruct (adjustConcurrency_task (batchSuccess tl) (batchFail tl)
                                     (hasRateLimit tl) m1 t1 Ht1)
      as (t2 & Ht2 & _ & Hbk).
    assert (He2 : errors t2 = errors t1) by apply Hbk.
    rewrite length_combine_same in Hl1 by exact Hlen.
    destruct ((_ <? _) && _).
    + injection Hstep as <- _ _. exists t2, added.
      repeat split; [exact Ht2|congruence|lia].
    + match type of Hstep with context [loop_head ?h ?x ?y] =>
        destruct (Hloop x y t2 Ht2) as (t3 & Ht3 & He3);
        destruct (loop_head h x y) as [[m3 a3] evs3] end.
      injection Hstep as <- _ _. cbn [fst] in Ht3. exists t3, added.
      repeat split; [exact Ht3|congruence|lia].
  - injection Hstep as Hstep. destruct (Hloop m a t Ht) as (t1 & Ht1 & He1).
    rewrite Hstep in Ht1. cbn [fst] in Ht1.
    exists t1, []. rewrite app_nil_r. repeat split; [exact Ht1|exact He1|cbn; lia].
  - injection Hstep as <- _ _. unfold with_task. rewrite Ht. cbn.
    eexists _, []. rewrite app_nil_r. repeat split. cbn. lia.
Qed.

Lemma errors_only_grow_witness :
  exists m' a' evs t',
    act_step no_hostname
             (WindowSettled [all_succeed (sample_card 1); throttled_failure;
                             plain_failure])
             (mgr in_flight_system)
             (mkActivation ten_cards 0 1500 (AwaitWindow (firstn 3 ten_cards)))
    = Some (m', a', evs)
    /\ task m' = Some t'
    /\ (List.length (errors t') <= 3)%nat.
Proof.
  assert (Ht : exists t, task (mgr in_flight_system) = Some t /\ errors t = [])
    by (eexists; vm_compute; split; reflexivity).
  destruct Ht as (t & Ht & He).
  destruct (act_step no_hostname
              (WindowSettled [all_succeed (sample_card 1); throttled_failure;
                              plain_failure])
              (mgr in_flight_system)
              (mkActivation ten_cards 0 1500 (AwaitWindow (firstn 3 ten_cards))))
    as [[[m' a'] evs]|] eqn:Hstep; [|vm_compute in Hstep; discriminate].
  destruct (errors_only_grow no_hostname _ _ _ t m' a' evs Ht Hstep)
    as ((t' & added & Ht' & He' & Hl) & _).
  exists m', a', evs, t'. split; [reflexivity|]. split; [exact Ht'|].
  rewrite He', He. cbn in Hl |- *. exact Hl.
Defined.

(* ===================================================================== *)
(** ** Bounds of the retrying executor *)
(* ===================================================================== *)

(** X5. Whatever the processor does, an item is attempted at most three
    times: the sleeps requested are none, 2000 ms, or 2000 ms then 4000 ms.
    A retry only follows a rate-limit error; a success is never flagged
    [rateLimited]; and a failure flagged [rateLimited] is only reported
    after both retries were used. *)
Theorem retries_are_bounded (gen : Z -> GenOutcome) :
  let r := fst (processCardWithRetry gen 0) in
  let sleeps := snd (processCardWithRetry gen 0) in
  (sleeps = [] \/ sleeps = [2000] \/ sleeps = [2000; 4000])
  /\ (sleeps <> [] ->
      exists e, gen 0 = Throws e /\ isRateLimitError e = true)
  /\ (success r = true -> rateLimited r = false /\ item_error r = None)
  /\ (success r = false -> rateLimited r = true -> sleeps = [2000; 4000])
  /\ (success r = false -> rateLimited r = false ->
      exists k e, 0 <= k <= 2 /\ gen k = Throws e
                  /\ isRateLimitError e = false /\ item_error r = message e).
Proof.
  cbv zeta.
  assert (Hlast : forall k,
             k = 2 ->
             (exists u pe, gen k = Returns u pe
                           /\ processCardWithRetry gen k
                              = (mkItemResult true (Some u) false pe None, []))
             \/ (exists e, gen k = Throws e
                           /\ processCardWithRetry gen k
                              = (mkItemResult false None (isRateLimitError e)
                                              None (message e), []))).
  { intros k ->. destruct (gen 2) as [u pe|e] eqn:Hg.
    - left. exists u, pe. split; [reflexivity|].
      apply processCardWithRetry_returns, Hg.
    - right. exists e. split; [reflexivity|].
      apply processCardWithRetry_gives_up; [exact Hg|].
      rewrite andb_false_r. reflexivity. }
  assert (Hstep : forall k,
             0 <= k < 2 ->
             (exists u pe, gen k = Returns u pe
                           /\ processCardWithRetry gen k
                              = (mkItemResult true (Some u) false pe None, []))
             \/ (exists e, gen k = Throws e /\ isRateLimitError e = false
                           /\ processCardWithRetry gen k
                              = (mkItemResult false None false None (message e), []))
             \/ (exists e, gen k = Throws e /\ isRateLimitError e = true
                           /\ processCardWithRetry gen k
                              = (fst (processCardWithRetry gen (k + 1)),
                                 2 ^ (k + 1) * 1000
                                 :: snd (processCardWithRetry gen (k + 1))))).
  { intros k Hk. destruct (gen k) as [u pe|e] eqn:Hg.
    - left. exists u, pe. split; [reflexivity|].
      apply processCardWithRetry_returns, Hg.
    - right. destruct (isRateLimitError e) eqn:He.
      + right. exists e. split; [reflexivity|]. split; [exact He|].
        apply (processCardWithRetry_retry gen k e);
          [exact Hg|exact He|unfold maxRetries; lia].
      + left. exists e. split; [reflexivity|]. split; [exact He|].
        rewrite (processCardWithRetry_gives_up gen k e Hg) by (rewrite He; reflexivity).
        rewrite He. reflexivity. }
  destruct (Hstep 0 ltac:(lia))
    as [(u & pe & Hg0 & ->)|[(e0 & Hg0 & He0 & ->)|(e0 & Hg0 & He0 & ->)]];
    cbn [fst snd success rateLimited item_error].
  1:{ repeat split; auto; try discriminate; congruence. }
  1:{ repeat split; auto; try discriminate; try congruence.
      intros _ _. exists 0, e0. repeat split; auto; lia. }
  change (0 + 1) with 1. change (2 ^ 1 * 1000) with 2000.
  destruct (Hstep 1 ltac:(lia))
    as [(u & pe & Hg1 & ->)|[(e1 & Hg1 & He1 & ->)|(e1 & Hg1 & He1 & ->)]];
    cbn [fst snd success rateLimited item_error].
  1:{ repeat split; auto; try discriminate; try congruence.
      intros _. exists e0. auto. }
  1:{ repeat split; auto; try discriminate; try congruence.
      - intros _. exists e0. auto.
      - intros _ _. exists 1, e1. repeat split; auto; lia. }
  change (1 + 1) with 2. change (2 ^ 2 * 1000) with 4000.
  destruct (Hlast 2 eq_refl) as [(u & pe & Hg2 & ->)|(e2 & Hg2 & ->)];
    cbn [fst snd success rateLimited item_error].
  1:{ repeat split; auto; try discriminate; try congruence.
      intros _. exists e0. auto. }
  repeat split; auto; try discriminate.
  - intros _. exists e0. auto.
  - intros _ Hrl. exists 2, e2. repeat split; auto; lia.
Qed.

(* ===================================================================== *)
(** ** Shape of the additive-increase / multiplicative-decrease policy *)
(* ===================================================================== *)

Lemma half_bounds c : 1 <= c <= 5 -> 1 <= Z.max 1 (c / 2) <= 2.
Proof.
  intros H.
  assert (0 <= c / 2) by (apply Z.div_pos; lia).
  assert (c / 2 < 3) by (apply Z.div_lt_upper_bound; lia).
  lia.
Qed.

Lemma half_smaller c : 2 <= c -> Z.max 1 (c / 2) < c.
Proof.
  intros H.
  assert (c / 2 < c) by (apply Z.div_lt_upper_bound; lia).
  lia.
Qed.

Lemma rate_limited_adjustment sc fc m t t' :
  bounded m -> task m = Some t ->
  task (adjustConcurrency sc fc true m) = Some t' ->
  concurrency t' = Z.max 1 (concurrency t / 2)
  /\ 1 <= concurrency t' <= 2
  /\ concurrency t' <= concurrency t
  /\ (concurrency t' < concurrency t \/ concurrency t = 1).
Proof.
  intros (Hmin & _ & _ & Hc) Ht. rewrite Ht in Hc.
  unfold adjustConcurrency. rewrite Ht, Hmin.
  intros H. injection H as <-. cbn.
  pose proof (half_bounds (concurrency t) Hc) as Hh.
  split; [reflexivity|]. split; [exact Hh|].
  destruct (Z.eq_dec (concurrency t) 1) as [H1|H1].
  - rewrite H1. cbn. lia.
  - pose proof (half_smaller (concurrency t) ltac:(lia)). lia.
Qed.

(** X6. One adjustment moves the concurrency one way only: a rate-limited
    window never raises it, strictly lowers it unless it is already 1, and
    leaves it at 2 or less; any other window never lowers it and raises it
    by at most 1. *)
Theorem adjustment_moves_one_way (sc fc : Z) (rl : bool)
        (m : BatchTaskManager) (t t' : Task) :
  bounded m ->
  task m = Some t ->
  task (adjustConcurrency sc fc rl m) = Some t' ->
  (rl = true ->
   concurrency t' <= concurrency t
   /\ (concurrency t' < concurrency t \/ concurrency t = 1)
   /\ concurrency t' <= 2)
  /\ (rl = false -> concurrency t <= concurrency t' <= concurrency t + 1).
Proof.
  intros Hb Ht. destruct rl.
  - intros H. split; [|intros; discriminate]. intros _.
    destruct (rate_limited_adjustment sc fc m t t' Hb Ht H)
      as (_ & Hr & Hle & Hlt).
    repeat split; [exact Hle|exact Hlt|lia].
  - destruct Hb as (Hmin & Hmax & _ & Hc). rewrite Ht in Hc.
    unfold adjustConcurrency. rewrite Ht, Hmax.
    split; [intros; discriminate|]. intros _. revert H.
    case_ifs; intros H; injection H as <-; cbn; lia.
Qed.

Lemma adjustment_moves_one_way_witness :
  exists t',
    task (adjustConcurrency 3 0 false (mgr in_flight_system)) = Some t'
    /\ 3 <= concurrency t' <= 4.
Proof.
  assert (Hb : bounded (mgr in_flight_system))
    by (vm_compute; repeat split; discriminate).
  assert (Ht : exists t, task (mgr in_flight_system) = Some t
                         /\ concurrency t = 3)
    by (eexists; vm_compute; split; reflexivity).
  destruct Ht as (t & Ht & Hc).
  destruct (task (adjustConcurrency 3 0 false (mgr in_flight_system)))
    as [t'|] eqn:Ht'; [|vm_compute in Ht'; discriminate].
  exists t'. split; [reflexivity|].
  destruct (adjustment_moves_one_way 3 0 false (mgr in_flight_system) t t'
                                     Hb Ht Ht') as (_ & Hup).
  pose proof (Hup eq_refl) as H. rewrite Hc in H. exact H.
Defined.

Lemma adjust_all_cons w ws m :
  adjust_all (w :: ws) m
  = adjust_all ws (adjustConcurrency (fst (fst w)) (snd (fst w)) (snd w) m).
Proof. reflexivity. Qed.

Lemma adjust_all_serial_stays ws : forall m t,
  bounded m -> task m = Some t -> concurrency t = 1 ->
  forallb (fun w => snd w) ws = true ->
  option_map concurrency (task (adjust_all ws m)) = Some 1.
Proof.
  induction ws as [|[[sc fc] rl] ws IH]; intros m t Hb Ht Hc Hall.
  - cbn. rewrite Ht. cbn. congruence.
  - cbn [forallb snd] in Hall. apply andb_prop in Hall as [-> Hall].
    rewrite adjust_all_cons. cbn [fst snd].
    destruct (adjustConcurrency_task sc fc true m t Ht) as (t' & Ht' & _).
    apply (IH _ t'); [apply adjustConcurrency_bounded, Hb|exact Ht'| |exact Hall].
    unfold adjustConcurrency in Ht'. rewrite Ht in Ht'. injection Ht' as <-.
    destruct Hb as (-> & _). cbn. rewrite Hc. reflexivity.
Qed.

(** X7. Two rate-limited windows in a row are enough to reach serial
    processing from any concurrency, and further rate-limited windows keep
    it there. *)
Theorem two_throttles_reach_serial (ws : list (Z * Z * bool))
        (m : BatchTaskManager) (t : Task) :
  bounded m ->
  task m = Some t ->
  (2 <= List.length ws)%nat ->
  forallb (fun w => snd w) ws = true ->
  option_map concurrency (task (adjust_all ws m)) = Some 1.
Proof.
  intros Hb Ht Hlen Hall.
  destruct ws as [|[[sc1 fc1] rl1] [|[[sc2 fc2] rl2] ws]]; cbn in Hlen; try lia.
  cbn [forallb snd] in Hall.
  apply andb_prop in Hall as [-> Hall]. apply andb_prop in Hall as [-> Hall].
  rewrite !adjust_all_cons. cbn [fst snd].
  destruct (adjustConcurrency_task sc1 fc1 true m t Ht) as (t1 & Ht1 & _).
  pose proof (adjustConcurrency_bounded sc1 fc1 true m Hb) as Hb1.
  destruct (adjustConcurrency_task sc2 fc2 true _ t1 Ht1) as (t2 & Ht2 & _).
  pose proof (adjustConcurrency_bounded sc2 fc2 true _ Hb1) as Hb2.
  apply (adjust_all_serial_stays ws _ t2 Hb2 Ht2); [|exact Hall].
  destruct (rate_limited_adjustment sc1 fc1 m t t1 Hb Ht Ht1) as (_ & Hc1 & _).
  destruct (rate_limited_adjustment sc2 fc2 _ t1 t2 Hb1 Ht1 Ht2) as (-> & _).
  assert (concurrency t1 / 2 < 2) by (apply Z.div_lt_upper_bound; lia).
  assert (0 <= concurrency t1 / 2) by (apply Z.div_pos; lia).
  lia.
Qed.

Lemma two_throttles_reach_serial_witness :
  option_map concurrency
    (task (adjust_all [(2, 1, true); (0, 1, true); (0, 1, true)]
                      (mgr in_flight_system)))
  = Some 1.
Proof.
  assert (Hb : bounded (mgr in_flight_system))
    by (vm_compute; repeat split; discriminate).
  assert (Ht : exists t, task (mgr in_flight_system) = Some t)
    by (eexists; vm_compute; reflexivity).
  destruct Ht as (t & Ht).
  apply (two_throttles_reach_serial _ (mgr in_flight_system) t Hb Ht);
    [cbn; lia|reflexivity].
Defined.

(** *** Invariants that only depend on the policy state *)

Section ViewInvariant.

Variable hostname : string -> option string.
Variable P : BatchTaskManager -> Prop.
Hypothesis P_view : forall m m', policy_view m = policy_view m' -> P m -> P m'.
Hypothesis P_adjust : forall sc fc rl m, P m -> P (adjustConcurrency sc fc rl m).
Hypothesis P_start :
  forall now cards ty st m, P m -> P (snd (fst (start now cards ty st m))).

Lemma act_step_view_invariant inp m a m' a' evs :
  act_step hostname inp m a = Some (m', a', evs) -> P m -> P m'.
Proof.
  unfold act_step. intros H Hp.
  destruct (act_phase a) as [|batch|d| |], inp as [rd|msg now|results|];
    try discriminate;
    try (destruct (_ =? _)%nat; [|discriminate]);
    apply (f_equal (option_map (fun x => fst (fst x)))) in H;
    cbn [option_map fst] in H; injection H as <-.
  - eapply P_view; [symmetry; apply loop_head_view|exact Hp].
  - rewrite enter_finally_mgr.
    eapply P_view; [symmetry; apply catch_block_view|exact Hp].
  - eapply P_view; [symmetry; apply settle_window_view|].
    apply P_adjust, Hp.
  - eapply P_view; [symmetry; apply loop_head_view|exact Hp].
  - eapply P_view; [symmetry; apply (finalize_view m a)|exact Hp].
Qed.

Lemma sys_step_view_invariant s act :
  P (mgr s) -> P (mgr (fst (sys_step hostname s act))).
Proof.
  intros Hp. destruct act as [now cards ty st| |i inp|msg now]; cbn [sys_step].
  - pose proof (P_start now cards ty st (mgr s) Hp) as H.
    destruct (start now cards ty st (mgr s)) as [[[msg|n] m'] evs]; exact H.
  - pose proof (stop_view (mgr s)) as H.
    destruct (stop (mgr s)) as [m' evs]. cbn [fst mgr] in *.
    eapply P_view; [symmetry; exact H|exact Hp].
  - destruct (nth_error (acts s) i) as [a|]; [|exact Hp].
    destruct (act_step hostname inp (mgr s) a) as [[[m' a'] evs]|] eqn:E;
      [|exact Hp].
    cbn [fst mgr]. eapply act_step_view_invariant; eauto.
  - pose proof (on_runTask_rejected_view msg now (mgr s)) as H.
    destruct (on_runTask_rejected msg now (mgr s)) as [m' evs].
    cbn [fst mgr] in *.
    eapply P_view; [symmetry; exact H|exact Hp].
Qed.

Lemma reachable_view_invariant s :
  P constructor -> reachable hostname s -> P (mgr s).
Proof.
  intros H0 [l <-]. change constructor with (mgr initial) in H0.
  generalize dependent initial. induction l as [|act l IH]; intros s0 Hp.
  - exact Hp.
  - cbn [sys_run]. pose proof (sys_step_view_invariant s0 act Hp) as H1.
    destruct (sys_step hostname s0 act) as [s1 evs1]. cbn [fst] in H1.
    specialize (IH s1 H1). destruct (sys_run hostname s1 l) as [s2 evs2].
    exact IH.
Qed.

End ViewInvariant.

Lemma counters_sane_view m m' :
  policy_view m = policy_view m' -> counters_sane m -> counters_sane m'.
Proof.
  intros Hv (Hb & Hc). split; [eapply bounded_view; eauto|].
  unfold policy_view in Hv.
  destruct (task m) as [t|], (task m') as [t'|]; cbn in Hv; try discriminate;
    [|exact I].
  injection Hv as _ _ _ H1 _ H3 H4. rewrite <- H1, <- H3, <- H4. exact Hc.
Qed.

Lemma counters_sane_adjust sc fc rl m :
  counters_sane m -> counters_sane (adjustConcurrency sc fc rl m).
Proof.
  intros (Hb & Hc). split; [apply adjustConcurrency_bounded, Hb|].
  destruct Hb as (Hmin & Hmax & _ & Hbc).
  unfold adjustConcurrency.
  destruct (task m) as [t|] eqn:Ht; [|rewrite Ht; exact I].
  rewrite Hmax.
  destruct rl; [|destruct (_ && (fc =? 0));
                  [destruct ((3 <=? _) && _) eqn:Hup|]]; cbn; lia.
Qed.

Lemma counters_sane_start now cards ty st m :
  counters_sane m -> counters_sane (snd (fst (start now cards ty st m))).
Proof.
  intros Hs. split; [apply start_bounded, Hs|].
  unfold start. destruct (isRunning m); [apply Hs|]. cbn. lia.
Qed.

(** X8. In every state the system can reach, the clean streak and the
    rate-limit count are never negative, and the streak is at most 2
    whenever the concurrency is below its maximum: the third clean window
    in a row is always spent on an increase. *)
Theorem counters_stay_sane (hostname : string -> option string) (s : System)
        (t : Task) :
  reachable hostname s ->
  task (mgr s) = Some t ->
  0 <= consecutiveSuccesses t /\ 0 <= rateLimitCount t
  /\ (concurrency t < 5 -> consecutiveSuccesses t <= 2).
Proof.
  intros Hr Ht.
  assert (H : counters_sane (mgr s)).
  { apply (reachable_view_invariant hostname counters_sane);
      [exact counters_sane_view|exact counters_sane_adjust
      |exact counters_sane_start| |exact Hr].
    split; [|exact I]. unfold bounded. cbn. repeat split; reflexivity. }
  destruct H as (_ & H). rewrite Ht in H. exact H.
Qed.

Lemma counters_stay_sane_witness :
  exists t, task (mgr throttled_system) = Some t
            /\ 0 <= consecutiveSuccesses t /\ 0 <= rateLimitCount t.
Proof.
  assert (Hr : reachable no_hostname throttled_system)
    by (exists throttled_actions; unfold throttled_system; reflexivity).
  assert (Ht : exists t, task (mgr throttled_system) = Some t)
    by (eexists; vm_compute; reflexivity).
  destruct Ht as (t & Ht). exists t. split; [exact Ht|].
  destruct (counters_stay_sane no_hostname throttled_system t Hr Ht)
    as (H1 & H2 & _).
  split; assumption.
Defined.

Lemma count_rate_limited_cons w ws :
  count_rate_limited (w :: ws)
  = (if snd w then 1 else 0) + count_rate_limited ws.
Proof.
  unfold count_rate_limited. cbn [filter].
  destruct (snd w); cbn [List.length]; lia.
Qed.

(** X9. Over any sequence of windows of one task, [rateLimitCount] rises by
    exactly the number of rate-limited windows: it is never reset or
    lowered by clean or mixed windows, so the back-off delay grows with
    every throttle the task has seen. *)
Theorem rate_limit_count_accumulates (ws : list (Z * Z * bool))
        (m : BatchTaskManager) (t : Task) :
  task m = Some t ->
  option_map rateLimitCount (task (adjust_all ws m))
  = Some (rateLimitCount t + count_rate_limited ws).
Proof.
  revert m t. induction ws as [|[[sc fc] rl] ws IH]; intros m t Ht.
  - cbn. rewrite Ht. cbn. f_equal. unfold count_rate_limited. cbn. lia.
  - rewrite adjust_all_cons, count_rate_limited_cons. cbn [fst snd].
    destruct (adjustConcurrency_task sc fc rl m t Ht) as (t' & Ht' & _).
    rewrite (IH _ t' Ht'). f_equal.
    unfold adjustConcurrency in Ht'. rewrite Ht in Ht'.
    revert Ht'. case_ifs; intros H; injection H as <-;
      cbn [rateLimitCount set_adaptive]; lia.
Qed.

Lemma rate_limit_count_accumulates_witness :
  option_map rateLimitCount
    (task (adjust_all [(3, 0, false); (1, 2, true); (0, 1, false); (0, 1, true)]
                      (mgr throttled_system)))
  = Some 3.
Proof.
  assert (Ht : exists t, task (mgr throttled_system) = Some t
                         /\ rateLimitCount t = 1)
    by (eexists; vm_compute; split; reflexivity).
  destruct Ht as (t & Ht & Hn).
  rewrite (rate_limit_count_accumulates _ (mgr throttled_system) t Ht), Hn.
  reflexivity.
Defined.

Lemma adjust_all_task ws : forall m t,
  task m = Some t -> exists t', task (adjust_all ws m) = Some t'.
Proof.
  induction ws as [|[[sc fc] rl] ws IH]; intros m t Ht; [exists t; exact Ht|].
  rewrite adjust_all_cons. cbn [fst snd].
  destruct (adjustConcurrency_task sc fc rl m t Ht) as (t' & Ht' & _).
  apply (IH _ t' Ht').
Qed.

Lemma recovery_potential_step sc fc rl m :
  counters_sane m ->
  recovery_potential (adjustConcurrency sc fc rl m) <= recovery_potential m + 1.
Proof.
  intros ((Hmin & Hmax & _ & Hbc) & Hc).
  unfold recovery_potential, adjustConcurrency.
  destruct (task m) as [t|] eqn:Ht; [|rewrite Ht; lia].
  rewrite Hmin, Hmax.
  pose proof (half_bounds (concurrency t) Hbc) as Hh.
  assert (Hle : Z.max 1 (concurrency t / 2) <= concurrency t).
  { destruct (Z.eq_dec (concurrency t) 1) as [->|]; [cbn; lia|].
    pose proof (half_smaller (concurrency t) ltac:(lia)). lia. }
  destruct rl; [|destruct (_ && (fc =? 0));
                  [destruct ((3 <=? _) && _) eqn:Hup|]];
    cbn [task set_task concurrency consecutiveSuccesses set_adaptive
         maxConcurrency];
    repeat match goal with
           | |- context [if ?b then _ else _] => destruct b eqn:?
           end; lia.
Qed.

Lemma recovery_potential_bounds m t :
  counters_sane m -> task m = Some t ->
  3 * concurrency t <= recovery_potential m <= 3 * concurrency t + 2.
Proof.
  intros ((_ & Hmax & _) & Hc) Ht. unfold recovery_potential.
  rewrite Ht in *. rewrite Hmax.
  destruct (concurrency t <? 5) eqn:?; lia.
Qed.

Lemma adjust_all_potential ws : forall m,
  counters_sane m ->
  counters_sane (adjust_all ws m)
  /\ recovery_potential (adjust_all ws m)
     <= recovery_potential m + Z.of_nat (List.length ws).
Proof.
  induction ws as [|[[sc fc] rl] ws IH]; intros m Hs.
  - cbn. split; [exact Hs|lia].
  - rewrite adjust_all_cons. cbn [fst snd].
    destruct (IH _ (counters_sane_adjust sc fc rl m Hs)) as (Hs' & Hp).
    split; [exact Hs'|].
    pose proof (recovery_potential_step sc fc rl m Hs).
    cbn [List.length]. lia.
Qed.

(** X10. Recovery is slow: over any [n] further windows, whatever their
    outcomes, the concurrency rises by at most [(n + 2) / 3] levels, so it
    takes at least three windows per extra level once the streak is
    spent. *)
Theorem recovery_is_slow (hostname : string -> option string) (s : System)
        (ws : list (Z * Z * bool)) (t : Task) :
  reachable hostname s ->
  task (mgr s) = Some t ->
  exists t',
    task (adjust_all ws (mgr s)) = Some t'
    /\ concurrency t'
       <= concurrency t + (Z.of_nat (List.length ws) + 2) / 3.
Proof.
  intros Hr Ht.
  assert (Hs : counters_sane (mgr s)).
  { apply (reachable_view_invariant hostname counters_sane);
      [exact counters_sane_view|exact counters_sane_adjust
      |exact counters_sane_start| |exact Hr].
    split; [|exact I]. unfold bounded. cbn. repeat split; reflexivity. }
  destruct (adjust_all_potential ws (mgr s) Hs) as (Hs' & Hp).
  destruct (adjust_all_task ws (mgr s) t Ht) as (t' & Ht').
  exists t'. split; [exact Ht'|].
  pose proof (recovery_potential_bounds _ t Hs Ht).
  pose proof (recovery_potential_bounds _ t' Hs' Ht').
  assert (concurrency t' - concurrency t
          <= (Z.of_nat (List.length ws) + 2) / 3)
    by (apply Z.div_le_lower_bound; lia).
  lia.
Qed.

Lemma recovery_is_slow_witness :
  exists t',
    task (adjust_all [(3, 0, false); (3, 0, false); (3, 0, false); (4, 0, false)]
                     (mgr in_flight_system)) = Some t'
    /\ concurrency t' <= 5.
Proof.
  assert (Hr : reachable no_hostname in_flight_system)
    by (eexists [start_ten; Resume 0 (ConfigLoaded (Js.VString "1500"))];
        unfold in_flight_system; reflexivity).
  assert (Ht : exists t, task (mgr in_flight_system) = Some t
                         /\ concurrency t = 3)
    by (eexists; vm_compute; split; reflexivity).
  destruct Ht as (t & Ht & Hc).
  destruct (recovery_is_slow no_hostname in_flight_system
              [(3, 0, false); (3, 0, false); (3, 0, false); (4, 0, false)]
              t Hr Ht) as (t' & Ht' & Hle).
  exists t'. split; [exact Ht'|]. rewrite Hc in Hle. cbn in Hle. exact Hle.
Defined.

(* ===================================================================== *)
(** ** Bounds of the delay between windows *)
(* ===================================================================== *)

Lemma throttled_delay_bounds b k :
  500 <= b <= 10000 -> 0 <= k <= 4 ->
  (inject_Z b <= Qmin (inject_Z b * inject_Z 2 ^ k) (inject_Z 30000))%Q
  /\ (Qmin (inject_Z b * inject_Z 2 ^ k) (inject_Z 30000) <= inject_Z 30000)%Q.
Proof.
  intros Hb Hk.
  assert (Hc : k = 0 \/ k = 1 \/ k = 2 \/ k = 3 \/ k = 4) by lia.
  split; [|apply Q.le_min_r].
  apply Q.min_glb; [|unfold Qle; cbn; lia].
  destruct Hc as [->|[->|[->|[->| ->]]]]; unfold Qle; cbn; lia.
Qed.

Lemma parallel_delay_bounds b :
  500 <= b <= 10000 ->
  (inject_Z 250 <= Qmax (inject_Z 200) (inject_Z b / inject_Z 2))%Q
  /\ (Qmax (inject_Z 200) (inject_Z b / inject_Z 2) <= inject_Z b)%Q.
Proof.
  intros Hb. split.
  - eapply Qle_trans; [|apply Q.le_max_r]. unfold Qle; cbn; lia.
  - apply Q.max_lub; unfold Qle; cbn; lia.
Qed.

(** X11. For every stored [requestDelay], the pause the scheduler computes
    between two windows lies between 250 ms and 30 s; after a rate-limited
    window it is never shorter than the base delay, and otherwise never
    longer. *)
Theorem delay_within_bounds (requestDelay : Js.value) (rl : bool)
        (m : BatchTaskManager) (t : Task) :
  task m = Some t ->
  0 <= rateLimitCount t ->
  let base := baseDelay_of requestDelay in
  (inject_Z 250 <= calculateDelay base rl m)%Q
  /\ (calculateDelay base rl m <= inject_Z 30000)%Q
  /\ (calculateDelay base false m <= inject_Z base)%Q
  /\ (inject_Z base <= calculateDelay base true m)%Q.
Proof.
  intros Ht Hn. cbv zeta.
  assert (Hb : 500 <= baseDelay_of requestDelay <= 10000)
    by (unfold baseDelay_of; lia).
  set (b := baseDelay_of requestDelay) in *.
  destruct (throttled_delay_bounds b (Z.min (rateLimitCount t) 4) Hb
                                   ltac:(lia)) as (Ht1 & Ht2).
  destruct (parallel_delay_bounds b Hb) as (Hp1 & Hp2).
  assert (Hbq : (inject_Z 250 <= inject_Z b)%Q /\ (inject_Z b <= inject_Z 30000)%Q)
    by (unfold Qle; cbn; lia).
  unfold calculateDelay. rewrite Ht. cbv zeta.
  destruct rl; (destruct (concurrency t =? 1));
    repeat split;
    first [ assumption | apply Hbq | apply Qle_refl
          | eapply Qle_trans; [apply Hbq|exact Ht1]
          | eapply Qle_trans; [exact Hp2|apply Hbq] ].
Qed.

Lemma delay_within_bounds_witness :
  (inject_Z 250 <= calculateDelay (baseDelay_of (Js.VString "9000")) true
                                  (mgr throttled_system))%Q
  /\ (calculateDelay (baseDelay_of (Js.VString "9000")) true
                     (mgr throttled_system) <= inject_Z 30000)%Q.
Proof.
  assert (Ht : exists t, task (mgr throttled_system) = Some t
                         /\ 0 <= rateLimitCount t)
    by (eexists; vm_compute; split; [reflexivity|discriminate]).
  destruct Ht as (t & Ht & Hn).
  destruct (delay_within_bounds (Js.VString "9000") true
                                (mgr throttled_system) t Ht Hn)
    as (H1 & H2 & _).
  split; assumption.
Defined.

(* ===================================================================== *)
(** ** The configuration check and the request it allows *)
(* ===================================================================== *)

Lemma lookup_provider_own key pc :
  lookup_provider key = Own pc -> In (key, pc) AI_PROVIDERS.
Proof.
  unfold lookup_provider.
  destruct (find _ AI_PROVIDERS) as [[k v]|] eqn:Hf.
  - intros H. injection H as <-. apply find_some in Hf as [Hin Heq].
    cbn [fst] in Heq. apply String.eqb_eq in Heq. subst k. exact Hin.
  - destruct (existsb _ _); discriminate.
Qed.

(** X12. A configuration that [validateAIConfig] accepts for a provider of
    the table carries an API key unless the provider is ollama, and
    [callAI] then gets as far as a request with a non-empty base URL and
    model name; the one exception is the custom provider without a model
    name, which the check accepts and [callAI] rejects. *)
Theorem validated_config_reaches_a_backend (c : AIConfig) (pc : ProviderConfig) :
  validateAIConfig c = Valid ->
  lookup_provider (template (cfg_provider c)) = Own pc ->
  (cfg_provider c = Some "ollama" \/ Js.truthy (cfg_apiKey c) = true)
  /\ ((exists backend base model,
          callAI_preflight c = Request backend base model
          /\ base <> "" /\ model <> "")
      \/ (cfg_provider c = Some "custom"
          /\ Js.truthy (cfg_model c) = false
          /\ callAI_preflight c = PreflightError "请配置模型名称")).
Proof.
  intros Hv Hl. destruct c as [prov key base model].
  destruct prov as [p|]; [|discriminate Hv].
  cbn [cfg_provider template] in *.
  apply lookup_provider_own in Hl. cbn in Hl.
  repeat (destruct Hl as [Hl|Hl]; [injection Hl as <- <-|]); try contradiction;
    destruct key as [[|k1 ks]|]; try discriminate Hv;
    destruct base as [[|b1 bs]|]; try discriminate Hv;
    destruct model as [[|m1 ms]|];
    (split;
     [first [left; reflexivity | right; reflexivity]
     |first [left; do 3 eexists; split; [reflexivity|split; discriminate]
            |right; repeat split; reflexivity]]).
Qed.

Lemma validated_config_reaches_a_backend_witness :
  exists backend base model,
    callAI_preflight (mkAIConfig (Some "deepseek") (Some "sk-1") None None)
    = Request backend base model
    /\ base <> "" /\ model <> "".
Proof.
  destruct (validated_config_reaches_a_backend
              (mkAIConfig (Some "deepseek") (Some "sk-1") None None)
              (mkProvider "DeepSeek" "https://api.deepseek.com" "deepseek-chat"
                          true false)
              eq_refl eq_refl) as (_ & [H|(H & _)]); [exact H|discriminate H].
Defined.

(* ===================================================================== *)
(** ** Outcomes of the field generator *)
(* ===================================================================== *)

Lemma append_nonempty_r (a b : string) : b <> "" -> (a ++ b)%string <> "".
Proof.
  intros Hb. destruct a; cbn; [exact Hb|discriminate].
Qed.

Lemma concat_nonempty sep (x : string) l :
  x <> "" -> String.concat sep (x :: l) <> "".
Proof.
  intros Hx. destruct l as [|y l]; cbn; [exact Hx|].
  destruct x; [congruence|cbn; discriminate].
Qed.

Lemma partial_message_nonempty errs :
  errs <> [] -> Js.truthy (Some (partial_message errs)) = true.
Proof.
  destruct errs as [|[ty e] errs]; [congruence|]. intros _.
  unfold partial_message, Js.join. cbn [map fst].
  pose proof (concat_nonempty ", " (ty ++ "失败")
                (map (fun fe => (fst fe ++ "失败")%string) errs)
                (append_nonempty_r ty "失败" ltac:(discriminate))) as H.
  destruct (String.concat _ _); [congruence|reflexivity].
Qed.

(** The loop keeps what was gathered before it and can only set
    [updated]; with several needed fields it never rethrows. *)
Lemma field_loop_several field tys : forall pos u errs calls,
  exists u' errs' calls',
    field_loop false field pos tys u errs calls
    = inl (u', errs ++ errs', calls ++ calls')
    /\ (u = true -> u' = true)
    /\ (List.length calls' <= List.length tys)%nat.
Proof.
  induction tys as [|ty tys IH]; intros pos u errs calls.
  - exists u, [], []. cbn. rewrite !app_nil_r. repeat split; auto.
  - cbn [field_loop]. destruct (known_type ty).
    + destruct (field pos ty) as [ch|e].
      * destruct (IH (S pos) (u || ch) errs (calls ++ [FieldCall ty]))
          as (u' & errs' & calls' & -> & Hu & Hl).
        exists u', errs', (FieldCall ty :: calls'). rewrite <- app_assoc.
        repeat split; [intros ->; apply Hu; reflexivity|cbn; lia].
      * destruct (IH (S pos) u (errs ++ [(ty, e)]) (calls ++ [FieldCall ty]))
          as (u' & errs' & calls' & -> & Hu & Hl).
        exists u', ((ty, e) :: errs'), (FieldCall ty :: calls').
        rewrite <- !app_assoc. repeat split; [exact Hu|cbn; lia].
    + destruct (IH (S pos) u errs calls) as (u' & errs' & calls' & -> & Hu & Hl).
      exists u', errs', calls'. repeat split; [exact Hu|cbn; lia].
Qed.

(** X13. [generateCardFields] reports a partial error only together with
    [updated: true], and the text is never empty, so the scheduler logs it
    as a warning on a success; with several needed
    fields it throws only when the unified attempt failed before any
    update, and then throws the aggregated text with no status; with nothing to generate it returns [updated: false] without
    any attempt; and it never makes more attempts than one unified one plus
    one per needed field. *)
Theorem partial_failure_is_a_success (mode_ : option string)
        (dirtyName dirtyDesc : bool) (types_ : list string)
        (unified : UnifiedOutcome) (field : nat -> string -> FieldOutcome) :
  let needed := neededTypes mode_ dirtyName dirtyDesc types_ in
  let r := generateCardFields mode_ dirtyName dirtyDesc types_ unified field in
  (forall u pe, fst r = Returns u (Some pe) ->
                u = true /\ Js.truthy (Some pe) = true)
  /\ (forall e, fst r = Throws e -> (1 < List.length needed)%nat ->
       unified = UnifiedThrew false
       /\ exists errs, errs <> []
            /\ e = mkJsError (Some (all_failed_message errs)) None None)
  /\ (needed = [] -> r = (Returns false None, []))
  /\ (List.length (snd r) <= 1 + List.length needed)%nat.
Proof.
  cbv zeta. unfold generateCardFields.
  destruct (neededTypes mode_ dirtyName dirtyDesc types_) as [|ty tys] eqn:Hn.
  { cbn. repeat split; try discriminate; lia. }
  set (needed := ty :: tys).
  destruct tys as [|ty2 tys].
  - (* one needed field *)
    cbn [List.length Nat.ltb Nat.leb Nat.eqb needed field_loop].
    destruct (known_type ty); [destruct (field 0%nat ty) as [ch|e]|];
      cbn; (split; [|split; [|split]]);
      try (intros; discriminate); try (intros; lia).
  - (* several needed fields *)
    change (1 <? List.length needed)%nat with true.
    change (List.length needed =? 1)%nat with false.
    destruct unified as [u0|u0].
    + cbn. (split; [|split; [|split]]); try (intros; discriminate); lia.
    + destruct (field_loop_several field needed 0%nat u0 [] [UnifiedCall])
        as (u' & errs' & calls' & -> & Hu & Hl).
      cbn [app]. destruct errs' as [|fe errs'].
      * cbn [fst snd]. (split; [|split; [|split]]);
          try (intros; discriminate).
        cbn [List.length] in *. lia.
      * destruct u' eqn:Hu'.
        -- cbn [fst snd]. (split; [|split; [|split]]);
             try (intros; discriminate).
           ++ intros u pe H. injection H as <- <-. split; [reflexivity|].
              apply partial_message_nonempty. discriminate.
           ++ cbn [List.length] in *. lia.
        -- cbn [fst snd]. (split; [|split; [|split]]);
             try (intros; discriminate).
           ++ intros e H _. split.
              ** destruct u0; [specialize (Hu eq_refl); discriminate|reflexivity].
              ** exists (fe :: errs'). split; [discriminate|].
                 injection H as <-. reflexivity.
           ++ cbn [List.length] in *. lia.
Qed.

Lemma partial_failure_is_a_success_witness :
  let r := generateCardFields None true true ["name"; "description"]
             (UnifiedThrew false)
             (fun _ ty => if (ty =? "name")%string then FieldDone true
                          else FieldThrew rate_limit_error) in
  fst r = Returns true (Some "description失败")
  /\ (true = true /\ Js.truthy (Some "description失败") = true).
Proof.
  cbv zeta. split; [vm_compute; reflexivity|].
  apply (proj1 (partial_failure_is_a_success None true true
                  ["name"; "description"] (UnifiedThrew false)
                  (fun _ ty => if (ty =? "name")%string then FieldDone true
                               else FieldThrew rate_limit_error))).
  vm_compute. reflexivity.
Defined.

(* ===================================================================== *)
(** ** Throttling seen through the aggregated error *)
(* ===================================================================== *)

Lemma or_else_empty (s : string) : Js.or_else (Some s) "" = s.
Proof. destruct s; reflexivity. Qed.

Lemma prefix_app_l p : forall a b,
  String.prefix p a = true -> String.prefix p (a ++ b) = true.
Proof.
  induction p as [|c p IH]; intros a b H; [destruct (a ++ b)%string; reflexivity|].
  destruct a as [|d a]; [discriminate|]. cbn in *.
  destruct (ascii_dec c d); [apply IH; exact H|discriminate].
Qed.

Lemma includes_app_l p : forall a b,
  Js.includes a p = true -> Js.includes (a ++ b) p = true.
Proof.
  induction a as [|c a IH]; intros b H.
  - destruct p as [|c p]; [destruct b; reflexivity|]. discriminate H.
  - cbn [Js.includes] in H.
    change ((String c a ++ b)%string) with (String c (a ++ b)).
    cbn [Js.includes].
    destruct (String.prefix p (String c a)) eqn:Hp.
    + change (String c (a ++ b)) with ((String c a ++ b)%string).
      rewrite (prefix_app_l _ _ b Hp). reflexivity.
    + rewrite (IH b H). destruct (String.prefix p (String c (a ++ b)));
        reflexivity.
Qed.

Lemma includes_app_r p : forall a b,
  Js.includes b p = true -> Js.includes (a ++ b) p = true.
Proof.
  induction a as [|c a IH]; intros b H; [exact H|].
  change ((String c a ++ b)%string) with (String c (a ++ b)).
  cbn [Js.includes]. rewrite (IH b H).
  destruct (String.prefix p (String c (a ++ b))); reflexivity.
Qed.

Lemma includes_join p sep x : forall l,
  In x l -> Js.includes x p = true -> Js.includes (Js.join sep l) p = true.
Proof.
  unfold Js.join. induction l as [|y l IH]; intros Hin Hx; [destruct Hin|].
  destruct l as [|z l].
  - destruct Hin as [->|[]]. exact Hx.
  - change (String.concat sep (y :: z :: l))
      with (y ++ sep ++ String.concat sep (z :: l))%string.
    destruct Hin as [->|Hin].
    + apply includes_app_l. exact Hx.
    + apply includes_app_r, includes_app_r, IH; assumption.
Qed.

Lemma signals_app_r a b :
  message_signals_rate_limit b = true ->
  message_signals_rate_limit (a ++ b) = true.
Proof.
  unfold message_signals_rate_limit. intros H.
  repeat (apply orb_true_iff in H; destruct H as [H|H]);
    rewrite (includes_app_r _ a b H); rewrite ?orb_true_r; reflexivity.
Qed.

Lemma signals_join sep x l :
  In x l -> message_signals_rate_limit x = true ->
  message_signals_rate_limit (Js.join sep l) = true.
Proof.
  unfold message_signals_rate_limit. intros Hin H.
  repeat (apply orb_true_iff in H; destruct H as [H|H]);
    rewrite (includes_join _ sep x l Hin H); rewrite ?orb_true_r; reflexivity.
Qed.

Lemma http_429_signals label detail :
  message_signals_rate_limit
    (template (message (http_error label 429 detail))) = true.
Proof.
  cbn [http_error message template].
  apply signals_app_r, signals_app_r.
  change (decimal 429) with "429".
  unfold message_signals_rate_limit.
  rewrite (includes_app_l "429" "429" ("): " ++ detail) eq_refl). reflexivity.
Qed.

(** Every failure of a known field at its position in the list ends up in
    the collected errors. *)
Lemma field_loop_collects field : forall tys pos u errs calls u' errs' calls',
  field_loop false field pos tys u errs calls = inl (u', errs', calls') ->
  (forall fe, In fe errs -> In fe errs')
  /\ (forall i ty e, nth_error tys i = Some ty -> known_type ty = true ->
                     field (pos + i)%nat ty = FieldThrew e ->
                     In (ty, e) errs').
Proof.
  induction tys as [|ty0 tys IH]; intros pos u errs calls u' errs' calls' H.
  - cbn in H. injection H as <- <- <-. split; [auto|].
    intros [|i] ty e Hn; discriminate.
  - cbn [field_loop] in H.
    assert (Hshift : forall i, (S pos + i = pos + S i)%nat) by (intros; lia).
    destruct (known_type ty0) eqn:Hk.
    + destruct (field pos ty0) as [ch|e0] eqn:Hf.
      * destruct (IH _ _ _ _ _ _ _ H) as [Hkeep Hnew]. split; [exact Hkeep|].
        intros [|i] ty e Hn Hkt Hfe.
        -- injection Hn as <-. rewrite Nat.add_0_r in Hfe. congruence.
        -- rewrite <- Hshift in Hfe. exact (Hnew i ty e Hn Hkt Hfe).
      * destruct (IH _ _ _ _ _ _ _ H) as [Hkeep Hnew]. split.
        -- intros fe Hin. apply Hkeep, in_or_app. left. exact Hin.
        -- intros [|i] ty e Hn Hkt Hfe.
           ++ injection Hn as <-. rewrite Nat.add_0_r in Hfe.
              rewrite Hf in Hfe. injection Hfe as <-.
              apply Hkeep, in_or_app. right. left. reflexivity.
           ++ rewrite <- Hshift in Hfe. exact (Hnew i ty e Hn Hkt Hfe).
    + destruct (IH _ _ _ _ _ _ _ H) as [Hkeep Hnew]. split; [exact Hkeep|].
      intros [|i] ty e Hn Hkt Hfe.
      * injection Hn as <-. congruence.
      * rewrite <- Hshift in Hfe. exact (Hnew i ty e Hn Hkt Hfe).
Qed.

(** X14. When several fields are needed and [generateCardFields] gives up,
    the error it throws carries no status, only the joined messages; yet if
    any per-field attempt failed with a message that signals throttling
    (every backend's HTTP 429 error does), [isRateLimitError] still
    recognises the thrown error, so the item is retried and the window
    counts as rate limited. *)
Theorem throttling_survives_aggregation (mode_ : option string)
        (dirtyName dirtyDesc : bool) (types_ : list string)
        (unified : UnifiedOutcome) (field : nat -> string -> FieldOutcome)
        (i : nat) (ty : string) (e err : JsError) :
  let needed := neededTypes mode_ dirtyName dirtyDesc types_ in
  (1 < List.length needed)%nat ->
  fst (generateCardFields mode_ dirtyName dirtyDesc types_ unified field)
  = Throws err ->
  nth_error needed i = Some ty ->
  known_type ty = true ->
  field i ty = FieldThrew e ->
  message_signals_rate_limit (template (message e)) = true ->
  status_of err = None
  /\ isRateLimitError err = true
  /\ (forall label detail,
        message_signals_rate_limit
          (template (message (http_error label 429 detail))) = true).
Proof.
  cbv zeta. unfold generateCardFields.
  destruct (neededTypes mode_ dirtyName dirtyDesc types_) as [|t1 tys] eqn:Hn;
    [cbn; lia|].
  set (needed := t1 :: tys). intros Hlen.
  replace (1 <? List.length needed)%nat with true
    by (symmetry; apply Nat.ltb_lt; exact Hlen).
  replace (List.length needed =? 1)%nat with false
    by (symmetry; apply Nat.eqb_neq; lia).
  destruct unified as [u0|u0]; [discriminate|].
  destruct (field_loop false field 0 needed u0 [] [UnifiedCall])
    as [[[u' errs'] calls']|[e' calls']] eqn:Hloop.
  2:{ destruct (field_loop_several field needed 0%nat u0 [] [UnifiedCall])
        as (? & ? & ? & Heq & _). congruence. }
  destruct (field_loop_collects _ _ _ _ _ _ _ _ _ Hloop) as [_ Hnew].
  intros Hthrow Hnth Hk Hf Hsig.
  specialize (Hnew i ty e Hnth Hk Hf).
  destruct errs' as [|fe errs']; [destruct Hnew|].
  destruct u'; [discriminate|]. cbn [fst] in Hthrow. injection Hthrow as <-.
  split; [reflexivity|]. split; [|intros; apply http_429_signals].
  assert (Hm : message_signals_rate_limit (all_failed_message (fe :: errs'))
               = true).
  { unfold all_failed_message.
    apply (signals_join "; " (ty ++ ": " ++ template (message e))%string).
    - apply (in_map (fun fe0 => (fst fe0 ++ ": "
                                 ++ template (message (snd fe0)))%string)
                    _ (ty, e)). exact Hnew.
    - apply signals_app_r, signals_app_r. exact Hsig. }
  unfold isRateLimitError.
  cbn [message status_of status statusCode orb].
  rewrite or_else_empty. exact Hm.
Qed.

Lemma throttling_survives_aggregation_witness :
  let field := fun (_ : nat) (ty : string) =>
                 if (ty =? "name")%string
                 then FieldThrew (http_error "API 请求失败" 429 "slow down")
                 else FieldThrew (mkJsError (Some "timeout") None None) in
  let err := mkJsError
               (Some "name: API 请求失败 (429): slow down; description: timeout")
               None None in
  fst (generateCardFields None true true ["name"; "description"]
         (UnifiedThrew false) field) = Throws err
  /\ isRateLimitError err = true.
Proof.
  cbv zeta. split; [vm_compute; reflexivity|].
  refine (proj1 (proj2 (throttling_survives_aggregation None true true
            ["name"; "description"] (UnifiedThrew false)
            (fun _ ty => if (ty =? "name")%string
               then FieldThrew (http_error "API 请求失败" 429 "slow down")
               else FieldThrew (mkJsError (Some "timeout") None None))
            0%nat "name" (http_error "API 请求失败" 429 "slow down")
            _ _ _ _ _ _ _)));
    vm_compute; reflexivity.
Defined.

(* ===================================================================== *)
(** ** Prompt styling *)
(* ===================================================================== *)

Lemma prefix_append (a b : string) : String.prefix a (a ++ b) = true.
Proof.
  induction a as [|c a IH]; [destruct b; reflexivity|].
  cbn. destruct (ascii_dec c c); [exact IH|congruence].
Qed.

Lemma prefix_refl (a : string) : String.prefix a a = true.
Proof.
  induction a as [|c a IH]; [reflexivity|].
  cbn. destruct (ascii_dec c c); [exact IH|congruence].
Qed.

Lemma append_assoc_string (a b c : string) :
  ((a ++ b) ++ c = a ++ (b ++ c))%string.
Proof.
  induction a as [|x a IH]; [reflexivity|]. cbn. rewrite IH. reflexivity.
Qed.

Lemma append_to_system_other text first rest :
  (role first =? "system")%string = false ->
  append_to_system text (first :: rest) = first :: rest.
Proof. intros H. cbn. rewrite H. reflexivity. Qed.

Lemma append_to_system_system text first rest :
  (role first =? "system")%string = true ->
  append_to_system text (first :: rest)
  = mkMessage (role first) (content first ++ text) :: rest.
Proof. intros H. cbn. rewrite H. reflexivity. Qed.

(** X15. [buildPromptWithStrategy] honours [customPrompt] only under a
    style other than the default: with [style] missing, empty or
    ["default"] the prompt comes back unchanged whatever [customPrompt]
    holds.  In every case the roles and all messages after the first are
    kept, the old text of the first message is a prefix of the new one,
    and a prompt that does not start with a system message is returned as
    it was.  Under a non-default style a system message ends with the
    custom prompt. *)
Theorem styling_only_extends_system_prompt
        (inherited_text : string -> string)
        (prompt : list Message) (st : Strategy) :
  let out := buildPromptWithStrategy inherited_text prompt st in
  (Js.truthy (style st) = false \/ style st = Some "default" -> out = prompt)
  /\ map role out = map role prompt
  /\ tl out = tl prompt
  /\ (forall first, hd_error prompt = Some first ->
        exists first', hd_error out = Some first'
           /\ String.prefix (content first) (content first') = true)
  /\ (forall first, hd_error prompt = Some first ->
        role first <> "system" -> out = prompt)
  /\ (forall first s c rest,
        prompt = first :: rest -> role first = "system" ->
        style st = Some s -> s <> "" -> s <> "default" ->
        customPrompt st = Some c -> c <> "" ->
        exists mid,
          out = mkMessage "system"
                  (content first ++ mid ++ newline ++ "额外要求：" ++ c)
                :: rest).
Proof.
  cbv zeta. unfold buildPromptWithStrategy.
  split.
  { intros [H| ->]; [rewrite H; reflexivity|]. cbn. reflexivity. }
  destruct (negb (Js.truthy (style st))
            || (Js.or_else (style st) "" =? "default")%string) eqn:Hdef.
  { split; [reflexivity|]. split; [reflexivity|].
    split; [intros first ->; exists first; split;
            [reflexivity|apply prefix_refl]|].
    split; [reflexivity|].
    intros first s c rest -> Hr Hs Hne Hnd _ _. exfalso.
    rewrite Hs in Hdef. destruct s as [|ch s]; [congruence|].
    change (Js.or_else (Some (String ch s)) "") with (String ch s) in Hdef.
    change (Js.truthy (Some (String ch s))) with true in Hdef.
    cbn [negb orb] in Hdef. apply String.eqb_eq in Hdef. congruence. }
  destruct prompt as [|first rest].
  { cbn. destruct (style_hint _ _), (Js.truthy (customPrompt st));
      repeat split; try discriminate; intros; discriminate. }
  destruct (role first =? "system")%string eqn:Hrole.
  - pose proof (proj1 (String.eqb_eq _ _) Hrole) as Hr.
    destruct (style_hint inherited_text (Js.or_else (style st) ""))
      as [hint|] eqn:Hh;
      destruct (Js.truthy (customPrompt st)) eqn:Hc;
      repeat (rewrite append_to_system_system by (cbn [role]; exact Hrole));
      cbn [role content map tl hd_error].
    + split; [reflexivity|]. split; [reflexivity|].
      split.
      { intros f Hf. injection Hf as <-. eexists. split; [reflexivity|].
        cbn [content]. rewrite append_assoc_string. apply prefix_append. }
      split; [intros f Hf Hn; injection Hf as <-; congruence|].
      intros f s c r Hp _ _ _ _ Hcp Hne. injection Hp as <- <-.
      rewrite Hcp. destruct c as [|ch c]; [congruence|].
      exists (newline ++ "风格要求：" ++ hint)%string.
      rewrite Hr. cbn [Js.or_else Js.truthy].
      rewrite append_assoc_string. reflexivity.
    + split; [reflexivity|]. split; [reflexivity|].
      split.
      { intros f Hf. injection Hf as <-. eexists. split; [reflexivity|].
        cbn [content]. apply prefix_append. }
      split; [intros f Hf Hn; injection Hf as <-; congruence|].
      intros f s c r _ _ _ _ _ Hcp Hne. exfalso. rewrite Hcp in Hc.
      destruct c; [congruence|discriminate].
    + split; [reflexivity|]. split; [reflexivity|].
      split.
      { intros f Hf. injection Hf as <-. eexists. split; [reflexivity|].
        cbn [content]. apply prefix_append. }
      split; [intros f Hf Hn; injection Hf as <-; congruence|].
      intros f s c r Hp _ _ _ _ Hcp Hne. injection Hp as <- <-.
      rewrite Hcp. destruct c as [|ch c]; [congruence|].
      exists ""%string. rewrite Hr. reflexivity.
    + split; [reflexivity|]. split; [reflexivity|].
      split.
      { intros f Hf. injection Hf as <-. exists first. split; [reflexivity|].
        apply prefix_refl. }
      split; [reflexivity|].
      intros f s c r _ _ _ _ _ Hcp Hne. exfalso. rewrite Hcp in Hc.
      destruct c; [congruence|discriminate].
  - assert (Hout : forall t p, p = first :: rest ->
                               append_to_system t p = first :: rest)
      by (intros t p ->; apply append_to_system_other; exact Hrole).
    assert (Heq : (let p1 := match style_hint inherited_text
                                     (Js.or_else (style st) "") with
                             | Some hint =>
                                 append_to_system
                                   (newline ++ "风格要求：" ++ hint) (first :: rest)
                             | None => first :: rest
                             end in
                   if Js.truthy (customPrompt st)
                   then append_to_system
                          (newline ++ "额外要求：" ++ Js.or_else (customPrompt st) "")
                          p1
                   else p1) = first :: rest).
    { cbv zeta. destruct (style_hint _ _), (Js.truthy (customPrompt st));
        rewrite ?Hout; try reflexivity; apply Hout; reflexivity. }
    cbv zeta in Heq. rewrite Heq.
    split; [reflexivity|]. split; [reflexivity|].
    split.
    { intros f Hf. injection Hf as <-. exists first. split; [reflexivity|].
      apply prefix_refl. }
    split; [reflexivity|].
    intros f s c r Hp Hsys. injection Hp as <- <-. rewrite Hsys in Hrole.
    discriminate.
Qed.

Lemma styling_only_extends_system_prompt_witness :
  let prompt := [mkMessage "system" "你是网站导航助手"; mkMessage "user" "example.com"] in
  let st := mkStrategy (Some "fill") (Some "default") (Some "请用英文回答") in
  (Js.truthy (style st) = false \/ style st = Some "default")
  /\ buildPromptWithStrategy (fun _ => "") prompt st = prompt.
Proof.
  cbv zeta. split; [right; reflexivity|].
  apply (proj1 (styling_only_extends_system_prompt (fun _ => "")
                  [mkMessage "system" "你是网站导航助手";
                   mkMessage "user" "example.com"]
                  (mkStrategy (Some "fill") (Some "default")
                              (Some "请用英文回答")))).
  right. reflexivity.
Defined.

(* ===================================================================== *)
(** ** The saved request delay *)
(* ===================================================================== *)

Lemma decimal_parses_back_in_range :
  forallb (fun n => match Js.parseInt (Js.VString (decimal n)) with
                    | Some m => m =? n
                    | None => false
                    end)
          (map (fun k => 500 + Z.of_nat k) (seq 0 (Z.to_nat 9501))) = true.
Proof. vm_compute. reflexivity. Qed.

Lemma decimal_parses_back (n : Z) :
  500 <= n <= 10000 -> Js.parseInt (Js.VString (decimal n)) = Some n.
Proof.
  intros Hn.
  pose proof (proj1 (forallb_forall _ _) decimal_parses_back_in_range n) as H.
  cbv beta in H.
  assert (Hin : In n (map (fun k => 500 + Z.of_nat k)
                          (seq 0 (Z.to_nat 9501)))).
  { apply in_map_iff. exists (Z.to_nat (n - 500)). split; [lia|].
    apply in_seq. lia. }
  specialize (H Hin).
  destruct (Js.parseInt (Js.VString (decimal n))) as [m|]; [|discriminate].
  apply Z.eqb_eq in H. congruence.
Qed.

(** X16. The delay that [POST /config] stores is always between 500 and
    10000 ms, and [runTask] uses exactly that value as its base delay when
    it reads it back, as a number or as its decimal text: the second clamp
    changes nothing. *)
Theorem saved_delay_is_used_as_is (requestDelay : option Z) :
  let d := saved_requestDelay requestDelay in
  500 <= d <= 10000
  /\ baseDelay_of (Js.VNumber d) = d
  /\ baseDelay_of (Js.VString (decimal d)) = d.
Proof.
  cbv zeta.
  assert (Hr : 500 <= saved_requestDelay requestDelay <= 10000)
    by (unfold saved_requestDelay; lia).
  split; [exact Hr|].
  set (d := saved_requestDelay requestDelay) in *. clearbody d.
  assert (Hnum : Z.max 500 (Z.min 10000 (Js.num_or (Some d) 1500)) = d).
  { unfold Js.num_or. destruct (d =? 0) eqn:H0; lia. }
  split.
  - unfold baseDelay_of. cbn [Js.parseInt]. exact Hnum.
  - unfold baseDelay_of. rewrite (decimal_parses_back d Hr). exact Hnum.
Qed.

(* ===================================================================== *)
(** ** Generation for newly added cards *)
(* ===================================================================== *)

Lemma auto_card_spec delay i nn nd (g : nat -> GenOutcome) :
  forall u ev, auto_card delay i nn nd g = (u, ev) ->
  (List.length (filter is_gen_call ev) <= 3)%nat
  /\ ~ In TriggerBackup ev
  /\ (u = true <-> exists k tys m pe,
         In (GenCall i k tys m) ev /\ g k = Returns true pe)
  /\ (forall j k tys m, In (GenCall j k tys m) ev ->
        j = i /\ (m = "overwrite" ->
                  xorb nn nd = true
                  /\ tys = [if nn then "name" else "description"])).
Proof.
  intros u ev H. unfold auto_card in H.
  destruct nn, nd; cbn [andb orb] in H;
    destruct (g 0%nat) as [u0 pe0|e0] eqn:H0;
    try (destruct (g 1%nat) as [u1 pe1|e1] eqn:H1);
    try (destruct (g 2%nat) as [u2 pe2|e2] eqn:H2);
    cbn [app] in H; injection H as <- <-;
    (split; [cbn; lia|]);
    (split; [cbn; intuition discriminate|]);
    (split;
     [split;
      [intros Hu;
       repeat match goal with
              | Hx : (_ || _)%bool = true |- _ =>
                  apply orb_true_iff in Hx; destruct Hx as [Hx|Hx]
              end; subst;
       first [ now (exists 0%nat; do 3 eexists; split; [cbn; eauto 6|eassumption])
             | now (exists 1%nat; do 3 eexists; split; [cbn; eauto 6|eassumption])
             | now (exists 2%nat; do 3 eexists; split; [cbn; eauto 6|eassumption])
             | discriminate ]
      |intros (k & tys & m & pe & Hin & Hg); cbn in Hin;
       repeat match goal with
              | Hx : _ \/ _ |- _ => destruct Hx as [Hx|Hx]
              end;
       try discriminate; try contradiction;
       injection Hin as <- <- <-;
       rewrite Hg in *;
       repeat match goal with
              | Hx : Returns _ _ = Returns _ _ |- _ => injection Hx as <- <-
              | Hx : Returns _ _ = Throws _ |- _ => discriminate Hx
              end;
       rewrite ?orb_true_r; reflexivity]
     |intros j k tys m Hin; cbn in Hin;
      repeat match goal with
             | Hx : _ \/ _ |- _ => destruct Hx as [Hx|Hx]
             end;
      try discriminate; try contradiction;
      injection Hin as <- <- <- <-;
      (split; [reflexivity|intros Hm; try discriminate Hm;
                           split; reflexivity])]).
Qed.

Lemma filter_gen_call_app (a b : list AutoEvent) :
  List.length (filter is_gen_call (a ++ b))
  = (List.length (filter is_gen_call a)
     + List.length (filter is_gen_call b))%nat.
Proof. rewrite filter_app, length_app. reflexivity. Qed.

Lemma auto_loop_spec delay gen : forall cards i h evs,
  auto_loop delay i cards gen = (h, evs) ->
  (List.length (filter is_gen_call evs)
   <= 3 * List.length (filter found cards))%nat
  /\ ~ In TriggerBackup evs
  /\ (h = true <-> exists j k tys m pe,
         In (GenCall j k tys m) evs /\ gen j k = Returns true pe)
  /\ (forall j k tys m, In (GenCall j k tys m) evs ->
        (i <= j)%nat
        /\ exists nn nd,
             nth_error cards (j - i) = Some (Some (nn, nd))
             /\ (m = "overwrite" ->
                 xorb nn nd = true
                 /\ tys = [if nn then "name" else "description"])).
Proof.
  induction cards as [|c rest IH]; intros i h evs H.
  - cbn in H. injection H as <- <-. cbn.
    split; [lia|]. split; [tauto|]. split.
    + split; [discriminate|]. intros (j & k & tys & m & pe & [] & _).
    + intros j k tys m [].
  - cbn [auto_loop] in H.
    destruct (auto_loop delay (S i) rest gen) as [h' later] eqn:Hrest.
    destruct (IH (S i) h' later Hrest) as (Hcnt & Hno & Hiff & Hcalls).
    destruct c as [[nn nd]|].
    + destruct (auto_card delay i nn nd (gen i)) as [u ev] eqn:Hcard.
      injection H as <- <-.
      destruct (auto_card_spec delay i nn nd (gen i) u ev Hcard)
        as (Ccnt & Cno & Ciff & Ccalls).
      set (gap := match rest with
                  | [] => []
                  | _ => [SleepFor (inject_Z delay)]
                  end) in *.
      assert (Hgap : forall e, In e gap -> e = SleepFor (inject_Z delay)).
      { intros e He. unfold gap in He. destruct rest; [destruct He|].
        destruct He as [<-|[]]. reflexivity. }
      assert (Hgc : List.length (filter is_gen_call gap) = 0%nat)
        by (unfold gap; destruct rest; reflexivity).
      split.
      { rewrite !filter_gen_call_app, Hgc. cbn [filter found List.length]. lia. }
      split.
      { intros Hin. apply in_app_or in Hin. destruct Hin as [Hin|Hin];
          [exact (Cno Hin)|].
        apply in_app_or in Hin. destruct Hin as [Hin|Hin];
          [apply Hgap in Hin; discriminate|exact (Hno Hin)]. }
      split.
      { split.
        - intros Hu. apply orb_true_iff in Hu. destruct Hu as [Hu|Hu].
          + apply Ciff in Hu. destruct Hu as (k & tys & m & pe & Hin & Hg).
            exists i, k, tys, m, pe. split; [|exact Hg].
            apply in_or_app. left. exact Hin.
          + apply Hiff in Hu.
            destruct Hu as (j & k & tys & m & pe & Hin & Hg).
            exists j, k, tys, m, pe. split; [|exact Hg].
            apply in_or_app. right. apply in_or_app. right. exact Hin.
        - intros (j & k & tys & m & pe & Hin & Hg).
          apply orb_true_iff.
          apply in_app_or in Hin. destruct Hin as [Hin|Hin].
          + left. destruct (Ccalls j k tys m Hin) as [-> _].
            apply Ciff. exists k, tys, m, pe. split; assumption.
          + apply in_app_or in Hin. destruct Hin as [Hin|Hin];
              [apply Hgap in Hin; discriminate|].
            right. apply Hiff. exists j, k, tys, m, pe. split; assumption. }
      intros j k tys m Hin.
      apply in_app_or in Hin. destruct Hin as [Hin|Hin].
      * destruct (Ccalls j k tys m Hin) as [-> Hov].
        split; [lia|]. exists nn, nd. rewrite Nat.sub_diag. split;
          [reflexivity|exact Hov].
      * apply in_app_or in Hin. destruct Hin as [Hin|Hin];
          [apply Hgap in Hin; discriminate|].
        destruct (Hcalls j k tys m Hin) as (Hle & nn' & nd' & Hnth & Hov).
        split; [lia|]. exists nn', nd'. split; [|exact Hov].
        replace (j - i)%nat with (S (j - S i)) by lia. exact Hnth.
    + injection H as <- <-.
      split; [cbn [filter found List.length]; lia|]. split; [exact Hno|].
      split; [exact Hiff|].
      intros j k tys m Hin.
      destruct (Hcalls j k tys m Hin) as (Hle & nn' & nd' & Hnth & Hov).
      split; [lia|]. exists nn', nd'. split; [|exact Hov].
      replace (j - i)%nat with (S (j - S i)) by lia. exact Hnth.
Qed.

(** X17. With the database reads succeeding, [autoGenerateForCards] calls
    the model only when auto-generation is switched on and the
    configuration is valid; it makes at most three
    calls of [generateCardFields] per card found and none for a missing
    card; it triggers the debounced backup at most once, as its last
    action, and exactly when some call it made returned [updated: true]
    (an update is not lost when a later call for the same card throws);
    and it asks for [overwrite] mode only for the single one of name and
    description that was judged dirty. *)
Theorem auto_generation_backs_up_once (autoGenerate : bool)
        (config : AIConfig) (requestDelay : Js.value)
        (cards : list (option (bool * bool)))
        (gen : nat -> nat -> GenOutcome) :
  let evs := autoGenerateForCards autoGenerate config requestDelay cards gen in
  (autoGenerate = false \/ validateAIConfig config <> Valid -> evs = [])
  /\ (List.length (filter is_gen_call evs)
      <= 3 * List.length (filter found cards))%nat
  /\ (In TriggerBackup evs <->
      exists j k tys m pe,
        In (GenCall j k tys m) evs /\ gen j k = Returns true pe)
  /\ (In TriggerBackup evs ->
      exists before, evs = before ++ [TriggerBackup]
                     /\ ~ In TriggerBackup before)
  /\ (forall j k tys m, In (GenCall j k tys m) evs -> m = "overwrite" ->
        exists nn nd,
          nth_error cards j = Some (Some (nn, nd))
          /\ xorb nn nd = true
          /\ tys = [if nn then "name" else "description"]).
Proof.
  cbv zeta. unfold autoGenerateForCards.
  split.
  { intros [->|Hv]; [reflexivity|].
    destruct autoGenerate; [|reflexivity]. cbn [negb].
    destruct (validateAIConfig config); [congruence|reflexivity]. }
  destruct autoGenerate; cbn [negb].
  2:{ cbn. split; [lia|]. split.
      - split; [intros []|intros (j & k & tys & m & pe & [] & _)].
      - split; [intros []|intros j k tys m []]. }
  destruct (validateAIConfig config).
  2:{ cbn. split; [lia|]. split.
      - split; [intros []|intros (j & k & tys & m & pe & [] & _)].
      - split; [intros []|intros j k tys m []]. }
  destruct (auto_loop (autoDelay requestDelay) 0 cards gen) as [h evs] eqn:Hl.
  destruct (auto_loop_spec _ _ _ _ _ _ Hl) as (Hcnt & Hno & Hiff & Hcalls).
  assert (Htail : forall x, In x (if h then [TriggerBackup] else []) ->
                            x = TriggerBackup /\ h = true).
  { intros x Hx. destruct h; [|destruct Hx].
    destruct Hx as [<-|[]]. split; reflexivity. }
  split.
  { rewrite filter_gen_call_app. destruct h; cbn [filter is_gen_call List.length];
      lia. }
  split.
  { split.
    - intros Hin. apply in_app_or in Hin. destruct Hin as [Hin|Hin];
        [destruct (Hno Hin)|].
      apply Htail in Hin. destruct Hin as [_ Hh]. apply Hiff in Hh.
      destruct Hh as (j & k & tys & m & pe & Hin & Hg).
      exists j, k, tys, m, pe. split; [|exact Hg].
      apply in_or_app. left. exact Hin.
    - intros (j & k & tys & m & pe & Hin & Hg).
      apply in_app_or in Hin. destruct Hin as [Hin|Hin].
      + assert (Hh : h = true)
          by (apply Hiff; exists j, k, tys, m, pe; split; assumption).
        rewrite Hh. apply in_or_app. right. left. reflexivity.
      + apply Htail in Hin. destruct Hin as [Hx _]. discriminate. }
  split.
  { intros Hin. apply in_app_or in Hin. destruct Hin as [Hin|Hin];
      [destruct (Hno Hin)|].
    apply Htail in Hin. destruct Hin as [_ ->].
    exists evs. split; [reflexivity|exact Hno]. }
  intros j k tys m Hin Hm.
  apply in_app_or in Hin. destruct Hin as [Hin|Hin].
  - destruct (Hcalls j k tys m Hin) as (_ & nn & nd & Hnth & Hov).
    rewrite Nat.sub_0_r in Hnth. exists nn, nd.
    split; [exact Hnth|exact (Hov Hm)].
  - apply Htail in Hin. destruct Hin as [Hx _]. discriminate.
Qed.

Lemma auto_generation_backs_up_once_witness :
  let config := mkAIConfig (Some "ollama") None (Some "http://localhost:11434") None in
  let cards := [Some (true, true); None; Some (false, true)] in
  let gen := fun (i k : nat) =>
               match i, k with
               | 0%nat, 1%nat => Returns true None
               | _, _ => Throws rate_limit_error
               end in
  let evs := autoGenerateForCards true config (Js.VNumber 1500) cards gen in
  In TriggerBackup evs
  /\ exists before, evs = before ++ [TriggerBackup]
                    /\ ~ In TriggerBackup before.
Proof.
  cbv zeta.
  assert (Hin : In TriggerBackup
                   (autoGenerateForCards true
                      (mkAIConfig (Some "ollama") None (Some "http://localhost:11434") None)
                      (Js.VNumber 1500)
                      [Some (true, true); None; Some (false, true)]
                      (fun i k => match i, k with
                                  | 0%nat, 1%nat => Returns true None
                                  | _, _ => Throws rate_limit_error
                                  end))).
  { vm_compute. repeat (first [left; reflexivity | right]). }
  split; [exact Hin|].
  exact (proj1 (proj2 (proj2 (proj2
           (auto_generation_backs_up_once true
              (mkAIConfig (Some "ollama") None (Some "http://localhost:11434") None)
              (Js.VNumber 1500)
              [Some (true, true); None; Some (false, true)]
              (fun i k => match i, k with
                          | 0%nat, 1%nat => Returns true None
                          | _, _ => Throws rate_limit_error
                          end))))) Hin).
Defined.

(* ===================================================================== *)
(** ** A throttled field inside a partial success *)
(* ===================================================================== *)

(** A known field that was changed sets [updated] for good. *)
Lemma field_loop_updated field : forall tys pos u errs calls u' errs' calls',
  field_loop false field pos tys u errs calls = inl (u', errs', calls') ->
  (u = true -> u' = true)
  /\ (forall i ty, nth_error tys i = Some ty -> known_type ty = true ->
                   field (pos + i)%nat ty = FieldDone true -> u' = true).
Proof.
  induction tys as [|ty0 tys IH]; intros pos u errs calls u' errs' calls' H.
  - cbn in H. injection H as <- <- <-. split; [auto|].
    intros [|i] ty Hn; discriminate.
  - cbn [field_loop] in H.
    assert (Hshift : forall i, (S pos + i = pos + S i)%nat) by (intros; lia).
    destruct (known_type ty0) eqn:Hk.
    + destruct (field pos ty0) as [ch|e0] eqn:Hf.
      * destruct (IH _ _ _ _ _ _ _ H) as [Hkeep Hnew]. split.
        -- intros ->. apply Hkeep. reflexivity.
        -- intros [|i] ty Hn Hkt Hfe.
           ++ injection Hn as <-. rewrite Nat.add_0_r in Hfe.
              rewrite Hf in Hfe. injection Hfe as ->.
              apply Hkeep. apply orb_true_r.
           ++ rewrite <- Hshift in Hfe. exact (Hnew i ty Hn Hkt Hfe).
      * destruct (IH _ _ _ _ _ _ _ H) as [Hkeep Hnew]. split; [exact Hkeep|].
        intros [|i] ty Hn Hkt Hfe.
        -- injection Hn as <-. rewrite Nat.add_0_r in Hfe. congruence.
        -- rewrite <- Hshift in Hfe. exact (Hnew i ty Hn Hkt Hfe).
    + destruct (IH _ _ _ _ _ _ _ H) as [Hkeep Hnew]. split; [exact Hkeep|].
      intros [|i] ty Hn Hkt Hfe.
      * injection Hn as <-. congruence.
      * rewrite <- Hshift in Hfe. exact (Hnew i ty Hn Hkt Hfe).
Qed.

(** X18. When the unified attempt fails and the per-field fallback changes
    one field while another field fails with HTTP 429, the item comes back
    from [processCardWithRetry] as a success with a [partialError], without
    any retry or back-off sleep and with [rateLimited: false]; applying it
    counts a success and leaves the window's rate-limit flag as it was, so
    this 429 does not reduce the concurrency. *)
Theorem partial_success_hides_throttling (mode_ : option string)
        (dirtyName dirtyDesc : bool) (types_ : list string) (u0 : bool)
        (field : nat -> string -> FieldOutcome)
        (i j : nat) (ty ty' label detail : string) (gen : Z -> GenOutcome)
        (m : BatchTaskManager) (tl : Tally) (evs : list Event)
        (now : Z) (card : Card) :
  let needed := neededTypes mode_ dirtyName dirtyDesc types_ in
  gen 0 = fst (generateCardFields mode_ dirtyName dirtyDesc types_
                 (UnifiedThrew u0) field) ->
  (1 < List.length needed)%nat ->
  nth_error needed i = Some ty -> known_type ty = true ->
  field i ty = FieldDone true ->
  nth_error needed j = Some ty' -> known_type ty' = true ->
  field j ty' = FieldThrew (http_error label 429 detail) ->
  isRateLimitError (http_error label 429 detail) = true
  /\ exists pe,
       processCardWithRetry gen 0
       = (mkItemResult true (Some true) false (Some pe) None, [])
       /\ Js.truthy (Some pe) = true
       /\ let tally := snd (fst (apply_result
                                   (m, tl, evs)
                                   (Fulfilled (fst (processCardWithRetry gen 0)),
                                    now, card))) in
          hasRateLimit tally = hasRateLimit tl
          /\ batchSuccess tally = batchSuccess tl + 1
          /\ batchFail tally = batchFail tl.
Proof.
  cbv zeta. unfold generateCardFields.
  destruct (neededTypes mode_ dirtyName dirtyDesc types_) as [|t1 tys] eqn:Hn;
    [cbn; lia|].
  set (needed := t1 :: tys). intros Hgen Hlen Hi Hk Hf Hj Hk' Hf'.
  split; [reflexivity|].
  replace (1 <? List.length needed)%nat with true in Hgen
    by (symmetry; apply Nat.ltb_lt; exact Hlen).
  replace (List.length needed =? 1)%nat with false in Hgen
    by (symmetry; apply Nat.eqb_neq; lia).
  destruct (field_loop false field 0 needed u0 [] [UnifiedCall])
    as [[[u' errs'] calls']|[e' calls']] eqn:Hloop.
  2:{ destruct (field_loop_several field needed 0%nat u0 [] [UnifiedCall])
        as (? & ? & ? & Heq & _). congruence. }
  destruct (field_loop_collects _ _ _ _ _ _ _ _ _ Hloop) as [_ Hnew].
  destruct (field_loop_updated _ _ _ _ _ _ _ _ _ Hloop) as [_ Hupd].
  specialize (Hnew j ty' _ Hj Hk' Hf').
  specialize (Hupd i ty Hi Hk Hf). subst u'.
  destruct errs' as [|fe errs']; [destruct Hnew|].
  cbn [fst] in Hgen.
  exists (partial_message (fe :: errs')).
  rewrite (processCardWithRetry_returns gen 0 true _ Hgen).
  split; [reflexivity|].
  assert (Ht : Js.truthy (Some (partial_message (fe :: errs'))) = true)
    by (apply partial_message_nonempty; discriminate).
  split; [exact Ht|].
  unfold apply_result. cbn [fst snd success].
  repeat split.
Qed.

Lemma partial_success_hides_throttling_witness :
  let field := fun (_ : nat) (ty : string) =>
                 if (ty =? "name")%string then FieldDone true
                 else FieldThrew (http_error "API 请求失败" 429 "slow down") in
  let gen := fun _ : Z =>
               fst (generateCardFields None true true ["name"; "description"]
                      (UnifiedThrew false) field) in
  isRateLimitError (http_error "API 请求失败" 429 "slow down") = true
  /\ exists pe,
       processCardWithRetry gen 0
       = (mkItemResult true (Some true) false (Some pe) None, [])
       /\ Js.truthy (Some pe) = true
       /\ let tally := snd (fst (apply_result
                                   (constructor, mkTally 0 0 false, [])
                                   (Fulfilled (fst (processCardWithRetry gen 0)),
                                    0, sample_card 1))) in
          hasRateLimit tally = false
          /\ batchSuccess tally = 0 + 1
          /\ batchFail tally = 0.
Proof.
  cbv zeta.
  refine (partial_success_hides_throttling None true true
            ["name"; "description"] false
            (fun _ ty => if (ty =? "name")%string then FieldDone true
               else FieldThrew (http_error "API 请求失败" 429 "slow down"))
            0%nat 1%nat "name" "description" "API 请求失败" "slow down"
            (fun _ => fst (generateCardFields None true true
                             ["name"; "description"] (UnifiedThrew false)
                             (fun _ ty => if (ty =? "name")%string
                                then FieldDone true
                                else FieldThrew (http_error "API 请求失败"
                                                   429 "slow down"))))
            constructor (mkTally 0 0 false) [] 0 (sample_card 1)
            _ _ _ _ _ _ _ _);
    vm_compute; reflexivity.
Defined.

(* ===================================================================== *)
(** ** A stopped task schedules nothing *)
(* ===================================================================== *)

Lemma with_task_none f m : task m = None -> with_task f m = m.
Proof. intros H. unfold with_task. rewrite H. reflexivity. Qed.

Lemma isRunning_apply_result acc rc :
  isRunning (fst (fst (apply_result acc rc))) = isRunning (fst (fst acc)).
Proof.
  destruct (task (fst (fst acc))) as [t|] eqn:Ht.
  - destruct (apply_result_task acc rc t Ht) as (t' & Ht' & _ & Hr & _).
    unfold isRunning. rewrite Ht', Ht. exact Hr.
  - destruct acc as [[m tl] evs], rc as [[r now] card]. cbn [fst] in *.
    unfold apply_result.
    destruct r as [v|reason];
      [destruct (success v); [|destruct (rateLimited v)]|];
      cbn [fst];
      rewrite (with_task_none (fun t => set_current (current t + 1) t) m Ht);
      rewrite ?with_task_none by exact Ht; reflexivity.
Qed.

Lemma isRunning_fold_apply_result l : forall acc,
  isRunning (fst (fst (fold_left apply_result l acc)))
  = isRunning (fst (fst acc)).
Proof.
  induction l as [|rc l IH]; intros acc; [reflexivity|].
  cbn [fold_left]. rewrite IH. apply isRunning_apply_result.
Qed.

Lemma isRunning_adjustConcurrency sc fc rl m :
  isRunning (adjustConcurrency sc fc rl m) = isRunning m.
Proof.
  destruct (task m) as [t|] eqn:Ht.
  - destruct (adjustConcurrency_task sc fc rl m t Ht) as (t' & Ht' & _ & Hb).
    unfold isRunning. rewrite Ht', Ht. apply Hb.
  - unfold adjustConcurrency. rewrite Ht. reflexivity.
Qed.

Section StoppedFacts.

Variable hostname : string -> option string.

Lemma enter_finally_rests m a m' a' evs :
  enter_finally m a = (m', a', evs) ->
  m' = m /\ evs = []
  /\ (act_phase a' = Grace \/ act_phase a' = Finished).
Proof.
  unfold enter_finally. destruct (task m); intros H; injection H as <- <- <-;
    cbn; auto.
Qed.

Lemma loop_head_stopped m a :
  isRunning m = false -> loop_head hostname m a = enter_finally m a.
Proof.
  intros Hr. unfold loop_head, should_break. rewrite Hr. cbn [negb].
  rewrite orb_true_r. destruct (act_index a <? _); reflexivity.
Qed.

End StoppedFacts.

(** X19. Once the task is not running (after [stop], or after it ended),
    no resumption of a scheduler launches a window or starts a sleep: each
    one leads to the final wait or to the end, the task stays not running,
    and the notifier is called only for the members of a window that was
    already in flight, or once by the final step. *)
Theorem stopped_task_schedules_nothing (hostname : string -> option string)
        (inp : Input) (m : BatchTaskManager) (a : Activation)
        (m' : BatchTaskManager) (a' : Activation) (evs : list Event) :
  isRunning m = false ->
  act_step hostname inp m a = Some (m', a', evs) ->
  (act_phase a' = Grace \/ act_phase a' = Finished)
  /\ launched a' = []
  /\ isRunning m' = false
  /\ (data_changes evs
      <= match act_phase a with
         | AwaitWindow batch => List.length batch
         | Grace => 1
         | _ => 0
         end)%nat.
Proof.
  intros Hr Hstep.
  assert (Hphase : (act_phase a' = Grace \/ act_phase a' = Finished)
                   /\ isRunning m' = false
                   /\ (data_changes evs
                       <= match act_phase a with
                          | AwaitWindow batch => List.length batch
                          | Grace => 1
                          | _ => 0
                          end)%nat).
  { unfold act_step in Hstep.
    destruct (act_phase a) as [| batch | d | |] eqn:Hph;
      destruct inp as [rd | msg now | results |]; try discriminate.
    - rewrite (loop_head_stopped hostname m _ Hr) in Hstep.
      injection Hstep as Hstep.
      destruct (enter_finally_rests _ _ _ _ _ Hstep) as (-> & -> & Hp).
      split; [exact Hp|]. split; [exact Hr|]. cbn. lia.
    - injection Hstep as Hstep.
      destruct (enter_finally_rests _ _ _ _ _ Hstep) as (-> & -> & Hp).
      split; [exact Hp|]. split; [|cbn; lia].
      unfold catch_block, with_task, isRunning in *.
      destruct (task m) as [t|] eqn:Ht; [cbn; exact Hr|rewrite Ht; reflexivity].
    - destruct (List.length results =? List.length batch)%nat eqn:Hlen;
        [|discriminate].
      apply Nat.eqb_eq in Hlen.
      injection Hstep as Hstep. unfold settle_window in Hstep.
      pose proof (isRunning_fold_apply_result (combine results batch)
                    (m, mkTally 0 0 false, [])) as Hrun.
      pose proof (apply_results_data_changes m results batch Hlen) as Hdc.
      unfold apply_results in Hstep, Hdc.
      destruct (fold_left apply_result (combine results batch)
                          (m, mkTally 0 0 false, [])) as [[m1 tl] evs1].
      cbn [fst snd] in Hrun, Hdc.
      set (m2 := adjustConcurrency (batchSuccess tl) (batchFail tl)
                                   (hasRateLimit tl) m1) in *.
      assert (Hr2 : isRunning m2 = false).
      { unfold m2. rewrite isRunning_adjustConcurrency, Hrun. exact Hr. }
      rewrite Hr2, andb_false_r in Hstep.
      rewrite (loop_head_stopped hostname m2 _ Hr2) in Hstep.
      destruct (enter_finally m2 _) as [[m3 a3] evs3] eqn:Hfin.
      destruct (enter_finally_rests _ _ _ _ _ Hfin) as (-> & -> & Hp).
      injection Hstep as <- <- <-.
      split; [exact Hp|]. split; [exact Hr2|].
      rewrite app_nil_r, data_changes_app. cbn [emitUpdate data_changes].
      pose proof (count_success_bounds results) as Hb.
      rewrite Hlen in Hb. lia.
    - rewrite (loop_head_stopped hostname m a Hr) in Hstep.
      injection Hstep as Hstep.
      destruct (enter_finally_rests _ _ _ _ _ Hstep) as (-> & -> & Hp).
      split; [exact Hp|]. split; [exact Hr|]. cbn. lia.
    - unfold finalize in Hstep.
      injection Hstep as <- <- <-. cbn [set_phase act_phase].
      split; [right; reflexivity|]. split.
      + unfold with_task, isRunning.
        destruct (task m) as [t|] eqn:Ht; [reflexivity|rewrite Ht; reflexivity].
      + cbn. lia. }
  destruct Hphase as (Hp & Hr' & Hdc).
  split; [exact Hp|]. split.
  { unfold launched. destruct Hp as [-> | ->]; reflexivity. }
  split; [exact Hr'|exact Hdc].
Qed.

Lemma stopped_task_schedules_nothing_witness :
  let a := nth 0 (acts stopping_system) (mkActivation [] 0 0 Finished) in
  exists m' a' evs,
    act_step no_hostname
             (WindowSettled (map all_succeed (firstn 3 ten_cards)))
             (mgr stopping_system) a = Some (m', a', evs)
    /\ act_phase a' = Grace
    /\ launched a' = []
    /\ isRunning m' = false.
Proof.
  cbv zeta.
  destruct (act_step no_hostname
              (WindowSettled (map all_succeed (firstn 3 ten_cards)))
              (mgr stopping_system)
              (nth 0 (acts stopping_system) (mkActivation [] 0 0 Finished)))
    as [[[m' a'] evs]|] eqn:Hstep; [|vm_compute in Hstep; discriminate].
  exists m', a', evs. split; [reflexivity|].
  assert (Hstopped : isRunning (mgr stopping_system) = false)
    by (vm_compute; reflexivity).
  destruct (stopped_task_schedules_nothing no_hostname _ _ _ m' a' evs
              Hstopped Hstep)
    as (Hp & Hl & Hr & _).
  split; [|split; assumption].
  destruct Hp as [Hp|Hp]; [exact Hp|].
  exfalso. vm_compute in Hstep. injection Hstep as <- <- <-. discriminate Hp.
Defined.

(* ===================================================================== *)
(** ** The debounced backup *)
(* ===================================================================== *)

Lemma single_pending_step s act :
  single_pending s ->
  single_pending (fst (backup_step s act))
  /\ (snd (backup_step s act) + List.length (timers (fst (backup_step s act)))
      <= List.length (timers s)
         + match act with
           | Trigger _ true _ => 1
           | _ => 0
           end)%nat.
Proof.
  intros Hs. destruct act as [now enabled delay|h]; cbn [backup_step fst snd].
  - unfold triggerDebouncedBackup. destruct enabled; cbn [negb].
    + destruct Hs as [Hs|(h & due & Hs & Hd)]; rewrite Hs.
      * destruct (debounceTimer s); cbn;
          (split; [right; do 2 eexists; split; reflexivity|lia]).
      * rewrite Hd. cbn. rewrite Nat.eqb_refl. cbn.
        split; [right; do 2 eexists; split; reflexivity|lia].
    + split; [exact Hs|lia].
  - destruct Hs as [Hs|(h0 & due & Hs & Hd)]; rewrite Hs; cbn.
    + split; [left; exact Hs|rewrite Hs; cbn; lia].
    + destruct (h0 =? h)%nat; cbn.
      * split; [left; reflexivity|lia].
      * split; [right; exists h0, due; split; assumption|rewrite Hs; cbn; lia].
Qed.

Lemma backup_run_invariant acts_ : forall s,
  single_pending s ->
  single_pending (fst (backup_run s acts_))
  /\ (snd (backup_run s acts_) + List.length (timers (fst (backup_run s acts_)))
      <= List.length (timers s) + enabled_triggers acts_)%nat.
Proof.
  induction acts_ as [|act rest IH]; intros s Hs.
  - cbn. split; [exact Hs|lia].
  - cbn [backup_run].
    destruct (single_pending_step s act Hs) as [H1 Hc1].
    destruct (backup_step s act) as [s1 n1]. cbn [fst snd] in H1, Hc1.
    destruct (IH s1 H1) as [H2 Hc2].
    destruct (backup_run s1 rest) as [s2 n2]. cbn [fst snd] in H2, Hc2 |- *.
    split; [exact H2|].
    unfold enabled_triggers in *. cbn [filter].
    destruct act as [now [|] delay|h]; cbn [List.length] in *; lia.
Qed.

Lemma backup_run_app a b s :
  backup_run s (a ++ b)
  = (fst (backup_run (fst (backup_run s a)) b),
     (snd (backup_run s a) + snd (backup_run (fst (backup_run s a)) b))%nat).
Proof.
  revert s. induction a as [|act a IH]; intros s.
  - cbn. destruct (backup_run s b). reflexivity.
  - cbn [app backup_run]. destruct (backup_step s act) as [s1 n1].
    rewrite IH. destruct (backup_run s1 a) as [s2 n2]. cbn [fst snd].
    destruct (backup_run s2 b) as [s3 n3]. cbn [fst snd]. f_equal. lia.
Qed.

(** X20. Whatever the sequence of data changes and timer expiries, at most
    one incremental backup is pending at any time and it is the one
    [debounceTimer] names; the backups started plus the one pending never
    exceed the number of changes made while debouncing was enabled; and
    right after such a change the pending backup is due [delay] minutes
    after it, any earlier one having been cancelled: a burst of changes
    gives one backup, after the last of them.  A change made while
    debouncing is disabled neither cancels nor postpones a pending
    backup. *)
Theorem debounce_keeps_one_pending (acts_ : list BackupAction) :
  let s := fst (backup_run backup_initial acts_) in
  let started := snd (backup_run backup_initial acts_) in
  (List.length (timers s) <= 1)%nat
  /\ single_pending s
  /\ (started + List.length (timers s) <= enabled_triggers acts_)%nat
  /\ (forall now delay,
        let s' := fst (backup_run backup_initial
                                  (acts_ ++ [Trigger now true delay])) in
        exists h, timers s' = [(h, now + delay * 60 * 1000)]
                  /\ debounceTimer s' = Some h)
  /\ (forall now delay,
        fst (backup_run backup_initial (acts_ ++ [Trigger now false delay]))
        = s).
Proof.
  cbv zeta.
  destruct (backup_run_invariant acts_ backup_initial (or_introl eq_refl))
    as [Hs Hc].
  cbn [backup_initial timers List.length Nat.add] in Hc.
  split.
  { destruct Hs as [->|(h & due & -> & _)]; cbn; lia. }
  split; [exact Hs|]. split; [exact Hc|]. split.
  - intros now delay. rewrite backup_run_app. cbn [fst].
    set (s := fst (backup_run backup_initial acts_)) in *.
    cbn [backup_run backup_step fst]. unfold triggerDebouncedBackup.
    cbn [negb]. exists (next_handle s).
    destruct Hs as [Hs|(h & due & Hs & Hd)]; rewrite Hs.
    + destruct (debounceTimer s); cbn; split; reflexivity.
    + rewrite Hd. cbn. rewrite Nat.eqb_refl. cbn. split; reflexivity.
  - intros now delay. rewrite backup_run_app. reflexivity.
Qed.

Lemma debounce_keeps_one_pending_witness :
  let burst := [Trigger 0 true 5; Trigger 1000 true 5; Trigger 2000 true 5] in
  exists h,
    timers (fst (backup_run backup_initial (burst ++ [Trigger 3000 true 5])))
    = [(h, 3000 + 5 * 60 * 1000)].
Proof.
  cbv zeta.
  destruct (proj1 (proj2 (proj2 (proj2
              (debounce_keeps_one_pending
                 [Trigger 0 true 5; Trigger 1000 true 5;
                  Trigger 2000 true 5])))) 3000 5) as (h & Ht & _).
  exists h. exact Ht.
Defined.

(* ===================================================================== *)
(** ** Cleaning old backups *)
(* ===================================================================== *)

Lemma insert_newest_first_perm x l :
  Permutation (insert_newest_first x l) (x :: l).
Proof.
  induction l as [|y ys IH]; [reflexivity|]. cbn.
  destruct (snd y <=? snd x); [reflexivity|].
  rewrite IH. apply perm_swap.
Qed.

Lemma sort_newest_first_perm l : Permutation (sort_newest_first l) l.
Proof.
  induction l as [|x l IH]; [reflexivity|]. cbn.
  rewrite insert_newest_first_perm. constructor. exact IH.
Qed.

Lemma insert_newest_first_sorted x l :
  StronglySorted (fun a b : BackupFile => snd b <= snd a) l ->
  StronglySorted (fun a b : BackupFile => snd b <= snd a)
                 (insert_newest_first x l).
Proof.
  induction 1 as [|y ys Hs IH Hy]; cbn.
  - constructor; constructor.
  - destruct (snd y <=? snd x) eqn:Hc.
    + apply Z.leb_le in Hc. constructor; [constructor; assumption|].
      constructor; [exact Hc|].
      rewrite Forall_forall in *. intros z Hz. specialize (Hy z Hz). lia.
    + apply Z.leb_gt in Hc. constructor; [exact IH|].
      rewrite Forall_forall in *. intros z Hz.
      apply (Permutation_in _ (insert_newest_first_perm x ys)) in Hz.
      destruct Hz as [<-|Hz]; [lia|exact (Hy z Hz)].
Qed.

Lemma sort_newest_first_sorted l :
  StronglySorted (fun a b : BackupFile => snd b <= snd a)
                 (sort_newest_first l).
Proof.
  induction l as [|x l IH]; [constructor|].
  cbn. apply insert_newest_first_sorted. exact IH.
Qed.

Lemma sorted_app_le (l1 l2 : list BackupFile) :
  StronglySorted (fun a b : BackupFile => snd b <= snd a) (l1 ++ l2) ->
  forall k d, In k l1 -> In d l2 -> snd d <= snd k.
Proof.
  induction l1 as [|x l1 IH]; intros Hs k d Hk Hd; [destruct Hk|].
  cbn in Hs. inversion Hs as [|? ? Hs' Hx]; subst.
  destruct Hk as [<-|Hk].
  - rewrite Forall_forall in Hx. apply Hx, in_or_app. right. exact Hd.
  - exact (IH Hs' k d Hk Hd).
Qed.

Lemma filter_filter_comm {A} (p q : A -> bool) l :
  filter p (filter q l) = filter q (filter p l).
Proof.
  induction l as [|x l IH]; [reflexivity|]. cbn.
  destruct (p x) eqn:Hp, (q x) eqn:Hq; cbn; rewrite ?Hp, ?Hq, IH; reflexivity.
Qed.

Lemma same_name_same_file (l : list BackupFile) f g :
  NoDup (map (@fst string Z) l) -> In f l -> In g l -> fst f = fst g -> f = g.
Proof.
  induction l as [|x l IH]; intros Hnd Hf Hg Hn; [destruct Hf|].
  cbn in Hnd. inversion Hnd as [|? ? Hx Hnd']; subst.
  destruct Hf as [<-|Hf], Hg as [<-|Hg].
  - reflexivity.
  - exfalso. apply Hx. rewrite Hn. apply (in_map (@fst string Z)). exact Hg.
  - exfalso. apply Hx. rewrite <- Hn. apply (in_map (@fst string Z)). exact Hf.
  - exact (IH Hnd' Hf Hg Hn).
Qed.

Lemma spared_spec (gone : list BackupFile) (f : BackupFile) :
  spared gone f = false <-> exists d : BackupFile, In d gone /\ fst d = fst f.
Proof.
  unfold spared. rewrite negb_false_iff, existsb_exists.
  split; intros (d & Hd & He); exists d; (split; [exact Hd|]);
    apply String.eqb_eq; exact He.
Qed.

Lemma spared_none (gone l : list BackupFile) :
  (forall x, In x l -> In x gone) -> filter (spared gone) l = [].
Proof.
  induction l as [|x l IH]; intros Hsub; [reflexivity|]. cbn [filter].
  assert (Hx : spared gone x = false)
    by (apply spared_spec; exists x; split;
        [apply Hsub; left; reflexivity|reflexivity]).
  rewrite Hx. apply IH. intros y Hy. apply Hsub. right. exact Hy.
Qed.

Lemma spared_all (gone l : list BackupFile) :
  (forall x, In x l -> ~ In (fst x) (map (@fst string Z) gone)) ->
  filter (spared gone) l = l.
Proof.
  induction l as [|x l IH]; intros Hsub; [reflexivity|]. cbn [filter].
  destruct (spared gone x) eqn:He.
  - f_equal. apply IH. intros y Hy. apply Hsub. right. exact Hy.
  - exfalso. apply spared_spec in He. destruct He as (d & Hd & Hn).
    apply (Hsub x (or_introl eq_refl)). rewrite <- Hn.
    apply (in_map (@fst string Z)). exact Hd.
Qed.

Lemma names_apart (kept gone : list BackupFile) :
  NoDup (map (@fst string Z) (kept ++ gone)) ->
  forall x, In x kept -> ~ In (fst x) (map (@fst string Z) gone).
Proof.
  induction kept as [|y kept IH]; intros Hnd x Hx; [destruct Hx|].
  cbn in Hnd. inversion Hnd as [|? ? Hy Hnd']; subst.
  destruct Hx as [<-|Hx].
  - intros Hin. apply Hy. rewrite map_app. apply in_or_app. right. exact Hin.
  - exact (IH Hnd' x Hx).
Qed.

Lemma filter_names_nodup (p : BackupFile -> bool) (l : list BackupFile) :
  NoDup (map (@fst string Z) l) -> NoDup (map (@fst string Z) (filter p l)).
Proof.
  induction l as [|x l IH]; intros Hnd; [constructor|].
  cbn in Hnd. inversion Hnd as [|? ? Hx Hnd']; subst. cbn [filter].
  destruct (p x); [|exact (IH Hnd')].
  cbn. constructor; [|exact (IH Hnd')].
  intros Hin. apply Hx. apply in_map_iff in Hin.
  destruct Hin as (y & Hy & Hin). apply filter_In in Hin.
  apply in_map_iff. exists y. split; [exact Hy|apply Hin].
Qed.

Lemma filter_perm {A} (p : A -> bool) (l l' : list A) :
  Permutation l l' -> Permutation (filter p l) (filter p l').
Proof.
  induction 1 as [|x l l' _ IH|x y l|l l' l'' _ IH1 _ IH2]; cbn.
  - constructor.
  - destruct (p x); [constructor|]; exact IH.
  - destruct (p x), (p y); try reflexivity. apply perm_swap.
  - exact (perm_trans IH1 IH2).
Qed.

Lemma BackupFile_eq_dec (a b : BackupFile) : {a = b} + {a <> b}.
Proof. decide equality; [apply Z.eq_dec|apply string_dec]. Qed.

(** X21. With unique file names and no failing file system call,
    [cleanOldBackups] never touches a file that is not a backup of the
    given prefix, only removes files, and for [keepCount >= 0] leaves
    exactly [keepCount] backups of that prefix (or all of them when there
    are fewer), every one of them at least as recent as every file it
    removed.  With a negative [keepCount] it removes nothing. *)
Theorem clean_keeps_newest (prefix : string) (keepCount : Z)
        (dir : list BackupFile) :
  NoDup (map (@fst string Z) dir) ->
  let rest := cleanOldBackups prefix keepCount dir in
  (forall f, In f rest -> In f dir)
  /\ (forall f, In f dir -> is_backup_of prefix f = false -> In f rest)
  /\ (keepCount < 0 -> rest = dir)
  /\ (0 <= keepCount ->
      List.length (filter (is_backup_of prefix) rest)
      = Nat.min (Z.to_nat keepCount)
                (List.length (filter (is_backup_of prefix) dir)))
  /\ (forall k d, In k rest -> is_backup_of prefix k = true ->
                  In d dir -> ~ In d rest -> snd d <= snd k).
Proof.
  intros Hnd. cbv zeta.
  set (M := filter (is_backup_of prefix) dir).
  set (S := sort_newest_first M).
  assert (HSM : Permutation S M) by apply sort_newest_first_perm.
  assert (Hsorted : StronglySorted (fun a b : BackupFile => snd b <= snd a) S)
    by apply sort_newest_first_sorted.
  assert (HSdir : forall f, In f S -> In f dir /\ is_backup_of prefix f = true).
  { intros f Hf. apply (Permutation_in _ HSM) in Hf.
    apply filter_In in Hf. exact Hf. }
  assert (HndS : NoDup (map (@fst string Z) S)).
  { apply (Permutation_NoDup (l := map (@fst string Z) M)).
    - apply Permutation_map, Permutation_sym, HSM.
    - apply filter_names_nodup, Hnd. }
  assert (Hdoom : doomed prefix keepCount dir
                  = if keepCount <? 0 then []
                    else skipn (Z.to_nat keepCount) S) by reflexivity.
  set (gone := doomed prefix keepCount dir) in *.
  assert (HdS : forall f, In f gone -> In f S).
  { intros f Hf. rewrite Hdoom in Hf. destruct (keepCount <? 0); [destruct Hf|].
    rewrite <- (firstn_skipn (Z.to_nat keepCount) S).
    apply in_or_app. right. exact Hf. }
  assert (Hrest : forall f, In f (cleanOldBackups prefix keepCount dir)
                            <-> In f dir /\ ~ In f gone).
  { intros f. unfold cleanOldBackups. fold gone. rewrite filter_In.
    split; intros [Hin Hn]; (split; [exact Hin|]).
    - intros Hd. assert (Ht : spared gone f = false)
        by (apply spared_spec; exists f; split; [exact Hd|reflexivity]).
      rewrite Ht in Hn. discriminate.
    - destruct (spared gone f) eqn:He; [reflexivity|]. exfalso.
      apply spared_spec in He. destruct He as (d & Hd & Hname).
      assert (d = f)
        by (apply (same_name_same_file dir);
            [exact Hnd|apply HSdir, HdS, Hd|exact Hin|exact Hname]).
      subst d. exact (Hn Hd). }
  split; [intros f Hf; apply Hrest in Hf; apply Hf|].
  split.
  { intros f Hin Hnb. apply Hrest. split; [exact Hin|].
    intros Hd. apply HdS, HSdir in Hd. destruct Hd as [_ Hb]. congruence. }
  split.
  { intros Hneg. unfold cleanOldBackups. fold gone. rewrite Hdoom.
    replace (keepCount <? 0) with true by (symmetry; apply Z.ltb_lt; exact Hneg).
    apply spared_all. intros x _ []. }
  split.
  - intros Hk. unfold cleanOldBackups. fold gone.
    rewrite filter_filter_comm. fold M.
    assert (Hg : gone = skipn (Z.to_nat keepCount) S).
    { rewrite Hdoom. replace (keepCount <? 0) with false
        by (symmetry; apply Z.ltb_ge; exact Hk). reflexivity. }
    rewrite <- (Permutation_length (filter_perm (spared gone) _ _ HSM)).
    rewrite <- (Permutation_length HSM).
    rewrite <- length_firstn.
    f_equal.
    rewrite <- (firstn_skipn (Z.to_nat keepCount) S) at 1.
    rewrite <- (firstn_skipn (Z.to_nat keepCount) S) in HndS.
    rewrite <- Hg in *.
    rewrite filter_app, (spared_none gone gone) by auto.
    rewrite app_nil_r. apply spared_all. apply names_apart. exact HndS.
  - intros k d Hk Hkb Hd Hdn.
    apply Hrest in Hk. destruct Hk as [Hkin Hknd].
    assert (Hdd : In d gone).
    { destruct (in_dec BackupFile_eq_dec d gone) as [Hy|Hno]; [exact Hy|].
      exfalso. apply Hdn, Hrest. split; assumption. }
    assert (HkS : In k S).
    { apply (Permutation_in _ (Permutation_sym HSM)). apply filter_In.
      split; assumption. }
    rewrite Hdoom in Hdd, Hknd. destruct (keepCount <? 0); [destruct Hdd|].
    rewrite <- (firstn_skipn (Z.to_nat keepCount) S) in HkS, Hsorted.
    apply in_app_or in HkS. destruct HkS as [HkS|HkS]; [|contradiction].
    exact (sorted_app_le _ _ Hsorted k d HkS Hdd).
Qed.

Lemma clean_keeps_newest_witness :
  let dir : list BackupFile :=
    [("incremental-1.zip", 10); ("daily-1.zip", 5);
     ("incremental-2.zip", 30); ("incremental-3.zip", 20)] in
  NoDup (map (@fst string Z) dir)
  /\ cleanOldBackups "incremental" 2 dir
     = [("daily-1.zip", 5); ("incremental-2.zip", 30);
        ("incremental-3.zip", 20)]
  /\ List.length (filter (is_backup_of "incremental")
                         (cleanOldBackups "incremental" 2 dir)) = 2%nat.
Proof.
  cbv zeta.
  assert (Hnd : NoDup (map (@fst string Z)
                           [("incremental-1.zip", 10); ("daily-1.zip", 5);
                            ("incremental-2.zip", 30);
                            ("incremental-3.zip", 20)])).
  { cbn. repeat constructor; cbn; intuition discriminate. }
  split; [exact Hnd|]. split; [vm_compute; reflexivity|].
  rewrite (proj1 (proj2 (proj2 (proj2
             (clean_keeps_newest "incremental" 2 _ Hnd)))) ltac:(lia)).
  reflexivity.
Defined.

(* ===================================================================== *)
(** ** The request URL *)
(* ===================================================================== *)

Lemma drop_trailing_idem p s :
  drop_trailing p (drop_trailing p s) = drop_trailing p s.
Proof.
  induction s as [|c s IH]; [reflexivity|]. cbn [drop_trailing].
  destruct (p c && (drop_trailing p s =? "")%string) eqn:Hc; [reflexivity|].
  cbn [drop_trailing]. rewrite IH, Hc. reflexivity.
Qed.

Lemma drop_trailing_app p y t :
  drop_trailing p t <> "" ->
  drop_trailing p (y ++ t) = (y ++ drop_trailing p t)%string.
Proof.
  intros Ht. induction y as [|c y IH]; [reflexivity|].
  change ((String c y ++ t)%string) with (String c (y ++ t)).
  cbn [drop_trailing]. rewrite IH.
  change ((String c y ++ drop_trailing p t)%string)
    with (String c (y ++ drop_trailing p t)).
  destruct ((y ++ drop_trailing p t)%string) as [|d r] eqn:Hy.
  - exfalso. destruct y; cbn in Hy; [congruence|discriminate].
  - change (String d r =? "")%string with false. rewrite andb_false_r.
    reflexivity.
Qed.

Lemma skip_spaces_head s :
  Js.skip_spaces s = ""
  \/ exists c r, Js.skip_spaces s = String c r /\ Js.is_space c = false.
Proof.
  induction s as [|c s IH]; [left; reflexivity|]. cbn [Js.skip_spaces].
  destruct (Js.is_space c) eqn:Hc; [exact IH|].
  right. exists c, s. split; [reflexivity|exact Hc].
Qed.

Lemma trim_idem s : trim (trim s) = trim s.
Proof.
  unfold trim.
  destruct (skip_spaces_head s) as [->|(c & r & -> & Hc)]; [reflexivity|].
  cbn [drop_trailing]. rewrite Hc. cbn [andb Js.skip_spaces]. rewrite Hc.
  change (String c (drop_trailing Js.is_space r))
    with (drop_trailing Js.is_space (String c r)) at 1
    || idtac.
  cbn [drop_trailing]. rewrite drop_trailing_idem, Hc. reflexivity.
Qed.

Lemma toLowerCase_app a b :
  toLowerCase (a ++ b) = (toLowerCase a ++ toLowerCase b)%string.
Proof.
  induction a as [|c a IH]; [reflexivity|]. cbn. rewrite IH. reflexivity.
Qed.

Lemma length_app_string a b :
  String.length (a ++ b) = (String.length a + String.length b)%nat.
Proof.
  induction a as [|c a IH]; [reflexivity|]. cbn. rewrite IH. reflexivity.
Qed.

Lemma substring_app_skip y t m k :
  substring (String.length y + m) k (y ++ t) = substring m k t.
Proof.
  induction y as [|c y IH]; [reflexivity|]. cbn. exact IH.
Qed.

Lemma endsWith_app y t suffix :
  (String.length suffix <= String.length t)%nat ->
  endsWith (y ++ t) suffix = endsWith t suffix.
Proof.
  intros Hk. unfold endsWith. rewrite length_app_string.
  replace (String.length y + String.length t - String.length suffix)%nat
    with (String.length y + (String.length t - String.length suffix))%nat
    by lia.
  rewrite substring_app_skip.
  replace (String.length suffix <=? String.length y + String.length t)%nat
    with true by (symmetry; apply Nat.leb_le; lia).
  replace (String.length suffix <=? String.length t)%nat
    with true by (symmetry; apply Nat.leb_le; lia).
  reflexivity.
Qed.

Lemma prefix_split p : forall s,
  String.prefix p s = true -> exists r, s = (p ++ r)%string.
Proof.
  induction p as [|c p IH]; intros s H; [exists s; reflexivity|].
  destruct s as [|d s]; [discriminate|]. cbn in H.
  destruct (ascii_dec c d) as [<-|]; [|discriminate].
  destruct (IH s H) as (r & ->). exists r. reflexivity.
Qed.

(** After [with_scheme] a trimmed URL starts with [http] and is still
    trimmed. *)
Lemma with_scheme_shape s :
  let url := with_scheme (trim s) in
  (exists r, url = String "h" (String "t" (String "t" (String "p" r))))
  /\ trim url = url.
Proof.
  cbv zeta. unfold with_scheme, startsWith.
  destruct (String.prefix "http" (trim s)) eqn:Hp.
  - split; [|apply trim_idem].
    destruct (prefix_split _ _ Hp) as (r & Hr). rewrite Hr. exists r.
    reflexivity.
  - split; [eexists; reflexivity|].
    unfold trim at 1. cbn [append Js.skip_spaces].
    change (Js.is_space "h") with false. cbv iota.
    destruct (trim s) as [|c r] eqn:Ht; [reflexivity|].
    change (String "h" (String "t" (String "t" (String "p" (String "s"
              (String ":" (String "/" (String "/" (String c r)))))))))
      with ("https://" ++ String c r)%string.
    rewrite drop_trailing_app.
    + rewrite <- Ht. unfold trim. rewrite drop_trailing_idem. reflexivity.
    + rewrite <- Ht. unfold trim. rewrite drop_trailing_idem.
      fold (trim s). rewrite Ht. discriminate.
Qed.

Lemma prefix_http x :
  String.prefix "http" (String "h" (String "t" (String "t" (String "p" x))))
  = true.
Proof. destruct x; reflexivity. Qed.

Lemma strip_slashes_http r :
  strip_slashes (String "h" (String "t" (String "t" (String "p" r))))
  = String "h" (String "t" (String "t" (String "p" (strip_slashes r)))).
Proof. reflexivity. Qed.

(** A URL that starts with [http], is trimmed and got one of the two
    endings appended is a fixed point. *)
Lemma request_url_completed r tail_ :
  tail_ = "/v1/chat/completions" \/ tail_ = "/chat/completions" ->
  let u := (String "h" (String "t" (String "t" (String "p" r))) ++ tail_)%string in
  hasPath u = true /\ request_url u = u.
Proof.
  intros Htail. cbv zeta.
  set (u := (String "h" (String "t" (String "t" (String "p" r))) ++ tail_)%string).
  assert (Hshape : u = String "h" (String "t" (String "t"
                                     (String "p" (r ++ tail_)))))
    by reflexivity.
  assert (Htrim : trim u = u).
  { unfold trim. rewrite Hshape at 1. cbn [Js.skip_spaces].
    change (Js.is_space "h") with false. cbv iota. rewrite <- Hshape.
    unfold u. rewrite drop_trailing_app;
      destruct Htail as [-> | ->]; vm_compute; congruence. }
  assert (Hscheme : with_scheme u = u)
    by (unfold with_scheme, startsWith; rewrite Hshape, prefix_http;
        reflexivity).
  assert (Hpath : hasPath u = true).
  { unfold hasPath, pathKeywords, u. rewrite toLowerCase_app.
    cbn [existsb].
    destruct Htail as [-> | ->].
    - rewrite (includes_app_r "/v1" _ (toLowerCase "/v1/chat/completions")
                 eq_refl). reflexivity.
    - rewrite (includes_app_r "/chat" _ (toLowerCase "/chat/completions")
                 eq_refl). rewrite orb_true_r. reflexivity. }
  assert (Hends : endsWith u "/v1" || endsWith u "/v1/" = false).
  { unfold u. destruct Htail as [-> | ->];
      rewrite !endsWith_app by (cbn; lia); reflexivity. }
  split; [exact Hpath|].
  unfold request_url. rewrite Htrim, Hscheme, Hpath, Hends. reflexivity.
Qed.

(** X22. For an ASCII base URL, the URL an OpenAI-compatible request is
    sent to always starts with [http] and contains one of the path
    keywords, and it is a fixed point: given back as the base URL it is
    used unchanged.  A base URL that begins with [https://api.] counts as
    containing a path because of its host name: unless it ends in [/v1] or
    [/v1/], nothing is appended to it. *)
Theorem request_url_is_stable (actualBaseUrl : string) :
  let u := request_url actualBaseUrl in
  startsWith u "http" = true
  /\ hasPath u = true
  /\ request_url u = u
  /\ (forall rest,
        actualBaseUrl = ("https://api." ++ rest)%string ->
        trim actualBaseUrl = actualBaseUrl ->
        endsWith actualBaseUrl "/v1" || endsWith actualBaseUrl "/v1/" = false ->
        u = actualBaseUrl).
Proof.
  cbv zeta.
  destruct (with_scheme_shape actualBaseUrl) as ((r & Hr) & Htrim).
  assert (Hmain : startsWith (request_url actualBaseUrl) "http" = true
                  /\ hasPath (request_url actualBaseUrl) = true
                  /\ request_url (request_url actualBaseUrl)
                     = request_url actualBaseUrl).
  { set (url := with_scheme (trim actualBaseUrl)) in *.
    assert (Hu : request_url actualBaseUrl
                 = if negb (hasPath url)
                   then (strip_slashes url ++ "/v1/chat/completions")%string
                   else if endsWith url "/v1" || endsWith url "/v1/"
                        then (strip_slashes url ++ "/chat/completions")%string
                        else url) by reflexivity.
    destruct (hasPath url) eqn:Hp; cbn [negb] in Hu.
    - destruct (endsWith url "/v1" || endsWith url "/v1/") eqn:He.
      + rewrite Hr, strip_slashes_http in Hu. rewrite Hu.
        destruct (request_url_completed (strip_slashes r) "/chat/completions"
                    (or_intror eq_refl)) as [H1 H2].
        split; [apply prefix_http|]. split; [exact H1|exact H2].
      + rewrite Hu.
        split; [rewrite Hr; apply prefix_http|]. split; [exact Hp|].
        unfold request_url. fold url.
        assert (Hs : with_scheme (trim url) = url).
        { rewrite Htrim. unfold with_scheme, startsWith.
          rewrite Hr, prefix_http. reflexivity. }
        rewrite Hs, Hp, He. reflexivity.
    - rewrite Hr, strip_slashes_http in Hu. rewrite Hu.
      destruct (request_url_completed (strip_slashes r) "/v1/chat/completions"
                  (or_introl eq_refl)) as [H1 H2].
      split; [apply prefix_http|]. split; [exact H1|exact H2]. }
  destruct Hmain as (H1 & H2 & H3).
  split; [exact H1|]. split; [exact H2|]. split; [exact H3|].
  intros rest Hb Ht He. unfold request_url. rewrite Ht.
  assert (Hs : with_scheme actualBaseUrl = actualBaseUrl).
  { rewrite Hb. unfold with_scheme, startsWith.
    change ("https://api." ++ rest)%string
      with (String "h" (String "t" (String "t" (String "p"
              ("s://api." ++ rest)%string)))).
    rewrite prefix_http. reflexivity. }
  assert (Hp : hasPath actualBaseUrl = true).
  { rewrite Hb. unfold hasPath, pathKeywords. rewrite toLowerCase_app.
    cbn [existsb].
    rewrite (includes_app_l "/api" (toLowerCase "https://api.")
               (toLowerCase rest) eq_refl).
    rewrite !orb_true_r. reflexivity. }
  rewrite Hs, Hp, He. reflexivity.
Qed.

Lemma request_url_is_stable_witness :
  let base := "https://api.openai.com" in
  trim base = base
  /\ endsWith base "/v1" || endsWith base "/v1/" = false
  /\ request_url base = base.
Proof.
  cbv zeta. split; [reflexivity|]. split; [reflexivity|].
  apply (proj2 (proj2 (proj2 (request_url_is_stable "https://api.openai.com")))
           "openai.com"); reflexivity.
Defined.
